(** * akmanager: the package cache of [src/ak.js]

    A shallow embedding of the cache core of [ak.js]: registry resolution
    ([getPackageVersion]), input validation ([sanitizeInput]), fetch and
    store with integrity check ([cachePackage]), the verified cache lookup
    ([getCachedPackage]) and the install driver ([installPackages]).

    Asynchronous functions are embedded as programs over the operations
    they await (network requests, file system calls, subprocesses).  A
    program is run alone by [run], or interleaved with others at its
    awaits by [run_pool], the way [Promise.all] drives the tasks of
    [installPackages].

    Left out: what is logged (only the truthiness of what [logger.info]
    returns matters to the control flow, on line 86), and the timer that
    aborts a subprocess, whose effect is one of the ways a subprocess
    fails. *)

From Stdlib Require Import Ascii.
From stdpp Require Import base option list gmap strings pretty.

(** ** JavaScript values and errors *)

(** A value that is a string or [undefined]. *)
Definition JsStr : Type := option string.

(** String conversion in a template literal. *)
Definition to_str (v : JsStr) : string := default "undefined" v.

(** Truthiness of a string: only the empty string is falsy. *)
Definition truthy (s : string) : bool := if decide (s = EmptyString) then false else true.

Inductive FsCode : Type := ENOENT | EISDIR | EEXIST.

(** What an awaited promise can be rejected with.  [Error msg] is
    [new Error(msg)] as thrown by the program itself; the others come from
    the runtime and its libraries (engine-specific messages are not kept). *)
Inductive JsError : Type :=
| Error (msg : string)
| TypeError
| SyntaxError
| FetchError
| FsError (code : FsCode) (path : string)
| ExecError (stderr : string).

(** The [name] property of an error object. *)
Definition error_name (e : JsError) : string :=
  match e with
  | Error _ => "Error"
  | TypeError => "TypeError"
  | SyntaxError => "SyntaxError"
  | FetchError => "FetchError"
  | FsError _ _ => "Error"
  | ExecError _ => "Object"
  end.

#[global] Instance FsCode_eq_dec : EqDecision FsCode.
Proof. solve_decision. Defined.
#[global] Instance JsError_eq_dec : EqDecision JsError.
Proof. solve_decision. Defined.

(** ** Data model *)

(** [versions.<v>.dist] of a registry document. *)
Record Dist : Type := { tarball : JsStr; integrity : JsStr }.

(** [versions.<v>]: [dist] may be missing. *)
Record VersionMeta : Type := { dist : option Dist }.

(** The registry document [GET <registry>/<name>], as far as the program
    reads it.  [dist_tags = None] is a document without ["dist-tags"],
    [dist_tags = Some None] one whose ["dist-tags"] has no [latest];
    [versions = None] is a document without [versions]. *)
Record RegistryDoc : Type := {
  dist_tags : option JsStr;
  versions : option (gmap string VersionMeta)
}.

(** A response of [fetch]: the status flag, the body read by [res.json()]
    ([None] when the body is not JSON) and the body as the stream of chunks
    that [res.body.pipe] delivers. *)
Record Response : Type := {
  ok : bool;
  json : option RegistryDoc;
  body : list string
}.

(** A value of the manifest document, [{ path, integrity }]. *)
Record ManifestEntry : Type := { me_path : JsStr; me_integrity : JsStr }.

#[global] Instance ManifestEntry_eq_dec : EqDecision ManifestEntry.
Proof. solve_decision. Defined.

(** The manifest document: keys are ["<name>@<version>"]. *)
Abbreviation Manifest := (gmap string ManifestEntry).

(** ** The host: runtime functions the program calls but does not define *)

Record Host : Type := {
  (** [createHash("sha512").update(bytes).digest("base64")] *)
  sha512_base64 : string → string;
  (** [JSON.stringify(manifest, null, 2)] *)
  JSON_stringify : Manifest → string;
  (** [JSON.parse] on the manifest document; [None] when it throws.  A
      document that parses is taken to be an object of [{ path, integrity }]
      values, the shape the program writes. *)
  JSON_parse : string → option Manifest;
  (** [path.join], [path.dirname], [path.basename] *)
  path_join : string → string → string;
  path_dirname : string → string;
  path_basename : string → string;
  (** [JSON.stringify(defaultPkgJson, null, 2)] for a project name *)
  default_package_json : string → string;
  (** whether the value returned by [logger.info(...)] is truthy (line 86
      resolves the download promise only then) *)
  logger_info : bool
}.

(** Configuration read from the process environment (lines 15-20) and the
    working directory. *)
Record Config : Type := {
  CACHE_DIR : string;
  REGISTRY_URL : string;
  BUN_PATH : string;
  cwd : string
}.

(** ** The world: file system, memory cache and what was done so far *)

Inductive Event : Type :=
| EvFetch (url : string)
| EvMkdir (p : string)
| EvAccess (p : string)
| EvRead (p : string)
| EvWrite (p : string) (data : string)
| EvUnlink (p : string)
| EvOpen (p : string)
| EvStreamWrite (p : string) (pos : nat) (chunk : string)
| EvExec (cmd : string)
| EvSleep (ms : nat).

#[global] Instance Event_eq_dec : EqDecision Event.
Proof. solve_decision. Defined.

Definition is_fetch (ev : Event) : bool :=
  match ev with EvFetch _ => true | _ => false end.

(** The state a process works on: the files with their bytes, the
    directories that exist, the [versionCache] map of line 26, and the
    operations performed so far, oldest first. *)
Record World : Type := {
  files : gmap string string;
  dirs : gset string;
  versionCache : gmap string JsStr;
  trace : list Event
}.

Definition log (ev : Event) (w : World) : World :=
  {| files := files w; dirs := dirs w; versionCache := versionCache w;
     trace := trace w ++ [ev] |}.

Definition set_files (f : gmap string string) (w : World) : World :=
  {| files := f; dirs := dirs w; versionCache := versionCache w;
     trace := trace w |}.

Definition set_dirs (d : gset string) (w : World) : World :=
  {| files := files w; dirs := d; versionCache := versionCache w;
     trace := trace w |}.

Definition set_versionCache (c : gmap string JsStr) (w : World) : World :=
  {| files := files w; dirs := dirs w; versionCache := c; trace := trace w |}.

(** The result of running a subprocess. *)
Record ExecResult : Type := {
  exec_error : bool;
  exec_stdout : string;
  exec_stderr : string
}.

(** What the outside answers, given everything done so far: the registry
    and tarball hosts ([None]: the request fails in transport) and the
    shell. *)
Record Env : Type := {
  http : list Event → string → option Response;
  shell : list Event → string → ExecResult
}.

(** Bytes written through a stream land at the stream's own offset. *)
Fixpoint overwrite (chunk s : string) : string :=
  match chunk with
  | EmptyString => s
  | String c chunk' =>
      String c (overwrite chunk' (match s with EmptyString => EmptyString | String _ s' => s' end))
  end.

Fixpoint write_at (s : string) (pos : nat) (chunk : string) : string :=
  match pos with
  | O => overwrite chunk s
  | S n =>
      match s with
      | EmptyString => String Ascii.zero (write_at EmptyString n chunk)
      | String c s' => String c (write_at s' n chunk)
      end
  end.

(** ** Operations a program awaits *)

Inductive Op : Type → Type :=
| CacheLookup (pkg : string) : Op (option JsStr)
| CacheSet (pkg : string) (v : JsStr) : Op unit
| Fetch (url : string) : Op Response
| Mkdir (p : string) : Op unit
| Access (p : string) : Op unit
| ReadFile (p : string) : Op string
| WriteFile (p : string) (data : string) : Op unit
| Unlink (p : string) : Op unit
| OpenWrite (p : string) : Op unit
| StreamWrite (p : string) (pos : nat) (chunk : string) : Op unit
| Exec (cmd : string) : Op (string * string)
| Sleep (ms : nat) : Op unit.

(** Operations on the in-memory [Map] complete without yielding. *)
Definition is_sync {X} (op : Op X) : bool :=
  match op with
  | CacheLookup _ | CacheSet _ _ => true
  | _ => false
  end.

Section Semantics.
Context (host : Host) (env : Env).

(** A file can be created or overwritten at [p] when [p] is not a
    directory and its parent directory exists (a file that is there has
    one). *)
Definition writable (p : string) (w : World) : bool :=
  bool_decide (p ∉ dirs w) &&
  (bool_decide (is_Some (files w !! p)) || bool_decide (path_dirname host p ∈ dirs w)).

Definition fs_write (p data : string) (w : World) : (JsError + unit) * World :=
  if bool_decide (p ∈ dirs w) then (inl (FsError EISDIR p), w)
  else if writable p w then (inr tt, set_files (<[p := data]> (files w)) w)
  else (inl (FsError ENOENT p), w).

(** What an operation does when it completes, and what its promise is
    settled with.  Each operation takes effect at once.
    - [mkdir(p, {recursive: true})] succeeds on an existing directory and
      fails on a file;
    - [access], [readFile], [unlink] reject with ENOENT when nothing is at
      the path; [unlink] does so too, it has no "force";
    - [writeFile] and [createWriteStream] create or truncate the file;
    - a stream writes each chunk at its own offset into the file that is at
      its path; bytes written after the path was unlinked are lost. *)
Definition perform {X} (op : Op X) (w : World) : (JsError + X) * World :=
  match op in Op X return (JsError + X) * World with
  | CacheLookup pkg => (inr (versionCache w !! pkg), w)
  | CacheSet pkg v => (inr tt, set_versionCache (<[pkg := v]> (versionCache w)) w)
  | Fetch url =>
      (match http env (trace w) url with
       | Some res => inr res
       | None => inl FetchError
       end, log (EvFetch url) w)
  | Mkdir p =>
      let w := log (EvMkdir p) w in
      if bool_decide (p ∈ dirs w) then (inr tt, w)
      else if bool_decide (is_Some (files w !! p)) then (inl (FsError EEXIST p), w)
      else (inr tt, set_dirs ({[p]} ∪ dirs w) w)
  | Access p =>
      let w := log (EvAccess p) w in
      if bool_decide (p ∈ dirs w) || bool_decide (is_Some (files w !! p))
      then (inr tt, w) else (inl (FsError ENOENT p), w)
  | ReadFile p =>
      let w := log (EvRead p) w in
      if bool_decide (p ∈ dirs w) then (inl (FsError EISDIR p), w)
      else match files w !! p with
           | Some c => (inr c, w)
           | None => (inl (FsError ENOENT p), w)
           end
  | WriteFile p data => fs_write p data (log (EvWrite p data) w)
  | Unlink p =>
      let w := log (EvUnlink p) w in
      if bool_decide (p ∈ dirs w) then (inl (FsError EISDIR p), w)
      else match files w !! p with
           | Some _ => (inr tt, set_files (delete p (files w)) w)
           | None => (inl (FsError ENOENT p), w)
           end
  | OpenWrite p => fs_write p EmptyString (log (EvOpen p) w)
  | StreamWrite p pos chunk =>
      let w := log (EvStreamWrite p pos chunk) w in
      match files w !! p with
      | Some c => (inr tt, set_files (<[p := write_at c pos chunk]> (files w)) w)
      | None => (inr tt, w)
      end
  | Exec cmd =>
      let r := shell env (trace w) cmd in
      (if exec_error r then inl (ExecError (exec_stderr r))
       else inr (exec_stdout r, exec_stderr r), log (EvExec cmd) w)
  | Sleep ms => (inr tt, log (EvSleep ms) w)
  end.
End Semantics.

(** ** Programs *)

(** An asynchronous computation: it returns, throws, awaits a promise that
    is never settled, or awaits an operation and goes on with its result
    (a value, or the error it was rejected with). *)
Inductive Prog (A : Type) : Type :=
| Ret (a : A)
| Throw (e : JsError)
| Never
| Do {X : Type} (op : Op X) (k : JsError + X → Prog A).

Arguments Ret {A} a.
Arguments Throw {A} e.
Arguments Never {A}.
Arguments Do {A X} op k.

Fixpoint bind {A B} (p : Prog A) (f : A → Prog B) : Prog B :=
  match p with
  | Ret a => f a
  | Throw e => Throw e
  | Never => Never
  | Do op k => Do op (fun r => bind (k r) f)
  end.

(** [try { p } catch (e) { h e }] *)
Fixpoint try_catch {A} (p : Prog A) (h : JsError → Prog A) : Prog A :=
  match p with
  | Ret a => Ret a
  | Throw e => h e
  | Never => Never
  | Do op k => Do op (fun r => try_catch (k r) h)
  end.

(** [await op]: a rejection is thrown. *)
Definition await {X} (op : Op X) : Prog X :=
  Do op (fun r => match r with inl e => Throw e | inr x => Ret x end).

#[global] Instance Prog_ret : MRet Prog := @Ret.
#[global] Instance Prog_bind : MBind Prog := fun A B f p => bind p f.

Inductive Outcome (A : Type) : Type :=
| Returned (a : A)
| Thrown (e : JsError)
| Pending.

Arguments Returned {A} a.
Arguments Thrown {A} e.
Arguments Pending {A}.

Section Run.
Context (host : Host) (env : Env).

(** A program run alone, from its start to its end. *)
Fixpoint run {A} (p : Prog A) (w : World) : Outcome A * World :=
  match p with
  | Ret a => (Returned a, w)
  | Throw e => (Thrown e, w)
  | Never => (Pending, w)
  | Do op k => let '(r, w') := perform host env op w in run (k r) w'
  end.
End Run.

(** ** The program *)

(** [sanitizeInput] (lines 38-41): the pattern
    [/^[a-zA-Z0-9-_@\/]+$/] accepts the non-empty strings made of letters,
    digits, [-], [_], [@] and [/]. *)
Definition allowed_char (c : ascii) : bool :=
  let n := nat_of_ascii c in
  (Nat.leb 97 n && Nat.leb n 122) || (Nat.leb 65 n && Nat.leb n 90) ||
  (Nat.leb 48 n && Nat.leb n 57) ||
  Nat.eqb n 45 || Nat.eqb n 95 || Nat.eqb n 64 || Nat.eqb n 47.

Fixpoint all_allowed (s : string) : bool :=
  match s with
  | EmptyString => true
  | String c s' => allowed_char c && all_allowed s'
  end.

Definition regex_test (pkg : string) : bool :=
  match pkg with
  | EmptyString => false
  | String _ _ => all_allowed pkg
  end.

Definition sanitizeInput (pkg : string) : JsError + string :=
  if regex_test pkg then inr pkg else inl (Error ("Invalid package: " +:+ pkg)).

(** [packages.map(sanitizeInput)]: the first rejected name throws. *)
Fixpoint sanitize_all (packages : list string) : JsError + list string :=
  match packages with
  | [] => inr []
  | pkg :: rest =>
      match sanitizeInput pkg with
      | inl e => inl e
      | inr p =>
          match sanitize_all rest with
          | inl e => inl e
          | inr ps => inr (p :: ps)
          end
      end
  end.

(** The double quote character, as a string. *)
Definition dquote : string := String (ascii_of_nat 34) EmptyString.

(** [l.join(sep)] *)
Fixpoint join (sep : string) (l : list string) : string :=
  match l with
  | [] => EmptyString
  | [x] => x
  | x :: rest => x +:+ sep +:+ join sep rest
  end.

(** The options object of the [install] command. *)
Record Options : Type := {
  opt_global : bool;
  opt_force : bool;
  opt_legacyPeerDeps : bool
}.

Section Program.
Context (host : Host) (cfg : Config).

(** Line 16. *)
Definition MANIFEST_PATH : string :=
  path_join host (CACHE_DIR cfg) "cache-manifest.json".

Definition fetch (url : string) : Prog Response := await (Fetch url).

(** [fetch] of a value that may be [undefined]. *)
Definition fetch_js (url : JsStr) : Prog Response :=
  match url with
  | Some u => fetch u
  | None => Throw TypeError
  end.

(** [await res.json()] *)
Definition res_json (res : Response) : Prog RegistryDoc :=
  match json res with
  | Some data => Ret data
  | None => Throw SyntaxError
  end.

(** [data["dist-tags"].latest] *)
Definition latest_tag (data : RegistryDoc) : Prog JsStr :=
  match dist_tags data with
  | Some v => Ret v
  | None => Throw TypeError
  end.

(** [getPackageVersion] (lines 28-36). *)
Definition getPackageVersion (pkg : string) (forceLatest : bool) : Prog JsStr :=
  cached ← await (CacheLookup pkg);
  match forceLatest, cached with
  | false, Some v => Ret v
  | _, _ =>
      res ← fetch (REGISTRY_URL cfg +:+ "/" +:+ pkg);
      if negb (ok res) then Throw (Error ("Package " +:+ pkg +:+ " not found"))
      else
        data ← res_json res;
        version ← latest_tag data;
        await (CacheSet pkg version);;
        Ret version
  end.

(** [execPromise] (lines 43-68): [n] iterations of the retry loop are
    left; the last one rethrows. *)
Fixpoint execPromise_loop (command : string) (n : nat) : Prog (option (string * string)) :=
  match n with
  | O => Ret None
  | S n' =>
      try_catch
        (result ← await (Exec (BUN_PATH cfg +:+ " " +:+ command)); Ret (Some result))
        (fun error =>
           match n' with
           | O => Throw error
           | S _ => await (Sleep 1000);; execPromise_loop command n'
           end)
  end.

Definition execPromise (command : string) : Prog (option (string * string)) :=
  execPromise_loop command 3.

(** The manifest document is read at lines 98, 105 and 308 by
    [readFile(MANIFEST_PATH, "utf8").then(JSON.parse).catch(() => ({}))] *)
Definition loadManifest : Prog Manifest :=
  try_catch
    (text ← await (ReadFile MANIFEST_PATH);
     match JSON_parse host text with
     | Some m => Ret m
     | None => Throw SyntaxError
     end)
    (fun _ => Ret ∅).

(** and written at lines 100 and 114 by
    [writeFile(MANIFEST_PATH, JSON.stringify(manifest, null, 2))]. *)
Definition saveManifest (manifest : Manifest) : Prog unit :=
  await (WriteFile MANIFEST_PATH (JSON_stringify host manifest)).

(** Deleting a stored file (lines 94 and 112): [fsPromises.unlink]. *)
Definition evict (p : string) : Prog unit := await (Unlink p).

(** ["sha512-" + digest] of the bytes of a file (lines 91-93, 109-111). *)
Definition digest_of (content : string) : string :=
  "sha512-" +:+ sha512_base64 host content.

(** [access(p).then(() => true).catch(() => false)] *)
Definition exists_at (p : string) : Prog bool :=
  try_catch (await (Access p);; Ret true) (fun _ => Ret false).

(** Lines 71-75: the registry document, the concrete version and its
    [dist]. *)
Definition lookup_dist (data : RegistryDoc) (pkgVersion : JsStr) : Prog Dist :=
  match versions data with
  | None => Throw TypeError
  | Some vs =>
      match vs !! to_str pkgVersion with
      | None => Throw TypeError
      | Some meta =>
          match dist meta with
          | None => Throw TypeError
          | Some d => Ret d
          end
      end
  end.

Definition resolve_dist (pkg version : string) : Prog (JsStr * Dist) :=
  res ← fetch (REGISTRY_URL cfg +:+ "/" +:+ pkg);
  data ← res_json res;
  pkgVersion ← (if decide (version = "latest") then latest_tag data
                else Ret (Some version));
  d ← lookup_dist data pkgVersion;
  Ret (pkgVersion, d).

(** Line 77. *)
Definition cache_path (pkg : string) (pkgVersion : JsStr) : string :=
  path_join host (CACHE_DIR cfg) (pkg +:+ "-" +:+ to_str pkgVersion +:+ ".tgz").

(** Line 99 and line 106. *)
Definition manifest_key (pkg : string) (version : JsStr) : string :=
  pkg +:+ "@" +:+ to_str version.

(** [tarball.body.pipe(writeStream)]: each chunk is written at the
    offset the stream has reached. *)
Fixpoint pipe (p : string) (pos : nat) (chunks : list string) : Prog unit :=
  match chunks with
  | [] => Ret tt
  | chunk :: rest =>
      await (StreamWrite p pos chunk);;
      pipe p (pos + String.length chunk) rest
  end.

(** Lines 81-88.  The promise is resolved by
    [logger.info(...) && resolve()], rejected when the stream fails to
    open. *)
Definition download (tarballUrl : JsStr) (cachePath : string) : Prog unit :=
  tarball ← fetch_js tarballUrl;
  await (OpenWrite cachePath);;
  pipe cachePath 0 (body tarball);;
  if logger_info host then Ret tt else Never.

(** Lines 78-89. *)
Definition ensure_file (tarballUrl : JsStr) (cachePath : string) : Prog unit :=
  await (Mkdir (CACHE_DIR cfg));;
  present ← exists_at cachePath;
  if negb present then download tarballUrl cachePath else Ret tt.

(** Lines 91-101. *)
Definition verify_and_register (pkg : string) (pkgVersion : JsStr)
    (cachePath : string) (integrity : JsStr) : Prog string :=
  content ← await (ReadFile cachePath);
  if decide (Some (digest_of content) ≠ integrity) then
    evict cachePath;;
    Throw (Error ("Integrity check failed for " +:+ manifest_key pkg pkgVersion))
  else
    manifest ← loadManifest;
    saveManifest (<[manifest_key pkg pkgVersion :=
                      {| me_path := Some cachePath; me_integrity := integrity |}]> manifest);;
    Ret cachePath.

(** [cachePackage] (lines 70-102); a missing [version] is ["latest"]. *)
Definition cachePackage (pkg : string) (version : JsStr) : Prog string :=
  '(pkgVersion, d) ← resolve_dist pkg (default "latest" version);
  let cachePath := cache_path pkg pkgVersion in
  ensure_file (tarball d) cachePath;;
  verify_and_register pkg pkgVersion cachePath (integrity d).

(** [getCachedPackage] (lines 104-120); [None] is [null]. *)
Definition getCachedPackage (pkg : string) (version : JsStr) : Prog (option string) :=
  manifest ← loadManifest;
  let key := manifest_key pkg version in
  match manifest !! key with
  | Some entry =>
      match me_path entry with
      | None => Throw TypeError
      | Some cachePath =>
          content ← await (ReadFile cachePath);
          if decide (Some (digest_of content) ≠ me_integrity entry) then
            evict cachePath;;
            saveManifest (delete key manifest);;
            Ret None
          else Ret (Some cachePath)
      end
  | None => Ret None
  end.

(** Lines 149-150 of [installPackages]: resolve, then
    [getCachedPackage(pkg, version) || cachePackage(pkg, version)]. *)
Definition cached_or_fetched (pkg : string) (version : JsStr) : Prog string :=
  cached ← getCachedPackage pkg version;
  match cached with
  | Some cachePath =>
      if truthy cachePath then Ret cachePath else cachePackage pkg version
  | None => cachePackage pkg version
  end.

Definition acquire (pkg : string) (force : bool) : Prog string :=
  version ← getPackageVersion pkg force;
  cached_or_fetched pkg version.

(** Lines 152 and 160. *)
Definition flags (options : Options) : string :=
  (if opt_global options then "-g" else EmptyString) +:+ " " +:+
  (if opt_force options then "--force" else EmptyString) +:+ " " +:+
  (if opt_legacyPeerDeps options then "--legacy-peer-deps" else EmptyString).

(** One task of the [Promise.all] of lines 148-155. *)
Definition install_task (options : Options) (pkg : string) : Prog string :=
  cachePath ← acquire pkg (opt_force options);
  execPromise ("add " +:+ dquote +:+ cachePath +:+ dquote +:+ " " +:+ flags options);;
  Ret pkg.

(** [ensurePackageJson] (lines 122-136). *)
Definition ensurePackageJson : Prog unit :=
  let pkgJsonPath := path_join host (cwd cfg) "package.json" in
  present ← exists_at pkgJsonPath;
  if negb present then
    await (WriteFile pkgJsonPath (default_package_json host (path_basename host (cwd cfg))))
  else Ret tt.
End Program.

(** ** Tasks interleaved at their awaits *)

Definition is_thrown {A} (p : Prog A) : bool :=
  match p with Throw _ => true | _ => false end.

Definition returned_value {A} (p : Prog A) : option A :=
  match p with Ret a => Some a | _ => None end.

(** How [Promise.all] over the tasks is settled: rejected with the error
    of a task that threw, fulfilled when all tasks returned, pending
    otherwise. *)
Definition promise_all {A} (pool : list (Prog A)) : Outcome (list A) :=
  match List.find is_thrown pool with
  | Some (Throw e) => Thrown e
  | _ =>
      match mapM returned_value pool with
      | Some results => Returned results
      | None => Pending
      end
  end.

(** How a command ends: it runs to its end, it is stopped by
    [process.exit(code)] in the [catch] that logged [e], or its promise is
    still not settled when the schedule is used up. *)
Inductive ProcessOutcome : Type :=
| Completed
| Exited (code : nat) (e : JsError)
| Unsettled.

Section Pool.
Context (host : Host) (env : Env).

(** A task runs on, without yielding, through its operations on the
    in-memory [Map], up to the next operation it has to wait for. *)
Fixpoint settle {A} (p : Prog A) (w : World) : Prog A * World :=
  match p with
  | Do op k =>
      if is_sync op
      then let '(r, w') := perform host env op w in settle (k r) w'
      else (Do op k, w)
  | other => (other, w)
  end.

(** [list.map(async ...)]: the tasks are started in order. *)
Fixpoint start_all {A} (tasks : list (Prog A)) (w : World) : list (Prog A) * World :=
  match tasks with
  | [] => ([], w)
  | p :: rest =>
      let '(p', w1) := settle p w in
      let '(rest', w2) := start_all rest w1 in
      (p' :: rest', w2)
  end.

(** The operation task [i] waits for completes, and the task runs on to
    its next await. *)
Definition pool_step {A} (i : nat) (pool : list (Prog A)) (w : World)
    : list (Prog A) * World :=
  match pool !! i with
  | Some (Do op k) =>
      let '(r, w1) := perform host env op w in
      let '(p', w2) := settle (k r) w1 in
      (<[i := p']> pool, w2)
  | _ => (pool, w)
  end.

(** The tasks advance in the order of the schedule; once a task has
    thrown, the [catch] of [installPackages] ends the process. *)
Fixpoint run_pool {A} (sched : list nat) (pool : list (Prog A)) (w : World)
    : list (Prog A) * World :=
  match sched with
  | [] => (pool, w)
  | i :: sched' =>
      if existsb is_thrown pool then (pool, w)
      else let '(pool', w') := pool_step i pool w in run_pool sched' pool' w'
  end.

Context (cfg : Config).

(** [installPackages] (lines 138-168), its tasks interleaved by
    [sched]. *)
Definition installPackages (packages : list string) (options : Options)
    (sched : list nat) (w : World) : ProcessOutcome * World :=
  match sanitize_all packages with
  | inl e => (Exited 1 e, w)
  | inr safePackages =>
      match run host env (if opt_global options then Ret tt
                          else ensurePackageJson host cfg) w with
      | (Thrown e, w1) => (Exited 1 e, w1)
      | (Pending, w1) => (Unsettled, w1)
      | (Returned _, w1) =>
          let '(pool0, w2) :=
            start_all (map (install_task host cfg options) safePackages) w1 in
          let '(pool, w3) := run_pool sched pool0 w2 in
          match promise_all pool with
          | Thrown e => (Exited 1 e, w3)
          | Pending => (Unsettled, w3)
          | Returned results =>
              let cached := filter (fun pkg => truthy pkg = true) results in
              let uncached := filter (fun pkg => pkg ∉ cached) safePackages in
              match uncached with
              | [] => (Completed, w3)
              | _ :: _ =>
                  match run host env
                          (execPromise cfg ("add " +:+ join " " uncached +:+ " "
                                            +:+ flags options)) w3 with
                  | (Thrown e, w4) => (Exited 1 e, w4)
                  | (Pending, w4) => (Unsettled, w4)
                  | (Returned _, w4) => (Completed, w4)
                  end
              end
          end
      end
  end.
End Pool.


(** What a reader of the manifest document gets (lines 98, 105). *)
Definition manifest_of (host : Host) (cfg : Config) (w : World) : Manifest :=
  if bool_decide (MANIFEST_PATH host cfg ∈ dirs w) then ∅
  else match files w !! MANIFEST_PATH host cfg with
       | Some text => default ∅ (JSON_parse host text)
       | None => ∅
       end.

(** [JSON.parse] gives back what [JSON.stringify] was given. *)
Definition json_roundtrip (host : Host) : Prop :=
  ∀ m : Manifest, JSON_parse host (JSON_stringify host m) = Some m.

(** The events of [w'] that were not yet in [w]. *)
Definition new_events (w w' : World) : list Event :=
  drop (length (trace w)) (trace w').

(** ** A small host and environment to run the program on *)

Module Demo.

(** A stand-in for the digest: the sum of the bytes, in decimal. *)
Fixpoint checksum (s : string) : nat :=
  match s with
  | EmptyString => 0
  | String c s' => nat_of_ascii c + checksum s'
  end.

Definition digest (s : string) : string := pretty (checksum s).

(** A stand-in for the JSON text of a manifest: every character of a
    string is preceded by [c], a string ends with [.]; an absent field
    is [n], a present one [s]; an entry starts with [e], the document
    ends with [$]. *)
Fixpoint enc_str (s : string) (rest : string) : string :=
  match s with
  | EmptyString => String "." rest
  | String c s' => String "c" (String c (enc_str s' rest))
  end.

Definition enc_opt (o : JsStr) (rest : string) : string :=
  match o with
  | None => String "n" rest
  | Some s => String "s" (enc_str s rest)
  end.

Fixpoint enc_list (l : list (string * ManifestEntry)) : string :=
  match l with
  | [] => "$"
  | (key, e) :: l' =>
      String "e" (enc_str key (enc_opt (me_path e) (enc_opt (me_integrity e) (enc_list l'))))
  end.

Fixpoint dec_str (t : string) : option (string * string) :=
  match t with
  | String a rest =>
      if Ascii.eqb a "." then Some (EmptyString, rest)
      else if Ascii.eqb a "c" then
        match rest with
        | String c rest' =>
            match dec_str rest' with
            | Some (s, r) => Some (String c s, r)
            | None => None
            end
        | EmptyString => None
        end
      else None
  | EmptyString => None
  end.

Definition dec_opt (t : string) : option (JsStr * string) :=
  match t with
  | String a rest =>
      if Ascii.eqb a "n" then Some (None, rest)
      else if Ascii.eqb a "s" then
        match dec_str rest with
        | Some (s, r) => Some (Some s, r)
        | None => None
        end
      else None
  | EmptyString => None
  end.

Fixpoint dec_list (fuel : nat) (t : string) : option (list (string * ManifestEntry)) :=
  match fuel with
  | O => None
  | S fuel' =>
      match t with
      | String a rest =>
          if Ascii.eqb a "$" then
            match rest with EmptyString => Some [] | String _ _ => None end
          else if Ascii.eqb a "e" then
            match dec_str rest with
            | Some (key, r1) =>
                match dec_opt r1 with
                | Some (p, r2) =>
                    match dec_opt r2 with
                    | Some (i, r3) =>
                        match dec_list fuel' r3 with
                        | Some l => Some ((key, {| me_path := p; me_integrity := i |}) :: l)
                        | None => None
                        end
                    | None => None
                    end
                | None => None
                end
            | None => None
            end
          else None
      | EmptyString => None
      end
  end.

Definition stringify (m : Manifest) : string := enc_list (map_to_list m).

Definition parse (t : string) : option Manifest :=
  list_to_map <$> dec_list (S (String.length t)) t.

Fixpoint has_slash (s : string) : bool :=
  match s with
  | EmptyString => false
  | String c s' => Ascii.eqb c "/" || has_slash s'
  end.

(** The part of a path before its last [/]. *)
Fixpoint dirname (s : string) : string :=
  match s with
  | EmptyString => EmptyString
  | String c s' => if has_slash s' then String c (dirname s') else EmptyString
  end.

(** The part of a path after its last [/]. *)
Fixpoint basename (s : string) : string :=
  match s with
  | EmptyString => EmptyString
  | String c s' =>
      if has_slash s' then basename s'
      else if Ascii.eqb c "/" then s' else s
  end.

Definition host (logger_info_truthy : bool) : Host :=
  {| sha512_base64 := digest;
     JSON_stringify := stringify;
     JSON_parse := parse;
     path_join := fun a b => a +:+ "/" +:+ b;
     path_dirname := dirname;
     path_basename := basename;
     default_package_json := fun name => "{ name: " +:+ name +:+ " }";
     logger_info := logger_info_truthy |}.

Definition cfg : Config :=
  {| CACHE_DIR := "/cache";
     REGISTRY_URL := "https://registry.npmjs.org";
     BUN_PATH := "bun";
     cwd := "/proj" |}.

(** The registry has one package, [leftpad], whose latest version
    [1.0.0] is an archive delivered in two chunks. *)
Definition tarball_url : string :=
  "https://registry.npmjs.org/leftpad/-/leftpad-1.0.0.tgz".

Definition tarball_chunks : list string := ["archive "; "bytes"].

Definition tarball_bytes : string := "archive bytes".

Definition leftpad_doc : RegistryDoc :=
  {| dist_tags := Some (Some "1.0.0");
     versions := Some {[ "1.0.0" :=
       {| dist := Some {| tarball := Some tarball_url;
                          integrity := Some ("sha512-" +:+ digest tarball_bytes) |} |} ]} |}.

Definition not_found : Response :=
  {| ok := false; json := Some {| dist_tags := None; versions := None |}; body := [] |}.

Definition serve (_ : list Event) (url : string) : option Response :=
  if decide (url = "https://registry.npmjs.org/leftpad") then
    Some {| ok := true; json := Some leftpad_doc; body := [] |}
  else if decide (url = tarball_url) then
    Some {| ok := true; json := None; body := tarball_chunks |}
  else Some not_found.

Definition env : Env :=
  {| http := serve;
     shell := fun _ _ => {| exec_error := false; exec_stdout := "done";
                            exec_stderr := EmptyString |} |}.

(** The same outside, but the archive is altered on the way. *)
Definition tampered : Env :=
  {| http := fun _ url =>
       if decide (url = tarball_url)
       then Some {| ok := true; json := None; body := ["archive "; "bytez"] |}
       else serve [] url;
     shell := shell env |}.

(** A registry whose document for [leftpad] lists version [1.0.0] without
    its [dist]. *)
Definition no_dist : Env :=
  {| http := fun _ url =>
       if decide (url = "https://registry.npmjs.org/leftpad")
       then Some {| ok := true;
                    json := Some {| dist_tags := Some (Some "1.0.0");
                                    versions := Some {[ "1.0.0" := {| dist := None |} ]} |};
                    body := [] |}
       else serve [] url;
     shell := shell env |}.

Definition options : Options :=
  {| opt_global := false; opt_force := false; opt_legacyPeerDeps := false |}.

(** A fresh process in a project directory, nothing cached. *)
Definition fresh : World :=
  {| files := ∅; dirs := {[ "/proj" ]}; versionCache := ∅; trace := [] |}.

Definition artifact_path : string := "/cache/leftpad-1.0.0.tgz".
Definition manifest_path : string := "/cache/cache-manifest.json".

Definition leftpad_entry : ManifestEntry :=
  {| me_path := Some artifact_path;
     me_integrity := Some ("sha512-" +:+ digest tarball_bytes) |}.

(** A process that has resolved [leftpad] and finds it cached. *)
Definition cached : World :=
  {| files := {[ artifact_path := tarball_bytes;
                 manifest_path := stringify {[ "leftpad@1.0.0" := leftpad_entry ]} ]};
     dirs := {[ "/proj"; "/cache" ]};
     versionCache := {[ "leftpad" := Some "1.0.0" ]};
     trace := [] |}.

(** A cache directory with an altered archive and no manifest. *)
Definition leftover : World :=
  {| files := {[ artifact_path := "archive" ]};
     dirs := {[ "/proj"; "/cache" ]};
     versionCache := ∅;
     trace := [] |}.

(** A manifest whose file is gone. *)
Definition file_missing : World :=
  {| files := {[ manifest_path := stringify {[ "leftpad@1.0.0" := leftpad_entry ]} ]};
     dirs := {[ "/proj"; "/cache" ]};
     versionCache := {[ "leftpad" := Some "1.0.0" ]};
     trace := [] |}.

(** The same, with the cached file cut short. *)
Definition corrupted : World :=
  set_files (<[ artifact_path := "archive" ]> (files cached)) cached.

End Demo.

(** The characters a package name may contain, in the words of the
    data model: letters, digits, [-], [_], [@] and [/]. *)
Definition name_alphabet : list ascii :=
  String.list_ascii_of_string
    "abcdefghijklmnopqrstuvwxyzABCDEFGHIJKLMNOPQRSTUVWXYZ0123456789-_@/".

(** The files of [w'] are those of [w], except perhaps the one at [p]. *)
Definition same_files_except (p : string) (w w' : World) : Prop :=
  ∀ q, q ≠ p → files w' !! q = files w !! q.

(** What lines 71-75 of [cachePackage] make of the registry's answer. *)
Definition resolved (res : option Response) (version : string) : Outcome (JsStr * Dist) :=
  match res with
  | None => Thrown FetchError
  | Some r =>
      match json r with
      | None => Thrown SyntaxError
      | Some data =>
          match (if decide (version = "latest") then dist_tags data
                 else Some (Some version)) with
          | None => Thrown TypeError
          | Some pkgVersion =>
              match versions data with
              | None => Thrown TypeError
              | Some vs =>
                  match vs !! to_str pkgVersion with
                  | None => Thrown TypeError
                  | Some meta =>
                      match dist meta with
                      | None => Thrown TypeError
                      | Some d => Returned (pkgVersion, d)
                      end
                  end
              end
          end
      end
  end.

(** The world after the registration (lines 98-100) that follows the
    reading of the file at [cachePath] in [w]. *)
Definition registered (host : Host) (cfg : Config) (key cachePath : string)
    (integ : JsStr) (w : World) : World :=
  let m := <[key := {| me_path := Some cachePath; me_integrity := integ |}]>
             (manifest_of host cfg (log (EvRead cachePath) w)) in
  set_files (<[MANIFEST_PATH host cfg := JSON_stringify host m]> (files w))
    (log (EvWrite (MANIFEST_PATH host cfg) (JSON_stringify host m))
       (log (EvRead (MANIFEST_PATH host cfg)) (log (EvRead cachePath) w))).

(** [fsPromises.writeFile] events. *)
Definition is_write (ev : Event) : bool :=
  match ev with EvWrite _ _ => true | _ => false end.

(** [w'] comes after [w]: its trace extends that of [w] by [evs]. *)
Definition extends (w w' : World) (evs : list Event) : Prop :=
  trace w' = trace w ++ evs.

(** The world after [getCachedPackage] has found the file at [p] not to
    match the entry under [key] (lines 112-114): the file is deleted and
    the manifest is saved without the entry. *)
Definition stale_removed (host : Host) (cfg : Config) (key p : string) (w : World) : World :=
  let text := JSON_stringify host (delete key (manifest_of host cfg w)) in
  set_files (<[MANIFEST_PATH host cfg := text]> (delete p (files w)))
    (log (EvWrite (MANIFEST_PATH host cfg) text)
       (log (EvUnlink p) (log (EvRead p) (log (EvRead (MANIFEST_PATH host cfg)) w)))).

(** The bytes of a body delivered in chunks. *)
Fixpoint concat_chunks (chunks : list string) : string :=
  match chunks with
  | [] => EmptyString
  | chunk :: rest => chunk +:+ concat_chunks rest
  end.

(** The writes by which [pipe] delivers chunks from offset [pos] on. *)
Fixpoint stream_events (p : string) (pos : nat) (chunks : list string) : list Event :=
  match chunks with
  | [] => []
  | chunk :: rest =>
      EvStreamWrite p pos chunk :: stream_events p (pos + String.length chunk) rest
  end.

(** [n] calls of [acquire], each awaited before the next is made. *)
Fixpoint acquire_times (host : Host) (cfg : Config) (pkg : string) (force : bool)
    (n : nat) : Prog (list string) :=
  match n with
  | O => Ret []
  | S n' =>
      p ← acquire host cfg pkg force;
      ps ← acquire_times host cfg pkg force n';
      Ret (p :: ps)
  end.

(** The name is resolved in memory to [v], and the manifest has an entry
    for that version whose file [p] has the recorded digest. *)
Definition cache_ready (host : Host) (cfg : Config) (pkg : string) (v : JsStr)
    (p : string) (w : World) : Prop :=
  versionCache w !! pkg = Some v ∧
  ∃ i c, manifest_of host cfg w !! manifest_key pkg v =
           Some {| me_path := Some p; me_integrity := Some i |} ∧
         (p ∉ dirs w) ∧ files w !! p = Some c ∧ digest_of host c = i.

(** A program that awaits no operation on the in-memory [Map]. *)
Fixpoint async_only {A} (p : Prog A) : Prop :=
  match p with
  | Do op k => is_sync op = false ∧ ∀ r, async_only (k r)
  | _ => True
  end.

(** ** The other commands *)

(** The events an operation leaves in the trace. *)
Definition op_events {X} (op : Op X) : list Event :=
  match op with
  | CacheLookup _ | CacheSet _ _ => []
  | Fetch url => [EvFetch url]
  | Mkdir p => [EvMkdir p]
  | Access p => [EvAccess p]
  | ReadFile p => [EvRead p]
  | WriteFile p data => [EvWrite p data]
  | Unlink p => [EvUnlink p]
  | OpenWrite p => [EvOpen p]
  | StreamWrite p pos chunk => [EvStreamWrite p pos chunk]
  | Exec cmd => [EvExec cmd]
  | Sleep ms => [EvSleep ms]
  end.

(** A program all of whose operations leave only events in [P]. *)
Fixpoint only_events (P : Event → Prop) {A} (p : Prog A) : Prop :=
  match p with
  | Do op k => Forall P (op_events op) ∧ ∀ r, only_events P (k r)
  | _ => True
  end.

(** A program that, when it returns, returns a value in [Q]. *)
Fixpoint returns_in {A} (Q : A → Prop) (p : Prog A) : Prop :=
  match p with
  | Ret a => Q a
  | Do op k => ∀ r, returns_in Q (k r)
  | _ => True
  end.

(** What [j] failed attempts of [execPromise] leave in the trace: each is
    a run followed by a sleep of one second. *)
Definition failed_attempts (cmd : string) (j : nat) : list Event :=
  mjoin (replicate j [EvExec cmd; EvSleep 1000]).

(** A name that [sanitizeInput] lets through, in the words of its
    pattern: not empty, and made of the characters of the alphabet. *)
Definition valid_name (pkg : string) : Prop :=
  pkg ≠ EmptyString ∧ Forall (fun c => c ∈ name_alphabet) (String.list_ascii_of_string pkg).

(** How [uninstallPackages] ends: at the [return] of line 196, at its
    last line, by the [process.exit(1)] of line 211 with the packages
    still found, or by that of its [catch]. *)
Inductive UninstallOutcome : Type :=
| NothingToUninstall
| Uninstalled (existingPackages : list string)
| StillInstalled (stillExisting : list string)
| UninstallFailed (e : JsError).

Section Commands.
Context (host : Host) (cfg : Config).

(** The loops of lines 180-188 and 202-207: the packages that have
    something at their directory under [targetDir], and those that have
    not, in the order asked. *)
Fixpoint partition_installed (targetDir : string) (pkgs : list string)
    : Prog (list string * list string) :=
  match pkgs with
  | [] => Ret ([], [])
  | pkg :: rest =>
      present ← exists_at (path_join host targetDir pkg);
      '(existing, missing) ← partition_installed targetDir rest;
      Ret (if present : bool then (pkg :: existing, missing)
           else (existing, pkg :: missing))
  end.

(** Line 174. *)
Definition target_dir (GLOBAL_DIR : string) (options : Options) : string :=
  if opt_global options then path_join host GLOBAL_DIR "node_modules"
  else path_join host (cwd cfg) "node_modules".

(** [uninstallPackages] (lines 170-219); [GLOBAL_DIR] is the constant of
    line 20. *)
Definition uninstallPackages (GLOBAL_DIR : string) (packages : list string)
    (options : Options) : Prog UninstallOutcome :=
  match sanitize_all packages with
  | inl e => Ret (UninstallFailed e)
  | inr safePackages =>
      let targetDir := target_dir GLOBAL_DIR options in
      let flags := if opt_global options then "-g" else EmptyString in
      try_catch
        ('(existingPackages, missingPackages) ← partition_installed targetDir safePackages;
         match existingPackages with
         | [] => Ret NothingToUninstall
         | _ :: _ =>
             execPromise cfg ("remove " +:+ join " " existingPackages +:+ " " +:+ flags);;
             '(stillExisting, _) ← partition_installed targetDir existingPackages;
             match stillExisting with
             | [] => Ret (Uninstalled existingPackages)
             | _ :: _ => Ret (StillInstalled stillExisting)
             end
         end)
        (fun e => Ret (UninstallFailed e))
  end.

(** [updatePackages] (lines 288-303). *)
Definition updatePackages (packages : list string) (options : Options)
    : Prog ProcessOutcome :=
  match (match packages with
         | [] => inr []
         | _ :: _ => sanitize_all packages
         end) with
  | inl e => Ret (Exited 1 e)
  | inr safePackages =>
      try_catch
        (match safePackages with
         | _ :: _ => execPromise cfg ("add " +:+ join " " safePackages +:+ " " +:+ flags options)
         | [] => execPromise cfg ("install " +:+ flags options)
         end;;
         Ret Completed)
        (fun e => Ret (Exited 1 e))
  end.

(** [fsPromises.readdir(p)]: the names of what is directly in the
    directory [p].  (The order in which a directory is listed is the
    system's; here it is that of [elements].  Where [p] is not a
    directory the listing fails: with ENOENT when nothing is at [p]; the
    code reported for a file at [p] is not told apart from it.) *)
Definition readdir (p : string) (w : World) : JsError + list string :=
  if bool_decide (p ∈ dirs w) then
    inr (path_basename host <$>
           filter (fun q => path_dirname host q = p ∧ q ≠ p)
             (elements (dom (files w) ∪ dirs w)))
  else inl (FsError ENOENT p).

(** [Object.values(manifest).some(entry => entry.path === filePath)] *)
Definition registered_path (manifest : Manifest) (filePath : string) : bool :=
  existsb (fun entry => bool_decide (me_path entry = Some filePath))
    (snd <$> map_to_list manifest).

(** The loop of lines 310-316. *)
Fixpoint clean_files (manifest : Manifest) (names : list string) : Prog unit :=
  match names with
  | [] => Ret tt
  | file :: rest =>
      let filePath := path_join host (CACHE_DIR cfg) file in
      (if negb (registered_path manifest filePath) then await (Unlink filePath)
       else Ret tt);;
      clean_files manifest rest
  end.
End Commands.

(** [cleanCache] (lines 305-322).  It runs alone; the listing of the
    directory is read off the world between the load of the manifest and
    the loop. *)
Definition cleanCache (host : Host) (env : Env) (cfg : Config) (w : World)
    : ProcessOutcome * World :=
  match run host env (loadManifest host cfg) w with
  | (Returned manifest, w1) =>
      match readdir host (CACHE_DIR cfg) w1 with
      | inl e => (Exited 1 e, w1)
      | inr names =>
          match run host env (clean_files host cfg manifest names) w1 with
          | (Returned _, w2) => (Completed, w2)
          | (Thrown e, w2) => (Exited 1 e, w2)
          | (Pending, w2) => (Unsettled, w2)
          end
      end
  | (Thrown e, w1) => (Exited 1 e, w1)
  | (Pending, w1) => (Unsettled, w1)
  end.

(** Something, a file or a directory, is at the directory of [pkg] under
    [targetDir]: what the [access] of lines 182 and 204 tells. *)
Definition installed_at (host : Host) (targetDir : string) (w : World) (pkg : string) : Prop :=
  path_join host targetDir pkg ∈ dirs w ∨ is_Some (files w !! path_join host targetDir pkg).

#[global] Instance installed_at_dec host targetDir w pkg :
  Decision (installed_at host targetDir w pkg).
Proof. unfold installed_at. apply _. Defined.

(** The world with more operations in its trace, and nothing else
    changed. *)
Definition logged (evs : list Event) (w : World) : World :=
  {| files := files w; dirs := dirs w; versionCache := versionCache w;
     trace := trace w ++ evs |}.

(** The number of operations a program goes through when it runs alone
    from [w]. *)
Fixpoint awaits (host : Host) (env : Env) {A} (p : Prog A) (w : World) : nat :=
  match p with
  | Do op k => let '(r, w') := perform host env op w in S (awaits host env (k r) w')
  | _ => 0
  end.

(** The program a task has become when it has run to its end. *)
Definition settled_as {A} (out : Outcome A) : Prog A :=
  match out with
  | Returned a => Ret a
  | Thrown e => Throw e
  | Pending => Never
  end.

(** The form of the operations of an installation of [packages]: the
    only directory made is the cache directory; the only files written
    whole are the manifest and the [package.json] of the working
    directory; a stream is opened and written at the path of line 77,
    [path.join(CACHE_DIR, pkg-v.tgz)], for a package asked for and some
    version string [v]; a command is the [add] of line 153 for some path,
    [<bun> add "<path>" <flags>]; a sleep lasts a second.  The version
    string comes from the registry and the path of the command from the
    manifest or from line 77, both as they are: nothing here says where
    such a path leads or what a shell makes of such a command.  Requests,
    reads, checks and deletions are not bounded. *)
Definition install_event (host : Host) (cfg : Config) (packages : list string)
    (options : Options) (ev : Event) : Prop :=
  match ev with
  | EvMkdir p => p = CACHE_DIR cfg
  | EvWrite p _ =>
      p = MANIFEST_PATH host cfg ∨ p = path_join host (cwd cfg) "package.json"
  | EvOpen p | EvStreamWrite p _ _ =>
      ∃ pkg v, pkg ∈ packages ∧ p = cache_path host cfg pkg v
  | EvExec cmd =>
      ∃ p, cmd = BUN_PATH cfg +:+ " " +:+
                 ("add " +:+ dquote +:+ p +:+ dquote +:+ " " +:+ flags options)
  | EvSleep ms => ms = 1000
  | EvFetch _ | EvRead _ | EvAccess _ | EvUnlink _ => True
  end.

Definition is_exec (ev : Event) : bool :=
  match ev with EvExec _ => true | _ => false end.

(** [w'] comes after [w] by operations in [P] only. *)
Definition reaches (P : Event → Prop) (w w' : World) : Prop :=
  ∃ evs, extends w w' evs ∧ Forall P evs.

(** ** Two packages whose archives are on disk *)

Module Pair.

Definition archive (pkg : string) : string := pkg +:+ " bytes".

Definition doc (pkg : string) : RegistryDoc :=
  {| dist_tags := Some (Some "1.0.0");
     versions := Some {[ "1.0.0" :=
       {| dist := Some {| tarball := Some ("https://registry.npmjs.org/" +:+ pkg +:+
                                            "/-/" +:+ pkg +:+ "-1.0.0.tgz");
                          integrity := Some ("sha512-" +:+ Demo.digest (archive pkg)) |} |} ]} |}.

(** The registry has the packages [aa] and [bb]. *)
Definition serve (_ : list Event) (url : string) : option Response :=
  if decide (url = "https://registry.npmjs.org/aa") then
    Some {| ok := true; json := Some (doc "aa"); body := [] |}
  else if decide (url = "https://registry.npmjs.org/bb") then
    Some {| ok := true; json := Some (doc "bb"); body := [] |}
  else Some Demo.not_found.

Definition env : Env := {| http := serve; shell := shell Demo.env |}.

Definition entry (pkg : string) : ManifestEntry :=
  {| me_path := Some ("/cache/" +:+ pkg +:+ "-1.0.0.tgz");
     me_integrity := Some ("sha512-" +:+ Demo.digest (archive pkg)) |}.

(** A process that starts with both archives in the cache directory and
    no manifest: what two downloads that were not reported finished
    leave behind. *)
Definition on_disk : World :=
  {| files := {[ "/cache/aa-1.0.0.tgz" := archive "aa";
                 "/cache/bb-1.0.0.tgz" := archive "bb" ]};
     dirs := {[ "/proj"; "/cache" ]};
     versionCache := ∅;
     trace := [] |}.

(** A version string that closes the quotes of line 153. *)
Definition quoting_version : string :=
  "1" +:+ dquote +:+ "; echo pwned; " +:+ dquote.

(** A registry whose latest [aa] is that version, and a process that
    starts with an archive of the recorded digest at the path of line 77
    for it. *)
Definition quoting : Env :=
  {| http := fun _ url =>
       if decide (url = "https://registry.npmjs.org/aa") then
         Some {| ok := true;
                 json := Some {| dist_tags := Some (Some quoting_version);
                                 versions := Some {[ quoting_version :=
                                   {| dist := Some
                                        {| tarball := Some "https://registry.npmjs.org/aa.tgz";
                                           integrity :=
                                             Some ("sha512-" +:+ Demo.digest (archive "aa")) |} |} ]} |};
                 body := [] |}
       else Some Demo.not_found;
     shell := shell Demo.env |}.

Definition quoting_on_disk : World :=
  {| files := {[ "/cache/aa-" +:+ quoting_version +:+ ".tgz" := archive "aa" ]};
     dirs := {[ "/proj"; "/cache" ]};
     versionCache := ∅;
     trace := [] |}.

(** The two tasks advance in turn. *)
Definition lock_step : list nat := mjoin (replicate 12 [0; 1]).

(** The first task runs to its end before the second advances. *)
Definition one_by_one : list nat := replicate 12 0 ++ replicate 12 1.

End Pair.

(** * Properties *)

Section RunLaws.
Context (host : Host) (env : Env).
Lemma run_bind {A B} (p : Prog A) (f : A → Prog B) w :
  run host env (p ≫= f) w =
  match run host env p w with
  | (Returned a, w') => run host env (f a) w'
  | (Thrown e, w') => (Thrown e, w')
  | (Pending, w') => (Pending, w')
  end.
Proof.
  unfold mbind, Prog_bind.
  revert w. induction p as [a|e| |X op k IH]; intros w; simpl; try done.
  destruct (perform host env op w) as [r w']. apply IH.
Qed.

Lemma run_try_catch {A} (p : Prog A) (h : JsError → Prog A) w :
  run host env (try_catch p h) w =
  match run host env p w with
  | (Thrown e, w') => run host env (h e) w'
  | other => other
  end.
Proof.
  revert w. induction p as [a|e| |X op k IH]; intros w; simpl; try done.
  destruct (perform host env op w) as [r w']. apply IH.
Qed.

Lemma run_await {X} (op : Op X) w :
  run host env (await op) w =
  (match (perform host env op w).1 with
   | inl e => Thrown e
   | inr x => Returned x
   end, (perform host env op w).2).
Proof.
  unfold await. simpl. by destruct (perform host env op w) as [[e|x] w'].
Qed.

Lemma run_do {A X} (op : Op X) (k : JsError + X → Prog A) w :
  run host env (Do op k) w =
    run host env (k (perform host env op w).1) (perform host env op w).2.
Proof. simpl. by destruct (perform host env op w). Qed.

Lemma run_ret {A} (a : A) w : run host env (Ret a) w = (Returned a, w).
Proof. reflexivity. Qed.

Lemma run_throw {A} e w : run host env (@Throw A e) w = (Thrown e, w).
Proof. reflexivity. Qed.
End RunLaws.

#[global] Arguments mbind : simpl never.
#[global] Arguments run : simpl never.


(** ** Running the building blocks *)

Section RunLemmas.
Context (host : Host) (env : Env) (cfg : Config).

Lemma run_loadManifest w :
  run host env (loadManifest host cfg) w =
  (Returned (manifest_of host cfg w), log (EvRead (MANIFEST_PATH host cfg)) w).
Proof.
  unfold loadManifest, manifest_of. rewrite run_try_catch, run_bind, run_await.
  simpl. case_bool_decide; simpl; [done|].
  destruct (files w !! MANIFEST_PATH host cfg) as [text|]; simpl; [|done].
  by destruct (JSON_parse host text).
Qed.

Lemma run_exists_at p w :
  run host env (exists_at p) w =
  (Returned (bool_decide (p ∈ dirs w) || bool_decide (is_Some (files w !! p))),
   log (EvAccess p) w).
Proof.
  unfold exists_at. rewrite run_try_catch, run_bind, run_await. simpl.
  by destruct (bool_decide (p ∈ dirs w) || bool_decide (is_Some (files w !! p))).
Qed.

Lemma run_evict_present p c w :
  p ∉ dirs w → files w !! p = Some c →
  run host env (evict p) w =
  (Returned tt, set_files (delete p (files w)) (log (EvUnlink p) w)).
Proof.
  intros Hd Hf. unfold evict. rewrite run_await. simpl.
  rewrite bool_decide_eq_false_2 by done. by rewrite Hf.
Qed.

Lemma run_evict_absent p w :
  files w !! p = None →
  ∃ code, run host env (evict p) w = (Thrown (FsError code p), log (EvUnlink p) w).
Proof.
  intros Hf. unfold evict. rewrite run_await. simpl.
  case_bool_decide; [by exists EISDIR|]. rewrite Hf. by exists ENOENT.
Qed.

Lemma run_saveManifest_ok m w w' :
  run host env (saveManifest host cfg m) w = (Returned tt, w') →
  w' = set_files (<[MANIFEST_PATH host cfg := JSON_stringify host m]> (files w))
         (log (EvWrite (MANIFEST_PATH host cfg) (JSON_stringify host m)) w).
Proof.
  unfold saveManifest. rewrite run_await. simpl. unfold fs_write.
  case_bool_decide; simpl; [done|].
  destruct (writable host (MANIFEST_PATH host cfg) _); simpl; [|done].
  by intros [= <-].
Qed.
End RunLemmas.

(** ** The demonstration host is a host *)

Module DemoFacts.
Import Demo.

Lemma dec_enc_str s rest : dec_str (enc_str s rest) = Some (s, rest).
Proof. induction s as [|c s IH]; simpl; [done|]. by rewrite IH. Qed.

Lemma dec_enc_opt o rest : dec_opt (enc_opt o rest) = Some (o, rest).
Proof. destruct o as [s|]; simpl; [|done]. by rewrite dec_enc_str. Qed.

Lemma enc_str_length s rest : String.length rest ≤ String.length (enc_str s rest).
Proof. induction s as [|c s IH]; simpl; lia. Qed.

Lemma enc_opt_length o rest : String.length rest ≤ String.length (enc_opt o rest).
Proof.
  destruct o as [s|]; simpl; [|lia].
  pose proof (enc_str_length s rest). lia.
Qed.

Lemma enc_list_length l : length l < String.length (enc_list l).
Proof.
  induction l as [|[key e] l IH]; simpl; [lia|].
  pose proof (enc_str_length key
    (enc_opt (me_path e) (enc_opt (me_integrity e) (enc_list l)))).
  pose proof (enc_opt_length (me_path e) (enc_opt (me_integrity e) (enc_list l))).
  pose proof (enc_opt_length (me_integrity e) (enc_list l)).
  lia.
Qed.

Lemma dec_enc_list l fuel :
  length l < fuel → dec_list fuel (enc_list l) = Some l.
Proof.
  revert fuel. induction l as [|[key e] l IH]; intros [|fuel] Hlt;
    simpl in *; try lia; [done|].
  rewrite dec_enc_str, !dec_enc_opt, IH by lia. by destruct e.
Qed.

Lemma roundtrip b : json_roundtrip (host b).
Proof.
  intros m. simpl. unfold parse, stringify.
  rewrite dec_enc_list by (pose proof (enc_list_length (map_to_list m)); lia).
  simpl. by rewrite list_to_map_to_list.
Qed.
End DemoFacts.

(** ** The manifest ledger *)

(** C7. Loading the manifest never throws, and gives the empty mapping
    when the document is absent (or is a directory) or does not parse;
    after an entry is put into a mapping and the mapping is saved, loading
    gives back that mapping, with the entry under its key. *)
Theorem manifest_load_resilient host env cfg :
  (∀ w, (files w !! MANIFEST_PATH host cfg = None ∨
         ∃ text, files w !! MANIFEST_PATH host cfg = Some text ∧
                 JSON_parse host text = None) →
        run host env (loadManifest host cfg) w =
        (Returned ∅, log (EvRead (MANIFEST_PATH host cfg)) w)) ∧
  (∀ w, ∃ m, run host env (loadManifest host cfg) w =
             (Returned m, log (EvRead (MANIFEST_PATH host cfg)) w)) ∧
  (json_roundtrip host →
   ∀ w (m : Manifest) key entry w1,
     run host env (saveManifest host cfg (<[key := entry]> m)) w = (Returned tt, w1) →
     ∃ m', run host env (loadManifest host cfg) w1 =
           (Returned m', log (EvRead (MANIFEST_PATH host cfg)) w1) ∧
           m' = <[key := entry]> m ∧ m' !! key = Some entry).
Proof.
  split; [|split].
  - intros w H. rewrite run_loadManifest. f_equal. f_equal.
    unfold manifest_of. case_bool_decide; [done|].
    destruct H as [->|(text & -> & Hp)]; [done|]. by rewrite Hp.
  - intros w. eexists. apply run_loadManifest.
  - intros Hrt w m key entry w1 Hsave.
    exists (<[key := entry]> m). rewrite run_loadManifest.
    split; [|split; [done|apply lookup_insert_eq]].
    f_equal. f_equal.
    assert (MANIFEST_PATH host cfg ∉ dirs w) as Hd.
    { revert Hsave. unfold saveManifest. rewrite run_await. simpl. unfold fs_write.
      simpl. by case_bool_decide. }
    apply run_saveManifest_ok in Hsave as ->.
    unfold manifest_of. simpl. rewrite bool_decide_eq_false_2 by done.
    rewrite lookup_insert_eq. simpl. by rewrite Hrt.
Qed.

Lemma manifest_load_resilient_witness :
  run (Demo.host false) Demo.env (loadManifest (Demo.host false) Demo.cfg) Demo.fresh =
    (Returned ∅, log (EvRead Demo.manifest_path) Demo.fresh) ∧
  ∃ m', run (Demo.host false) Demo.env (loadManifest (Demo.host false) Demo.cfg)
          (set_files (<[Demo.manifest_path :=
                          Demo.stringify (<["leftpad@1.0.0" := Demo.leftpad_entry]> ∅)]>
                        (files Demo.cached))
             (log (EvWrite Demo.manifest_path
                     (Demo.stringify (<["leftpad@1.0.0" := Demo.leftpad_entry]> ∅)))
                Demo.cached)) =
        (Returned m', log (EvRead Demo.manifest_path)
           (set_files (<[Demo.manifest_path :=
                          Demo.stringify (<["leftpad@1.0.0" := Demo.leftpad_entry]> ∅)]>
                        (files Demo.cached))
             (log (EvWrite Demo.manifest_path
                     (Demo.stringify (<["leftpad@1.0.0" := Demo.leftpad_entry]> ∅)))
                Demo.cached))) ∧
        m' = <["leftpad@1.0.0" := Demo.leftpad_entry]> ∅ ∧
        m' !! "leftpad@1.0.0" = Some Demo.leftpad_entry.
Proof.
  destruct (manifest_load_resilient (Demo.host false) Demo.env Demo.cfg)
    as (Habsent & _ & Hsaved).
  split.
  - apply Habsent. left. reflexivity.
  - apply (Hsaved (DemoFacts.roundtrip false) Demo.cached ∅ "leftpad@1.0.0"
             Demo.leftpad_entry).
    vm_compute. reflexivity.
Defined.


(** ** Eviction *)

Lemma run_evict_missing host env p w :
  p ∉ dirs w → files w !! p = None →
  run host env (evict p) w = (Thrown (FsError ENOENT p), log (EvUnlink p) w).
Proof.
  intros Hd Hf. unfold evict. rewrite run_await. simpl.
  rewrite bool_decide_eq_false_2 by done. by rewrite Hf.
Qed.

(** C9, as stated, does not hold: evicting a path at which no file is
    left is an error, and so is the second of two evictions. *)
Lemma evict_absent_is_error :
  (run (Demo.host false) Demo.env (evict Demo.artifact_path) Demo.fresh).1 =
    Thrown (FsError ENOENT Demo.artifact_path) ∧
  (run (Demo.host false) Demo.env (evict Demo.artifact_path) Demo.cached).1 =
    Returned tt ∧
  (run (Demo.host false) Demo.env (evict Demo.artifact_path)
     (run (Demo.host false) Demo.env (evict Demo.artifact_path) Demo.cached).2).1 =
    Thrown (FsError ENOENT Demo.artifact_path).
Proof. repeat split; vm_compute; reflexivity. Qed.

(** C9, amended. Evicting a path deletes the file that is there; where no
    file is there it fails with ENOENT and leaves the files as they are,
    so that the second of two evictions fails. *)
Theorem evict_deletes_once host env p w :
  p ∉ dirs w →
  match files w !! p with
  | Some _ =>
      run host env (evict p) w =
        (Returned tt, set_files (delete p (files w)) (log (EvUnlink p) w)) ∧
      run host env (evict p) (set_files (delete p (files w)) (log (EvUnlink p) w)) =
        (Thrown (FsError ENOENT p),
         log (EvUnlink p) (set_files (delete p (files w)) (log (EvUnlink p) w)))
  | None =>
      run host env (evict p) w = (Thrown (FsError ENOENT p), log (EvUnlink p) w)
  end.
Proof.
  intros Hd. destruct (files w !! p) as [c|] eqn:Hf.
  - split; [by eapply run_evict_present|].
    apply run_evict_missing; simpl; [done|]. apply lookup_delete_eq.
  - by apply run_evict_missing.
Qed.

Lemma evict_deletes_once_witness :
  (Demo.artifact_path ∉ dirs Demo.cached) ∧
  run (Demo.host false) Demo.env (evict Demo.artifact_path) Demo.cached =
    (Returned tt,
     set_files (delete Demo.artifact_path (files Demo.cached))
       (log (EvUnlink Demo.artifact_path) Demo.cached)) ∧
  run (Demo.host false) Demo.env (evict Demo.artifact_path)
      (set_files (delete Demo.artifact_path (files Demo.cached))
         (log (EvUnlink Demo.artifact_path) Demo.cached)) =
    (Thrown (FsError ENOENT Demo.artifact_path),
     log (EvUnlink Demo.artifact_path)
       (set_files (delete Demo.artifact_path (files Demo.cached))
          (log (EvUnlink Demo.artifact_path) Demo.cached))).
Proof.
  assert (Demo.artifact_path ∉ dirs Demo.cached) as Hd.
  { apply (bool_decide_unpack _). vm_compute. exact I. }
  split; [exact Hd|].
  exact (evict_deletes_once (Demo.host false) Demo.env Demo.artifact_path Demo.cached Hd).
Defined.

(** ** Input validation *)

Lemma allowed_char_alphabet c : allowed_char c = bool_decide (c ∈ name_alphabet).
Proof. destruct c as [[] [] [] [] [] [] [] []]; vm_compute; reflexivity. Qed.

Lemma regex_test_all_allowed pkg : regex_test pkg = true → all_allowed pkg = true.
Proof. by destruct pkg. Qed.

Lemma all_allowed_chars pkg c :
  all_allowed pkg = true → c ∈ String.list_ascii_of_string pkg → c ∈ name_alphabet.
Proof.
  induction pkg as [|a pkg IH]; simpl; intros Hall Hin.
  - by apply elem_of_nil in Hin.
  - apply andb_prop in Hall as [Ha Hrest].
    apply elem_of_cons in Hin as [->|Hin]; [|by apply IH].
    rewrite allowed_char_alphabet in Ha. by apply bool_decide_eq_true in Ha.
Qed.

Lemma sanitize_all_rejects packages pkg :
  pkg ∈ packages → regex_test pkg = false →
  ∃ bad, bad ∈ packages ∧ regex_test bad = false ∧
         sanitize_all packages = inl (Error ("Invalid package: " +:+ bad)).
Proof.
  induction packages as [|p rest IH]; intros Hin Hbad.
  - by apply elem_of_nil in Hin.
  - simpl. unfold sanitizeInput. destruct (regex_test p) eqn:Hp.
    + apply elem_of_cons in Hin as [->|Hin]; [congruence|].
      destruct (IH Hin Hbad) as (bad & Hb & Hr & ->).
      exists bad. split; [apply elem_of_cons; by right|done].
    + exists p. split; [apply elem_of_cons; by left|done].
Qed.

(** C6. When one of the requested names contains a character outside
    letters, digits, [-], [_], [@] and [/], [installPackages] ends the
    process with status 1 on an "Invalid package" error, and the world is
    as it was: nothing was fetched, read, written or run. *)
Theorem invalid_name_rejected_before_io host env cfg packages options sched w pkg c :
  pkg ∈ packages →
  c ∈ String.list_ascii_of_string pkg →
  c ∉ name_alphabet →
  ∃ bad, bad ∈ packages ∧ regex_test bad = false ∧
    installPackages host env cfg packages options sched w =
      (Exited 1 (Error ("Invalid package: " +:+ bad)), w).
Proof.
  intros Hin Hc Hout.
  assert (regex_test pkg = false) as Hbad.
  { destruct (regex_test pkg) eqn:Ht; [|done].
    exfalso. apply Hout. eapply all_allowed_chars; [|done].
    by apply regex_test_all_allowed. }
  destruct (sanitize_all_rejects packages pkg Hin Hbad) as (bad & Hb & Hr & Hs).
  exists bad. repeat split; [done..|]. unfold installPackages. by rewrite Hs.
Qed.

Lemma invalid_name_rejected_before_io_witness :
  ∃ bad, bad ∈ ["leftpad"; "../evil"] ∧ regex_test bad = false ∧
    installPackages (Demo.host false) Demo.env Demo.cfg ["leftpad"; "../evil"]
      Demo.options [0; 1; 0; 1] Demo.fresh =
      (Exited 1 (Error ("Invalid package: " +:+ bad)), Demo.fresh).
Proof.
  apply (invalid_name_rejected_before_io (Demo.host false) Demo.env Demo.cfg
           ["leftpad"; "../evil"] Demo.options [0; 1; 0; 1] Demo.fresh "../evil" ".").
  - apply (bool_decide_unpack _). vm_compute. exact I.
  - apply (bool_decide_unpack _). vm_compute. exact I.
  - apply (bool_decide_unpack _). vm_compute. exact I.
Defined.

(** ** Cache hits *)

Lemma new_events_app w w' evs : trace w' = trace w ++ evs → new_events w w' = evs.
Proof. intros H. unfold new_events. rewrite H. by rewrite drop_app_length. Qed.

Lemma run_getPackageVersion_cached host env cfg pkg v w :
  versionCache w !! pkg = Some v →
  run host env (getPackageVersion cfg pkg false) w = (Returned v, w).
Proof.
  intros Hc. unfold getPackageVersion. rewrite run_bind, run_await. simpl.
  by rewrite Hc.
Qed.

Lemma run_getCachedPackage_hit host env cfg pkg v p integ c w :
  manifest_of host cfg w !! manifest_key pkg v =
    Some {| me_path := Some p; me_integrity := integ |} →
  p ∉ dirs w → files w !! p = Some c → Some (digest_of host c) = integ →
  run host env (getCachedPackage host cfg pkg v) w =
    (Returned (Some p), log (EvRead p) (log (EvRead (MANIFEST_PATH host cfg)) w)).
Proof.
  intros Hm Hd Hf Hi. unfold getCachedPackage.
  rewrite run_bind, run_loadManifest. rewrite Hm. simpl.
  rewrite run_bind, run_await. simpl.
  rewrite bool_decide_eq_false_2 by done. rewrite Hf. simpl.
  by rewrite decide_False by (intros Hne; by apply Hne).
Qed.

Lemma run_acquire_hit host env cfg w pkg v p :
  cache_ready host cfg pkg v p w → p ≠ EmptyString →
  run host env (acquire host cfg pkg false) w =
    (Returned p, log (EvRead p) (log (EvRead (MANIFEST_PATH host cfg)) w)).
Proof.
  intros (Hc & i & c & Hm & Hd & Hf & Hi) Hp.
  unfold acquire. rewrite run_bind.
  rewrite (run_getPackageVersion_cached _ _ _ _ _ _ Hc).
  unfold cached_or_fetched. rewrite run_bind.
  rewrite (run_getCachedPackage_hit _ _ _ _ _ _ _ _ _ Hm Hd Hf) by (by rewrite Hi).
  unfold truthy. by rewrite decide_False by done.
Qed.

(** ** Fetch and store *)

Lemma same_files_except_refl p w : same_files_except p w w.
Proof. by intros q _. Qed.

Lemma same_files_except_trans p w1 w2 w3 :
  same_files_except p w1 w2 → same_files_except p w2 w3 → same_files_except p w1 w3.
Proof. intros H12 H23 q Hq. rewrite H23, H12; done. Qed.

Lemma run_resolve_dist host env cfg pkg version w :
  run host env (resolve_dist cfg pkg version) w =
    (resolved (http env (trace w) (REGISTRY_URL cfg +:+ "/" +:+ pkg)) version,
     log (EvFetch (REGISTRY_URL cfg +:+ "/" +:+ pkg)) w).
Proof.
  unfold resolve_dist, fetch, resolved. rewrite run_bind, run_await. simpl.
  destruct (http env (trace w) _) as [r|]; [|done].
  rewrite run_bind. unfold res_json. destruct (json r) as [data|]; [|done].
  rewrite run_ret, run_bind. unfold latest_tag.
  destruct (if decide (version = "latest") then dist_tags data else Some (Some version))
    as [pkgVersion|] eqn:Hv.
  - assert (run host env
              (if decide (version = "latest")
               then match dist_tags data with
                    | Some v => Ret v
                    | None => Throw TypeError
                    end
               else Ret (Some version))
              (log (EvFetch (REGISTRY_URL cfg +:+ "/" +:+ pkg)) w) =
            (Returned pkgVersion, log (EvFetch (REGISTRY_URL cfg +:+ "/" +:+ pkg)) w)) as ->.
    { destruct (decide (version = "latest")); [by rewrite Hv|]. by injection Hv as <-. }
    rewrite run_bind. unfold lookup_dist.
    destruct (versions data) as [vs|]; [|done].
    destruct (vs !! to_str pkgVersion) as [meta|]; [|done].
    by destruct (dist meta).
  - destruct (decide (version = "latest")); [|done]. by rewrite Hv.
Qed.

Lemma run_pipe host env p chunks : ∀ pos w,
  ∃ w', run host env (pipe p pos chunks) w = (Returned tt, w') ∧
        same_files_except p w w' ∧ dirs w' = dirs w.
Proof.
  induction chunks as [|chunk rest IH]; intros pos w; simpl.
  - exists w. by split; [|split; [apply same_files_except_refl|]].
  - rewrite run_bind, run_await. simpl.
    destruct (files w !! p) as [c|] eqn:Hf; simpl.
    + destruct (IH (pos + String.length chunk)
                  (set_files (<[p:=write_at c pos chunk]> (files w))
                     (log (EvStreamWrite p pos chunk) w))) as (w' & -> & Hs & Hd).
      exists w'. split; [done|]. split; [|done].
      intros q Hq. rewrite (Hs q Hq). simpl. by rewrite lookup_insert_ne.
    + destruct (IH (pos + String.length chunk) (log (EvStreamWrite p pos chunk) w))
        as (w' & -> & Hs & Hd).
      exists w'. split; [done|]. by split.
Qed.

Lemma fs_write_same_files host p data w r w' :
  fs_write host p data w = (r, w') → same_files_except p w w'.
Proof.
  unfold fs_write. case_bool_decide; [by intros [= _ <-]|].
  destruct (writable host p w); intros [= _ <-]; [|done].
  intros q Hq. simpl. by rewrite lookup_insert_ne.
Qed.

Lemma run_download_same_files host env url p w out w' :
  run host env (download host url p) w = (out, w') → same_files_except p w w'.
Proof.
  unfold download. rewrite run_bind. unfold fetch_js, fetch.
  destruct url as [u|]; [|by intros [= _ <-]].
  rewrite run_await. simpl.
  destruct (http env (trace w) u) as [res|]; [|by intros [= _ <-]].
  rewrite run_bind, run_await. simpl.
  destruct (fs_write host p EmptyString (log (EvOpen p) (log (EvFetch u) w)))
    as [[e|[]] w1] eqn:Hw; simpl.
  - apply fs_write_same_files in Hw. by intros [= _ <-].
  - apply fs_write_same_files in Hw. rewrite run_bind.
    destruct (run_pipe host env p (body res) 0 w1) as (w2 & -> & Hs & _).
    assert (same_files_except p w w2) as Hs2.
    { eapply same_files_except_trans; [|done]. done. }
    destruct (logger_info host); by intros [= _ <-].
Qed.

Lemma run_ensure_file_same_files host env cfg url p w out w' :
  run host env (ensure_file host cfg url p) w = (out, w') → same_files_except p w w'.
Proof.
  unfold ensure_file. rewrite run_bind, run_await.
  assert (same_files_except p w (perform host env (Mkdir (CACHE_DIR cfg)) w).2) as Hm.
  { simpl. case_bool_decide; [done|]. by case_bool_decide. }
  destruct (perform host env (Mkdir (CACHE_DIR cfg)) w) as [[e|[]] w1]; simpl in *.
  - by intros [= _ <-].
  - rewrite run_bind, run_exists_at.
    destruct (bool_decide (p ∈ dirs w1) || bool_decide (is_Some (files w1 !! p))); simpl.
    + rewrite run_ret. by intros [= _ <-].
    + intros Hd. apply run_download_same_files in Hd.
      eapply same_files_except_trans; [done|]. done.
Qed.

Lemma run_verify_mismatch host env cfg pkg pkgVersion cachePath integ c w :
  cachePath ∉ dirs w → files w !! cachePath = Some c →
  Some (digest_of host c) ≠ integ →
  run host env (verify_and_register host cfg pkg pkgVersion cachePath integ) w =
    (Thrown (Error ("Integrity check failed for " +:+ manifest_key pkg pkgVersion)),
     set_files (delete cachePath (files w))
       (log (EvUnlink cachePath) (log (EvRead cachePath) w))).
Proof.
  intros Hd Hf Hne. unfold verify_and_register.
  rewrite run_bind, run_await. simpl.
  rewrite bool_decide_eq_false_2 by done. rewrite Hf. simpl.
  rewrite decide_True by done. rewrite run_bind.
  by rewrite (run_evict_present _ _ _ c) by done.
Qed.

Lemma run_saveManifest_cases host env cfg m w :
  (MANIFEST_PATH host cfg ∉ dirs w) ∧
  run host env (saveManifest host cfg m) w =
    (Returned tt,
     set_files (<[MANIFEST_PATH host cfg := JSON_stringify host m]> (files w))
       (log (EvWrite (MANIFEST_PATH host cfg) (JSON_stringify host m)) w)) ∨
  ∃ e, run host env (saveManifest host cfg m) w =
         (Thrown e, log (EvWrite (MANIFEST_PATH host cfg) (JSON_stringify host m)) w).
Proof.
  unfold saveManifest. rewrite run_await. simpl. unfold fs_write.
  case_bool_decide; simpl; [right; by eexists|].
  destruct (writable host (MANIFEST_PATH host cfg) _); simpl;
    [by left|right; by eexists].
Qed.

Lemma run_verify_cases host env cfg pkg pkgVersion cachePath integ w out w' :
  run host env (verify_and_register host cfg pkg pkgVersion cachePath integ) w = (out, w') →
  match out with
  | Returned p =>
      p = cachePath ∧ (cachePath ∉ dirs w) ∧ (MANIFEST_PATH host cfg ∉ dirs w) ∧
      (∃ c, files w !! cachePath = Some c ∧ Some (digest_of host c) = integ) ∧
      w' = registered host cfg (manifest_key pkg pkgVersion) cachePath integ w
  | _ => same_files_except cachePath w w'
  end.
Proof.
  unfold verify_and_register. rewrite run_bind, run_await. simpl.
  case_bool_decide as Hd; simpl; [by intros [= <- <-]|].
  destruct (files w !! cachePath) as [c|] eqn:Hf; simpl; [|by intros [= <- <-]].
  destruct (decide (Some (digest_of host c) ≠ integ)) as [Hne|Heq].
  - rewrite run_bind, (run_evict_present _ _ _ c) by done.
    rewrite run_throw. intros [= <- <-]. intros q Hq. simpl.
    by rewrite lookup_delete_ne.
  - apply dec_stable in Heq. rewrite run_bind, run_loadManifest, run_bind.
    destruct (run_saveManifest_cases host env cfg
                (<[manifest_key pkg pkgVersion :=
                     {| me_path := Some cachePath; me_integrity := integ |}]>
                   (manifest_of host cfg (log (EvRead cachePath) w)))
                (log (EvRead (MANIFEST_PATH host cfg)) (log (EvRead cachePath) w)))
      as [[Hmd ->]|[e ->]].
    + rewrite run_ret. intros [= <- <-]. repeat split; [done..|]. by exists c.
    + by intros [= <- <-].
Qed.

Lemma run_cachePackage host env cfg pkg version w :
  run host env (cachePackage host cfg pkg version) w =
    match resolved (http env (trace w) (REGISTRY_URL cfg +:+ "/" +:+ pkg))
            (default "latest" version) with
    | Returned (pkgVersion, d) =>
        match run host env
                (ensure_file host cfg (tarball d) (cache_path host cfg pkg pkgVersion))
                (log (EvFetch (REGISTRY_URL cfg +:+ "/" +:+ pkg)) w) with
        | (Returned _, w1) =>
            run host env
              (verify_and_register host cfg pkg pkgVersion
                 (cache_path host cfg pkg pkgVersion) (integrity d)) w1
        | (Thrown e, w1) => (Thrown e, w1)
        | (Pending, w1) => (Pending, w1)
        end
    | Thrown e => (Thrown e, log (EvFetch (REGISTRY_URL cfg +:+ "/" +:+ pkg)) w)
    | Pending => (Pending, log (EvFetch (REGISTRY_URL cfg +:+ "/" +:+ pkg)) w)
    end.
Proof.
  unfold cachePackage. rewrite run_bind, run_resolve_dist.
  destruct (resolved _ _) as [[pkgVersion d]|e|]; [|done..].
  by rewrite run_bind.
Qed.

Lemma cachePackage_outcome host env cfg pkg version w out w' :
  (∀ v, cache_path host cfg pkg v ≠ MANIFEST_PATH host cfg) →
  run host env (cachePackage host cfg pkg version) w = (out, w') →
  match out with
  | Returned p =>
      ∃ pkgVersion d c m0,
        resolved (http env (trace w) (REGISTRY_URL cfg +:+ "/" +:+ pkg))
          (default "latest" version) = Returned (pkgVersion, d) ∧
        p = cache_path host cfg pkg pkgVersion ∧
        files w' !! p = Some c ∧
        Some (digest_of host c) = integrity d ∧
        (p ∉ dirs w') ∧
        (MANIFEST_PATH host cfg ∉ dirs w') ∧
        files w' !! MANIFEST_PATH host cfg =
          Some (JSON_stringify host
                  (<[manifest_key pkg pkgVersion :=
                       {| me_path := Some p; me_integrity := integrity d |}]> m0))
  | _ => files w' !! MANIFEST_PATH host cfg = files w !! MANIFEST_PATH host cfg
  end.
Proof.
  intros Hpaths. rewrite run_cachePackage.
  destruct (resolved _ _) as [[pkgVersion d]|e|] eqn:Hres;
    [|intros [= <- <-]; simpl; done..].
  destruct (run host env (ensure_file _ _ _ _) _) as [[[]|e|] w1] eqn:Hens;
    [|apply run_ensure_file_same_files in Hens; intros [= <- <-];
      rewrite Hens; [done|intros Heq; by apply (Hpaths pkgVersion)]..].
  apply run_ensure_file_same_files in Hens.
  assert (files w1 !! MANIFEST_PATH host cfg = files w !! MANIFEST_PATH host cfg) as Hm.
  { rewrite Hens; [done|]. intros Heq. by apply (Hpaths pkgVersion). }
  intros Hv. apply run_verify_cases in Hv. destruct out as [p|e|].
  + destruct Hv as (-> & Hd & Hmd & (c & Hf & Hi) & ->).
    exists pkgVersion, d, c, (manifest_of host cfg
      (log (EvRead (cache_path host cfg pkg pkgVersion)) w1)).
    repeat split; [|done|done|done|].
    * unfold registered. simpl. rewrite lookup_insert_ne; [done|].
      intros Heq. by apply (Hpaths pkgVersion).
    * unfold registered. simpl. by rewrite lookup_insert_eq.
  + rewrite Hv; [done|]. intros Heq. by apply (Hpaths pkgVersion).
  + rewrite Hv; [done|]. intros Heq. by apply (Hpaths pkgVersion).
Qed.

Lemma demo_paths_distinct b v :
  cache_path (Demo.host b) Demo.cfg "leftpad" v ≠ MANIFEST_PATH (Demo.host b) Demo.cfg.
Proof. vm_compute. discriminate. Qed.

(** With a logger whose [info] returns a falsy value, no download is
    ever reported finished: the call that started it does not go on. *)
Lemma download_is_never_reported_finished host env url p w :
  logger_info host = false → (run host env (download host url p) w).1 ≠ Returned tt.
Proof.
  intros Hlog. unfold download. rewrite run_bind. unfold fetch_js, fetch.
  destruct url as [u|]; [|done].
  rewrite run_await. simpl.
  destruct (http env (trace w) u) as [res|]; [|done].
  rewrite run_bind, run_await. simpl.
  destruct (fs_write host p EmptyString (log (EvOpen p) (log (EvFetch u) w)))
    as [[e|[]] w1]; simpl; [done|].
  rewrite run_bind.
  destruct (run_pipe host env p (body res) 0 w1) as (w2 & -> & _ & _).
  by rewrite Hlog.
Qed.

(** C2. The line that ends a download resolves its promise by
    [logger.info(...) && resolve()], and the [info] of the logger of
    line 22 returns nothing.  So when [cachePackage] has downloaded an
    archive whose bytes do not have the registry's digest, it is left
    waiting on line 83 for ever: the bytes stay at the canonical path,
    the file is not deleted and no integrity error is thrown; no entry is
    written.  It is only a later call, which finds the file there and
    skips the download, that checks it, deletes it and throws. *)
Theorem tampered_download_is_left_unchecked :
  run (Demo.host false) Demo.tampered
    (cachePackage (Demo.host false) Demo.cfg "leftpad" (Some "1.0.0")) Demo.fresh =
    (Pending,
     {| files := {[ Demo.artifact_path := "archive bytez" ]};
        dirs := {[ "/cache"; "/proj" ]};
        versionCache := ∅;
        trace := [EvFetch "https://registry.npmjs.org/leftpad"; EvMkdir "/cache";
                  EvAccess Demo.artifact_path; EvFetch Demo.tarball_url;
                  EvOpen Demo.artifact_path;
                  EvStreamWrite Demo.artifact_path 0 "archive ";
                  EvStreamWrite Demo.artifact_path 8 "bytez"] |}) ∧
  Some (digest_of (Demo.host false) "archive bytez") ≠
    integrity {| tarball := Some Demo.tarball_url;
                 integrity := Some ("sha512-" +:+ Demo.digest Demo.tarball_bytes) |} ∧
  (run (Demo.host false) Demo.tampered
     (cachePackage (Demo.host false) Demo.cfg "leftpad" (Some "1.0.0"))
     (run (Demo.host false) Demo.tampered
        (cachePackage (Demo.host false) Demo.cfg "leftpad" (Some "1.0.0"))
        Demo.fresh).2).1 =
    Thrown (Error "Integrity check failed for leftpad@1.0.0") ∧
  files (run (Demo.host false) Demo.tampered
           (cachePackage (Demo.host false) Demo.cfg "leftpad" (Some "1.0.0"))
           (run (Demo.host false) Demo.tampered
              (cachePackage (Demo.host false) Demo.cfg "leftpad" (Some "1.0.0"))
              Demo.fresh).2).2 !! Demo.artifact_path = None.
Proof.
  split_and!.
  - vm_compute. reflexivity.
  - vm_compute. discriminate.
  - vm_compute. reflexivity.
  - vm_compute. reflexivity.
Qed.

(** ** Registration comes after verification *)

Lemma extends_refl w : extends w w [].
Proof. unfold extends. by rewrite app_nil_r. Qed.

Lemma extends_log w ev : extends w (log ev w) [ev].
Proof. done. Qed.

Lemma extends_trans w1 w2 w3 evs1 evs2 :
  extends w1 w2 evs1 → extends w2 w3 evs2 → extends w1 w3 (evs1 ++ evs2).
Proof. unfold extends. intros H1 H2. by rewrite H2, H1, app_assoc. Qed.

Lemma extends_new_events w w' evs : extends w w' evs → new_events w w' = evs.
Proof. apply new_events_app. Qed.

Lemma fs_write_trace host p data w r w' :
  fs_write host p data w = (r, w') → trace w' = trace w.
Proof.
  unfold fs_write. case_bool_decide; [by intros [= _ <-]|].
  by destruct (writable host p w); intros [= _ <-].
Qed.

Lemma run_pipe_trace host env p chunks : ∀ pos w w',
  run host env (pipe p pos chunks) w = (Returned tt, w') →
  ∃ evs, extends w w' evs ∧ Forall (fun ev => is_write ev = false) evs.
Proof.
  induction chunks as [|chunk rest IH]; intros pos w w'; simpl.
  - rewrite run_ret. intros [= <-]. exists []. split; [apply extends_refl|done].
  - rewrite run_bind, run_await. simpl.
    destruct (files w !! p) as [c|]; simpl; intros Hr;
      apply IH in Hr as (evs & He & Hw);
      exists (EvStreamWrite p pos chunk :: evs);
      (split; [|by constructor]);
      unfold extends in *; rewrite He; simpl; by rewrite <- app_assoc.
Qed.

Lemma run_download_trace host env url p w out w' :
  run host env (download host url p) w = (out, w') →
  ∃ evs, extends w w' evs ∧ Forall (fun ev => is_write ev = false) evs.
Proof.
  unfold download. rewrite run_bind. unfold fetch_js, fetch.
  destruct url as [u|];
    [|intros [= _ <-]; exists []; split; [apply extends_refl|done]].
  rewrite run_await. simpl.
  destruct (http env (trace w) u) as [res|];
    [|intros [= _ <-]; exists [EvFetch u]; split; [done|by repeat constructor]].
  rewrite run_bind, run_await. simpl.
  destruct (fs_write host p EmptyString (log (EvOpen p) (log (EvFetch u) w)))
    as [[e|[]] w1] eqn:Hw; apply fs_write_trace in Hw; simpl.
  - intros [= _ <-]. exists [EvFetch u; EvOpen p].
    split; [|by repeat constructor]. unfold extends. rewrite Hw. simpl.
    by rewrite <- app_assoc.
  - rewrite run_bind.
    destruct (run_pipe host env p (body res) 0 w1) as (w2 & Hp & _ & _).
    rewrite Hp. apply run_pipe_trace in Hp as (evs & He & Hf).
    assert (extends w w2 ([EvFetch u; EvOpen p] ++ evs)) as Hx.
    { unfold extends in *. rewrite He, Hw. simpl. by rewrite <- !app_assoc. }
    assert (Forall (fun ev => is_write ev = false) ([EvFetch u; EvOpen p] ++ evs)) as Hall.
    { by repeat constructor. }
    destruct (logger_info host); intros [= _ <-]; by eexists.
Qed.

Lemma run_ensure_file_trace host env cfg url p w out w' :
  run host env (ensure_file host cfg url p) w = (out, w') →
  ∃ evs, extends w w' evs ∧ Forall (fun ev => is_write ev = false) evs.
Proof.
  unfold ensure_file. rewrite run_bind, run_await.
  assert (trace (perform host env (Mkdir (CACHE_DIR cfg)) w).2 =
          trace w ++ [EvMkdir (CACHE_DIR cfg)]) as Hm.
  { simpl. case_bool_decide; [done|]. by case_bool_decide. }
  destruct (perform host env (Mkdir (CACHE_DIR cfg)) w) as [[e|[]] w1]; simpl in *.
  - intros [= _ <-]. exists [EvMkdir (CACHE_DIR cfg)]. by repeat constructor.
  - rewrite run_bind, run_exists_at.
    destruct (bool_decide (p ∈ dirs w1) || bool_decide (is_Some (files w1 !! p))); simpl.
    + rewrite run_ret. intros [= _ <-].
      exists [EvMkdir (CACHE_DIR cfg); EvAccess p]. split; [|by repeat constructor].
      unfold extends. simpl. rewrite Hm. by rewrite <- app_assoc.
    + intros Hd. apply run_download_trace in Hd as (evs & He & Hf).
      exists ([EvMkdir (CACHE_DIR cfg); EvAccess p] ++ evs).
      split; [|by repeat constructor].
      unfold extends in *. rewrite He. simpl. rewrite Hm. by rewrite <- !app_assoc.
Qed.

Lemma run_ensure_file_present host env cfg url p c w :
  CACHE_DIR cfg ∈ dirs w → files w !! p = Some c →
  run host env (ensure_file host cfg url p) w =
    (Returned tt, log (EvAccess p) (log (EvMkdir (CACHE_DIR cfg)) w)).
Proof.
  intros Hd Hf. unfold ensure_file. rewrite run_bind, run_await. simpl.
  rewrite bool_decide_eq_true_2 by done. simpl.
  rewrite run_bind, run_exists_at. simpl.
  rewrite (bool_decide_eq_true_2 (is_Some (files w !! p))) by (by rewrite Hf).
  by rewrite orb_true_r.
Qed.

Lemma not_write_elem evs p text :
  Forall (fun ev => is_write ev = false) evs → EvWrite p text ∉ evs.
Proof.
  intros Hall Hin. rewrite Forall_forall in Hall. by apply Hall in Hin.
Qed.

Lemma run_verify_trace host env cfg pkg pkgVersion cachePath integ w out w' :
  run host env (verify_and_register host cfg pkg pkgVersion cachePath integ) w = (out, w') →
  (∃ evs, extends w w' evs ∧ Forall (fun ev => is_write ev = false) evs) ∨
  (∃ c, files w !! cachePath = Some c ∧ Some (digest_of host c) = integ ∧
        extends w w'
          [EvRead cachePath; EvRead (MANIFEST_PATH host cfg);
           EvWrite (MANIFEST_PATH host cfg)
             (JSON_stringify host
                (<[manifest_key pkg pkgVersion :=
                     {| me_path := Some cachePath; me_integrity := integ |}]>
                   (manifest_of host cfg (log (EvRead cachePath) w))))]).
Proof.
  unfold verify_and_register. rewrite run_bind, run_await. simpl.
  case_bool_decide as Hd; simpl;
    [intros [= _ <-]; left; exists [EvRead cachePath]; by repeat constructor|].
  destruct (files w !! cachePath) as [c|] eqn:Hf; simpl;
    [|intros [= _ <-]; left; exists [EvRead cachePath]; by repeat constructor].
  destruct (decide (Some (digest_of host c) ≠ integ)) as [Hne|Heq].
  - rewrite run_bind, (run_evict_present _ _ _ c) by done.
    rewrite run_throw. intros [= _ <-]. left.
    exists [EvRead cachePath; EvUnlink cachePath]. split; [|by repeat constructor].
    unfold extends. simpl. by rewrite <- app_assoc.
  - apply dec_stable in Heq. rewrite run_bind, run_loadManifest, run_bind.
    destruct (run_saveManifest_cases host env cfg
                (<[manifest_key pkg pkgVersion :=
                     {| me_path := Some cachePath; me_integrity := integ |}]>
                   (manifest_of host cfg (log (EvRead cachePath) w)))
                (log (EvRead (MANIFEST_PATH host cfg)) (log (EvRead cachePath) w)))
      as [[_ ->]|[e ->]]; [rewrite run_ret|]; intros [= _ <-];
      right; exists c; (split; [done|]); (split; [done|]);
      unfold extends; simpl; by rewrite <- !app_assoc.
Qed.

(** C10. With a file already at the canonical path, [cachePackage] sends
    no request for the archive: it reads the file and compares its digest
    with the registry's.  On a match it then reads and writes the manifest
    (returning the path when the write succeeds); on a mismatch it deletes
    the file and throws, leaving the manifest alone.  And in every run,
    with or without a download, a write of the manifest comes right after
    the read of the manifest that follows a read of the file at the
    canonical path, whose bytes had the registry's digest. *)
Theorem preexisting_file_verified_before_registration host env cfg pkg version w :
  (∀ pkgVersion d c,
     resolved (http env (trace w) (REGISTRY_URL cfg +:+ "/" +:+ pkg))
       (default "latest" version) = Returned (pkgVersion, d) →
     CACHE_DIR cfg ∈ dirs w →
     cache_path host cfg pkg pkgVersion ∉ dirs w →
     files w !! cache_path host cfg pkg pkgVersion = Some c →
     ∃ out w',
       run host env (cachePackage host cfg pkg version) w = (out, w') ∧
       if decide (Some (digest_of host c) = integrity d) then
         new_events w w' =
           [EvFetch (REGISTRY_URL cfg +:+ "/" +:+ pkg); EvMkdir (CACHE_DIR cfg);
            EvAccess (cache_path host cfg pkg pkgVersion);
            EvRead (cache_path host cfg pkg pkgVersion);
            EvRead (MANIFEST_PATH host cfg);
            EvWrite (MANIFEST_PATH host cfg)
              (JSON_stringify host
                 (<[manifest_key pkg pkgVersion :=
                      {| me_path := Some (cache_path host cfg pkg pkgVersion);
                         me_integrity := integrity d |}]> (manifest_of host cfg w)))] ∧
         ((out = Returned (cache_path host cfg pkg pkgVersion) ∧
           files w' =
             <[MANIFEST_PATH host cfg :=
                 JSON_stringify host
                   (<[manifest_key pkg pkgVersion :=
                        {| me_path := Some (cache_path host cfg pkg pkgVersion);
                           me_integrity := integrity d |}]> (manifest_of host cfg w))]>
               (files w)) ∨
          (∃ e, out = Thrown e ∧ files w' = files w))
       else
         out = Thrown (Error ("Integrity check failed for " +:+
                              manifest_key pkg pkgVersion)) ∧
         new_events w w' =
           [EvFetch (REGISTRY_URL cfg +:+ "/" +:+ pkg); EvMkdir (CACHE_DIR cfg);
            EvAccess (cache_path host cfg pkg pkgVersion);
            EvRead (cache_path host cfg pkg pkgVersion);
            EvUnlink (cache_path host cfg pkg pkgVersion)] ∧
         files w' = delete (cache_path host cfg pkg pkgVersion) (files w)) ∧
  (∀ out w' p text,
     run host env (cachePackage host cfg pkg version) w = (out, w') →
     EvWrite p text ∈ new_events w w' →
     ∃ pkgVersion d w1 c pre,
       resolved (http env (trace w) (REGISTRY_URL cfg +:+ "/" +:+ pkg))
         (default "latest" version) = Returned (pkgVersion, d) ∧
       run host env
         (ensure_file host cfg (tarball d) (cache_path host cfg pkg pkgVersion))
         (log (EvFetch (REGISTRY_URL cfg +:+ "/" +:+ pkg)) w) = (Returned tt, w1) ∧
       files w1 !! cache_path host cfg pkg pkgVersion = Some c ∧
       Some (digest_of host c) = integrity d ∧
       p = MANIFEST_PATH host cfg ∧
       Forall (fun ev => is_write ev = false) pre ∧
       new_events w w' =
         pre ++ [EvRead (cache_path host cfg pkg pkgVersion);
                 EvRead (MANIFEST_PATH host cfg); EvWrite p text]).
Proof.
  split.
  - intros pkgVersion d c Hres Hcd Hd Hf.
    rewrite run_cachePackage, Hres.
    rewrite (run_ensure_file_present _ _ _ _ _ c) by done.
    set (w1 := log (EvAccess _) (log (EvMkdir _) (log (EvFetch _) w))).
    destruct (decide (Some (digest_of host c) = integrity d)) as [Heq|Hne].
    + unfold verify_and_register. rewrite run_bind, run_await. simpl.
      rewrite bool_decide_eq_false_2 by done. rewrite Hf. simpl.
      rewrite decide_False by (intros Hne; by apply Hne).
      rewrite run_bind, run_loadManifest, run_bind.
      assert (manifest_of host cfg (log (EvRead (cache_path host cfg pkg pkgVersion)) w1)
              = manifest_of host cfg w) as Hm by done.
      rewrite Hm.
      destruct (run_saveManifest_cases host env cfg
                  (<[manifest_key pkg pkgVersion :=
                       {| me_path := Some (cache_path host cfg pkg pkgVersion);
                          me_integrity := integrity d |}]> (manifest_of host cfg w))
                  (log (EvRead (MANIFEST_PATH host cfg))
                     (log (EvRead (cache_path host cfg pkg pkgVersion)) w1)))
        as [[_ ->]|[e ->]].
      * rewrite run_ret. eexists _, _. split; [reflexivity|]. split.
        -- apply new_events_app. simpl. by rewrite <- !app_assoc.
        -- left. done.
      * eexists _, _. split; [reflexivity|]. split.
        -- apply new_events_app. simpl. by rewrite <- !app_assoc.
        -- right. by exists e.
    + rewrite (run_verify_mismatch _ _ _ _ _ _ _ c) by done.
      eexists _, _. split; [reflexivity|]. split; [done|]. split; [|done].
      apply new_events_app. simpl. by rewrite <- !app_assoc.
  - intros out w' p text. rewrite run_cachePackage.
    destruct (resolved _ _) as [[pkgVersion d]|e|] eqn:Hres.
    2,3: intros [= _ <-] Hin;
         rewrite (extends_new_events _ _ _ (extends_log _ _)) in Hin;
         apply list_elem_of_singleton in Hin; discriminate.
    destruct (run host env (ensure_file _ _ _ _) _) as [[[]|e|] w1] eqn:Hens.
    2,3: intros [= _ <-] Hin;
         apply run_ensure_file_trace in Hens as (evs & He & Hall);
         pose proof (extends_trans _ _ _ _ _ (extends_log w _) He) as Hx;
         rewrite (extends_new_events _ _ _ Hx) in Hin;
         apply elem_of_cons in Hin as [Hin|Hin]; [discriminate|];
         by apply not_write_elem in Hin.
    intros Hv Hin.
    pose proof Hens as Hens'.
    apply run_ensure_file_trace in Hens' as (evs & He & Hall).
    pose proof (extends_trans _ _ _ _ _ (extends_log w _) He) as Hx.
    apply run_verify_trace in Hv as [(evs2 & He2 & Hall2)|(c & Hf & Hi & He2)].
    + pose proof (extends_trans _ _ _ _ _ Hx He2) as Hx2.
      rewrite (extends_new_events _ _ _ Hx2) in Hin.
      apply elem_of_app in Hin as [Hin|Hin]; [|by apply not_write_elem in Hin].
      apply elem_of_cons in Hin as [Hin|Hin]; [discriminate|].
      by apply not_write_elem in Hin.
    + pose proof (extends_trans _ _ _ _ _ Hx He2) as Hx2.
      rewrite (extends_new_events _ _ _ Hx2) in Hin |- *.
      assert (manifest_of host cfg (log (EvRead (cache_path host cfg pkg pkgVersion)) w1)
              = manifest_of host cfg w1) as Hm by done.
      apply elem_of_app in Hin as [Hin|Hin].
      { apply elem_of_cons in Hin as [Hin|Hin]; [discriminate|].
        by apply not_write_elem in Hin. }
      apply elem_of_cons in Hin as [Hin|Hin]; [discriminate|].
      apply elem_of_cons in Hin as [Hin|Hin]; [discriminate|].
      apply list_elem_of_singleton in Hin. injection Hin as -> ->.
      exists pkgVersion, d, w1, c,
        ([EvFetch (REGISTRY_URL cfg +:+ "/" +:+ pkg)] ++ evs).
      repeat split; try done. by constructor.
Qed.

Lemma preexisting_file_verified_before_registration_witness :
  (∃ out w',
     run (Demo.host false) Demo.env
       (cachePackage (Demo.host false) Demo.cfg "leftpad" (Some "1.0.0")) Demo.leftover =
       (out, w') ∧
     out = Thrown (Error ("Integrity check failed for " +:+
                          manifest_key "leftpad" (Some "1.0.0"))) ∧
     new_events Demo.leftover w' =
       [EvFetch (REGISTRY_URL Demo.cfg +:+ "/" +:+ "leftpad"); EvMkdir (CACHE_DIR Demo.cfg);
        EvAccess (cache_path (Demo.host false) Demo.cfg "leftpad" (Some "1.0.0"));
        EvRead (cache_path (Demo.host false) Demo.cfg "leftpad" (Some "1.0.0"));
        EvUnlink (cache_path (Demo.host false) Demo.cfg "leftpad" (Some "1.0.0"))] ∧
     files w' =
       delete (cache_path (Demo.host false) Demo.cfg "leftpad" (Some "1.0.0"))
         (files Demo.leftover)) ∧
  (∃ pkgVersion d w1 c pre,
     resolved (http Demo.env (trace Demo.fresh) (REGISTRY_URL Demo.cfg +:+ "/" +:+ "leftpad"))
       (default "latest" (Some "1.0.0")) = Returned (pkgVersion, d) ∧
     run (Demo.host true) Demo.env
       (ensure_file (Demo.host true) Demo.cfg (tarball d)
          (cache_path (Demo.host true) Demo.cfg "leftpad" pkgVersion))
       (log (EvFetch (REGISTRY_URL Demo.cfg +:+ "/" +:+ "leftpad")) Demo.fresh) =
       (Returned tt, w1) ∧
     files w1 !! cache_path (Demo.host true) Demo.cfg "leftpad" pkgVersion = Some c ∧
     Some (digest_of (Demo.host true) c) = integrity d ∧
     Demo.manifest_path = MANIFEST_PATH (Demo.host true) Demo.cfg ∧
     Forall (fun ev => is_write ev = false) pre ∧
     new_events Demo.fresh
       (run (Demo.host true) Demo.env
          (cachePackage (Demo.host true) Demo.cfg "leftpad" (Some "1.0.0")) Demo.fresh).2 =
       pre ++ [EvRead (cache_path (Demo.host true) Demo.cfg "leftpad" pkgVersion);
               EvRead (MANIFEST_PATH (Demo.host true) Demo.cfg);
               EvWrite Demo.manifest_path
                 (Demo.stringify {[ "leftpad@1.0.0" := Demo.leftpad_entry ]})]).
Proof.
  split.
  - destruct (preexisting_file_verified_before_registration (Demo.host false) Demo.env
                Demo.cfg "leftpad" (Some "1.0.0") Demo.leftover) as [Hpre _].
    destruct (Hpre (Some "1.0.0")
                {| tarball := Some Demo.tarball_url;
                   integrity := Some ("sha512-" +:+ Demo.digest Demo.tarball_bytes) |}
                "archive") as (out & w' & Hrun & Hcase).
    + vm_compute. reflexivity.
    + apply (bool_decide_unpack _). vm_compute. exact I.
    + apply (bool_decide_unpack _). vm_compute. exact I.
    + vm_compute. reflexivity.
    + exists out, w'. split; [exact Hrun|].
      destruct (decide (Some (digest_of (Demo.host false) "archive") =
                        integrity {| tarball := Some Demo.tarball_url;
                                     integrity := Some ("sha512-" +:+
                                                        Demo.digest Demo.tarball_bytes) |}))
        as [Heq|_]; [|exact Hcase].
      vm_compute in Heq. discriminate Heq.
  - destruct (preexisting_file_verified_before_registration (Demo.host true) Demo.env
                Demo.cfg "leftpad" (Some "1.0.0") Demo.fresh) as [_ Hall].
    apply (Hall (Returned Demo.artifact_path)).
    + vm_compute. reflexivity.
    + apply (bool_decide_unpack _). vm_compute. exact I.
Defined.

(** ** Corrupted cache entries *)

Lemma manifest_of_same host cfg w w' :
  files w' = files w → dirs w' = dirs w →
  manifest_of host cfg w' = manifest_of host cfg w.
Proof. unfold manifest_of. by intros -> ->. Qed.

Lemma manifest_of_entry host cfg w key e :
  manifest_of host cfg w !! key = Some e →
  (MANIFEST_PATH host cfg ∉ dirs w) ∧ is_Some (files w !! MANIFEST_PATH host cfg).
Proof.
  unfold manifest_of. case_bool_decide; [by rewrite lookup_empty|].
  destruct (files w !! MANIFEST_PATH host cfg); [done|by rewrite lookup_empty].
Qed.

Lemma run_getPackageVersion_world host env cfg pkg force w out w0 :
  run host env (getPackageVersion cfg pkg force) w = (out, w0) →
  files w0 = files w ∧ dirs w0 = dirs w.
Proof.
  unfold getPackageVersion. rewrite run_bind, run_await. simpl.
  assert (run host env
            (res ← fetch (REGISTRY_URL cfg +:+ "/" +:+ pkg);
             if negb (ok res)
             then Throw (Error ("Package " +:+ pkg +:+ " not found"))
             else data ← res_json res; version ← latest_tag data;
                  await (CacheSet pkg version);; Ret version) w = (out, w0) →
          files w0 = files w ∧ dirs w0 = dirs w) as Hnet.
  { rewrite run_bind. unfold fetch. rewrite run_await. simpl.
    destruct (http env (trace w) _) as [res|]; [|by intros [= _ <-]].
    destruct (ok res); simpl; [|by intros [= _ <-]].
    rewrite run_bind. unfold res_json.
    destruct (json res) as [data|]; [|by intros [= _ <-]].
    rewrite run_ret, run_bind. unfold latest_tag.
    destruct (dist_tags data) as [version|]; [|by intros [= _ <-]].
    rewrite run_ret, run_bind, run_await. simpl. rewrite run_ret.
    by intros [= _ <-]. }
  destruct force; [done|].
  destruct (versionCache w !! pkg) as [v|]; [|done].
  rewrite run_ret. by intros [= _ <-].
Qed.

Lemma run_getCachedPackage_stale host env cfg pkg v p integ c w :
  manifest_of host cfg w !! manifest_key pkg v =
    Some {| me_path := Some p; me_integrity := integ |} →
  p ∉ dirs w → files w !! p = Some c → Some (digest_of host c) ≠ integ →
  p ≠ MANIFEST_PATH host cfg →
  run host env (getCachedPackage host cfg pkg v) w =
    (Returned None, stale_removed host cfg (manifest_key pkg v) p w).
Proof.
  intros Hm Hd Hf Hne Hp. destruct (manifest_of_entry _ _ _ _ _ Hm) as [Hmd Hmf].
  unfold getCachedPackage. rewrite run_bind, run_loadManifest. rewrite Hm. simpl.
  rewrite run_bind, run_await. simpl.
  rewrite bool_decide_eq_false_2 by done. rewrite Hf. simpl.
  rewrite decide_True by done.
  rewrite run_bind, (run_evict_present _ _ _ c) by done.
  rewrite run_bind. unfold saveManifest. rewrite run_await. simpl. unfold fs_write.
  simpl. rewrite bool_decide_eq_false_2 by done.
  unfold writable. simpl. rewrite (bool_decide_eq_true_2 (_ ∉ _)) by done.
  rewrite (bool_decide_eq_true_2 (is_Some _)) by (by rewrite lookup_delete_ne).
  simpl. by rewrite run_ret.
Qed.

Lemma run_download_starts host env u p w out w' :
  run host env (download host (Some u) p) w = (out, w') →
  ∃ evs, extends w w' (EvFetch u :: evs).
Proof.
  intros Hrun. pose proof Hrun as Htr. revert Hrun.
  unfold download. rewrite run_bind. unfold fetch_js, fetch. rewrite run_await. simpl.
  destruct (http env (trace w) u) as [res|]; [|intros [= _ <-]; by exists []].
  rewrite run_bind, run_await. simpl.
  destruct (fs_write host p EmptyString (log (EvOpen p) (log (EvFetch u) w)))
    as [[e|[]] w1] eqn:Hw; apply fs_write_trace in Hw; simpl.
  - intros [= _ <-]. exists [EvOpen p]. unfold extends. rewrite Hw. simpl.
    by rewrite <- app_assoc.
  - rewrite run_bind.
    destruct (run_pipe host env p (body res) 0 w1) as (w2 & Hp & _ & _).
    rewrite Hp. apply run_pipe_trace in Hp as (evs & He & _).
    assert (extends w w2 (EvFetch u :: EvOpen p :: evs)) as Hx.
    { unfold extends in *. rewrite He, Hw. simpl. by rewrite <- !app_assoc. }
    destruct (logger_info host); intros [= _ <-]; by eexists.
Qed.

Lemma run_verify_extends host env cfg pkg pkgVersion cachePath integ w out w' :
  run host env (verify_and_register host cfg pkg pkgVersion cachePath integ) w = (out, w') →
  ∃ evs, extends w w' evs.
Proof.
  intros Hv. apply run_verify_trace in Hv as [(evs & He & _)|(c & _ & _ & He)];
    by eexists.
Qed.

Lemma run_cachePackage_starts host env cfg pkg version w out w' :
  run host env (cachePackage host cfg pkg version) w = (out, w') →
  ∃ evs, extends w w' (EvFetch (REGISTRY_URL cfg +:+ "/" +:+ pkg) :: evs).
Proof.
  rewrite run_cachePackage.
  destruct (resolved _ _) as [[pkgVersion d]|e|];
    [|intros [= _ <-]; by exists []..].
  destruct (run host env (ensure_file _ _ _ _) _) as [out1 w1] eqn:Hens.
  apply run_ensure_file_trace in Hens as (evs & He & _).
  pose proof (extends_trans _ _ _ _ _ (extends_log w _) He) as Hx.
  destruct out1 as [[]|e|]; [|intros [= _ <-]; by exists evs..].
  intros Hv. apply run_verify_extends in Hv as (evs2 & He2).
  exists (evs ++ evs2). apply (extends_trans _ _ _ _ _ Hx He2).
Qed.

Lemma run_cachePackage_downloads host env cfg pkg version w pkgVersion d u out w' :
  resolved (http env (trace w) (REGISTRY_URL cfg +:+ "/" +:+ pkg))
    (default "latest" version) = Returned (pkgVersion, d) →
  tarball d = Some u →
  CACHE_DIR cfg ∈ dirs w →
  cache_path host cfg pkg pkgVersion ∉ dirs w →
  files w !! cache_path host cfg pkg pkgVersion = None →
  run host env (cachePackage host cfg pkg version) w = (out, w') →
  ∃ evs, extends w w'
           ([EvFetch (REGISTRY_URL cfg +:+ "/" +:+ pkg); EvMkdir (CACHE_DIR cfg);
             EvAccess (cache_path host cfg pkg pkgVersion); EvFetch u] ++ evs).
Proof.
  intros Hres Hu Hcd Hd Hf. rewrite run_cachePackage, Hres, Hu.
  unfold ensure_file. rewrite run_bind, run_await. simpl.
  rewrite bool_decide_eq_true_2 by done. simpl.
  rewrite run_bind, run_exists_at. simpl.
  rewrite (bool_decide_eq_false_2 (_ ∈ _)) by done.
  rewrite (bool_decide_eq_false_2 (is_Some _)) by (rewrite Hf; by intros [? ?]).
  simpl.
  set (w0 := log (EvAccess _) (log (EvMkdir _) (log (EvFetch _) w))).
  assert (extends w w0
            [EvFetch (REGISTRY_URL cfg +:+ "/" +:+ pkg); EvMkdir (CACHE_DIR cfg);
             EvAccess (cache_path host cfg pkg pkgVersion)]) as Hx0.
  { unfold extends, w0. simpl. by rewrite <- !app_assoc. }
  destruct (run host env (download host (Some u) _) w0) as [out1 w1] eqn:Hdl.
  apply run_download_starts in Hdl as (evs & He).
  pose proof (extends_trans _ _ _ _ _ Hx0 He) as Hx.
  destruct out1 as [[]|e|]; [|intros [= _ <-]; by exists evs..].
  intros Hv. apply run_verify_extends in Hv as (evs2 & He2).
  exists (evs ++ evs2).
  pose proof (extends_trans _ _ _ _ _ Hx He2) as Hx2.
  unfold extends in *. rewrite Hx2. by rewrite <- !app_assoc.
Qed.

(** C4. The damaged file is deleted, the stale entry is taken out of the
    manifest and the archive is fetched anew; but the fresh fetch does not
    come to its end.  The download is never reported finished (line 86
    resolves its promise by [logger.info(...) && resolve()], and the
    [info] of the logger of line 22 returns nothing), so [acquire] does
    not return, the archive that is now at the canonical path with the
    right digest is not verified, and the entry is not written back. *)
Theorem corrupted_entry_is_not_rewritten :
  run (Demo.host false) Demo.env (acquire (Demo.host false) Demo.cfg "leftpad" false)
    (set_versionCache ∅ Demo.corrupted) =
    (Pending,
     {| files := {[ Demo.artifact_path := Demo.tarball_bytes;
                    Demo.manifest_path := Demo.stringify ∅ ]};
        dirs := {[ "/proj"; "/cache" ]};
        versionCache := {[ "leftpad" := Some "1.0.0" ]};
        trace := [EvFetch "https://registry.npmjs.org/leftpad";
                  EvRead Demo.manifest_path; EvRead Demo.artifact_path;
                  EvUnlink Demo.artifact_path;
                  EvWrite Demo.manifest_path (Demo.stringify ∅);
                  EvFetch "https://registry.npmjs.org/leftpad"; EvMkdir "/cache";
                  EvAccess Demo.artifact_path; EvFetch Demo.tarball_url;
                  EvOpen Demo.artifact_path;
                  EvStreamWrite Demo.artifact_path 0 "archive ";
                  EvStreamWrite Demo.artifact_path 8 "bytes"] |}) ∧
  manifest_of (Demo.host false) Demo.cfg (set_versionCache ∅ Demo.corrupted)
    !! "leftpad@1.0.0" = Some Demo.leftpad_entry ∧
  files (set_versionCache ∅ Demo.corrupted) !! Demo.artifact_path = Some "archive" ∧
  Some (digest_of (Demo.host false) "archive") ≠ me_integrity Demo.leftpad_entry ∧
  manifest_of (Demo.host false) Demo.cfg
    (run (Demo.host false) Demo.env (acquire (Demo.host false) Demo.cfg "leftpad" false)
       (set_versionCache ∅ Demo.corrupted)).2 !! "leftpad@1.0.0" = None ∧
  Some (digest_of (Demo.host false) Demo.tarball_bytes) = me_integrity Demo.leftpad_entry.
Proof.
  split_and!.
  - vm_compute. reflexivity.
  - vm_compute. reflexivity.
  - vm_compute. reflexivity.
  - vm_compute. discriminate.
  - vm_compute. reflexivity.
  - vm_compute. reflexivity.
Qed.

(** ** Registry resolution *)

(** C8, as stated, does not hold: a version that the registry does not
    list makes [cachePackage] fail with the very error that a document
    without [dist] (or a missing package, which [cachePackage] does not
    check for) gives, a [TypeError]; it is not the "not found" error,
    which only [getPackageVersion] throws, on a response that is not OK. *)
Lemma missing_version_fails_like_malformed :
  (run (Demo.host false) Demo.env
     (cachePackage (Demo.host false) Demo.cfg "leftpad" (Some "9.9.9")) Demo.fresh).1 =
    Thrown TypeError ∧
  (run (Demo.host false) Demo.no_dist
     (cachePackage (Demo.host false) Demo.cfg "leftpad" (Some "1.0.0")) Demo.fresh).1 =
    Thrown TypeError ∧
  (run (Demo.host false) Demo.env
     (cachePackage (Demo.host false) Demo.cfg "nopkg" None) Demo.fresh).1 =
    Thrown TypeError ∧
  (run (Demo.host false) Demo.env
     (getPackageVersion Demo.cfg "nopkg" false) Demo.fresh).1 =
    Thrown (Error "Package nopkg not found") ∧
  error_name TypeError ≠ error_name (Error "Package leftpad not found").
Proof. repeat split; try (vm_compute; reflexivity). vm_compute. discriminate. Qed.

Lemma run_getPackageVersion_request host env cfg pkg force w :
  force = true ∨ versionCache w !! pkg = None →
  run host env (getPackageVersion cfg pkg force) w =
    match http env (trace w) (REGISTRY_URL cfg +:+ "/" +:+ pkg) with
    | None => (Thrown FetchError, log (EvFetch (REGISTRY_URL cfg +:+ "/" +:+ pkg)) w)
    | Some res =>
        if ok res then
          match json res with
          | None => (Thrown SyntaxError, log (EvFetch (REGISTRY_URL cfg +:+ "/" +:+ pkg)) w)
          | Some data =>
              match dist_tags data with
              | None => (Thrown TypeError, log (EvFetch (REGISTRY_URL cfg +:+ "/" +:+ pkg)) w)
              | Some version =>
                  (Returned version,
                   set_versionCache (<[pkg := version]> (versionCache w))
                     (log (EvFetch (REGISTRY_URL cfg +:+ "/" +:+ pkg)) w))
              end
          end
        else (Thrown (Error ("Package " +:+ pkg +:+ " not found")),
              log (EvFetch (REGISTRY_URL cfg +:+ "/" +:+ pkg)) w)
    end.
Proof.
  intros Hreq. unfold getPackageVersion. rewrite run_bind, run_await. simpl.
  assert (run host env
            (res ← fetch (REGISTRY_URL cfg +:+ "/" +:+ pkg);
             if negb (ok res)
             then Throw (Error ("Package " +:+ pkg +:+ " not found"))
             else data ← res_json res; version ← latest_tag data;
                  await (CacheSet pkg version);; Ret version) w =
          match http env (trace w) (REGISTRY_URL cfg +:+ "/" +:+ pkg) with
          | None => (Thrown FetchError, log (EvFetch (REGISTRY_URL cfg +:+ "/" +:+ pkg)) w)
          | Some res =>
              if ok res then
                match json res with
                | None => (Thrown SyntaxError,
                           log (EvFetch (REGISTRY_URL cfg +:+ "/" +:+ pkg)) w)
                | Some data =>
                    match dist_tags data with
                    | None => (Thrown TypeError,
                               log (EvFetch (REGISTRY_URL cfg +:+ "/" +:+ pkg)) w)
                    | Some version =>
                        (Returned version,
                         set_versionCache (<[pkg := version]> (versionCache w))
                           (log (EvFetch (REGISTRY_URL cfg +:+ "/" +:+ pkg)) w))
                    end
                end
              else (Thrown (Error ("Package " +:+ pkg +:+ " not found")),
                    log (EvFetch (REGISTRY_URL cfg +:+ "/" +:+ pkg)) w)
          end) as Hnet.
  { rewrite run_bind. unfold fetch. rewrite run_await. simpl.
    destruct (http env (trace w) _) as [res|]; [|done].
    destruct (ok res); simpl; [|done].
    rewrite run_bind. unfold res_json. destruct (json res) as [data|]; [|done].
    rewrite run_ret, run_bind. unfold latest_tag.
    destruct (dist_tags data) as [version|]; [|done].
    rewrite run_ret, run_bind, run_await. simpl. by rewrite run_ret. }
  destruct force; [done|]. destruct Hreq as [?| ->]; done.
Qed.

(** C8, amended. [getPackageVersion], when it asks the registry, throws
    "Package <name> not found" on a response that is not OK, throws a
    [TypeError] on a document without dist-tags, and otherwise returns the
    latest tag and remembers it.  [cachePackage] resolves ["latest"] (or a
    missing version) to the latest tag and takes any other version string
    as it is; a document without dist-tags or without versions, a version
    that is not listed and a listed version without [dist] all make it
    throw a [TypeError]. *)
Theorem registry_resolution_outcomes host env cfg pkg w res data :
  http env (trace w) (REGISTRY_URL cfg +:+ "/" +:+ pkg) = Some res →
  json res = Some data →
  let url := REGISTRY_URL cfg +:+ "/" +:+ pkg in
  (∀ force, force = true ∨ versionCache w !! pkg = None →
     (ok res = false →
      run host env (getPackageVersion cfg pkg force) w =
        (Thrown (Error ("Package " +:+ pkg +:+ " not found")), log (EvFetch url) w)) ∧
     (ok res = true → dist_tags data = None →
      run host env (getPackageVersion cfg pkg force) w =
        (Thrown TypeError, log (EvFetch url) w)) ∧
     (∀ latest, ok res = true → dist_tags data = Some latest →
      run host env (getPackageVersion cfg pkg force) w =
        (Returned latest,
         set_versionCache (<[pkg := latest]> (versionCache w)) (log (EvFetch url) w)))) ∧
  (∀ version : JsStr,
     let requested := default "latest" version in
     (requested = "latest" → dist_tags data = None →
      (run host env (cachePackage host cfg pkg version) w).1 = Thrown TypeError) ∧
     (versions data = None →
      (run host env (cachePackage host cfg pkg version) w).1 = Thrown TypeError) ∧
     (∀ pkgVersion vs,
        (if decide (requested = "latest") then dist_tags data = Some pkgVersion
         else pkgVersion = Some requested) →
        versions data = Some vs →
        (vs !! to_str pkgVersion = None →
         (run host env (cachePackage host cfg pkg version) w).1 = Thrown TypeError) ∧
        (vs !! to_str pkgVersion = Some {| dist := None |} →
         (run host env (cachePackage host cfg pkg version) w).1 = Thrown TypeError) ∧
        (∀ d, vs !! to_str pkgVersion = Some {| dist := Some d |} →
         run host env (resolve_dist cfg pkg requested) w =
           (Returned (pkgVersion, d), log (EvFetch url) w)))).
Proof.
  intros Hres Hjson url. subst url. split.
  - intros force Hreq. rewrite (run_getPackageVersion_request _ _ _ _ _ _ Hreq).
    rewrite Hres, Hjson. repeat split.
    + by intros ->.
    + by intros -> ->.
    + by intros latest -> ->.
  - intros version requested. subst requested.
    assert (∀ e, resolved (Some res) (default "latest" version) = Thrown e →
                 (run host env (cachePackage host cfg pkg version) w).1 = Thrown e) as Hfail.
    { intros e He. rewrite run_cachePackage. by rewrite Hres, He. }
    split; [|split].
    + intros Hl Hd. apply Hfail. unfold resolved. rewrite Hjson.
      rewrite decide_True by done. by rewrite Hd.
    + intros Hv. apply Hfail. unfold resolved. rewrite Hjson.
      destruct (if decide (default "latest" version = "latest") then dist_tags data
                else Some (Some (default "latest" version))); [|done]. by rewrite Hv.
    + intros pkgVersion vs Hpv Hvs.
      assert ((if decide (default "latest" version = "latest") then dist_tags data
               else Some (Some (default "latest" version))) = Some pkgVersion) as Hsel.
      { destruct (decide (default "latest" version = "latest")); [done|by rewrite Hpv]. }
      split; [|split].
      * intros Hm. apply Hfail. unfold resolved. by rewrite Hjson, Hsel, Hvs, Hm.
      * intros Hm. apply Hfail. unfold resolved. by rewrite Hjson, Hsel, Hvs, Hm.
      * intros d Hm. rewrite run_resolve_dist. rewrite Hres.
        unfold resolved. by rewrite Hjson, Hsel, Hvs, Hm.
Qed.

Lemma registry_resolution_outcomes_witness :
  run (Demo.host false) Demo.env (getPackageVersion Demo.cfg "nopkg" false) Demo.fresh =
    (Thrown (Error ("Package " +:+ "nopkg" +:+ " not found")),
     log (EvFetch (REGISTRY_URL Demo.cfg +:+ "/" +:+ "nopkg")) Demo.fresh) ∧
  run (Demo.host false) Demo.env (getPackageVersion Demo.cfg "leftpad" false) Demo.fresh =
    (Returned (Some "1.0.0"),
     set_versionCache (<["leftpad" := Some "1.0.0"]> (versionCache Demo.fresh))
       (log (EvFetch (REGISTRY_URL Demo.cfg +:+ "/" +:+ "leftpad")) Demo.fresh)) ∧
  (run (Demo.host false) Demo.env
     (cachePackage (Demo.host false) Demo.cfg "leftpad" (Some "9.9.9")) Demo.fresh).1 =
    Thrown TypeError ∧
  run (Demo.host false) Demo.env (resolve_dist Demo.cfg "leftpad" (default "latest" None))
    Demo.fresh =
    (Returned (Some "1.0.0",
               {| tarball := Some Demo.tarball_url;
                  integrity := Some ("sha512-" +:+ Demo.digest Demo.tarball_bytes) |}),
     log (EvFetch (REGISTRY_URL Demo.cfg +:+ "/" +:+ "leftpad")) Demo.fresh).
Proof.
  split; [|split; [|split]].
  - destruct (registry_resolution_outcomes (Demo.host false) Demo.env Demo.cfg "nopkg"
                Demo.fresh Demo.not_found {| dist_tags := None; versions := None |})
      as [Hget _]; [vm_compute; reflexivity|reflexivity|].
    destruct (Hget false) as (Hnf & _); [right; reflexivity|].
    apply Hnf. reflexivity.
  - destruct (registry_resolution_outcomes (Demo.host false) Demo.env Demo.cfg "leftpad"
                Demo.fresh {| ok := true; json := Some Demo.leftpad_doc; body := [] |}
                Demo.leftpad_doc)
      as [Hget _]; [vm_compute; reflexivity|reflexivity|].
    destruct (Hget false) as (_ & _ & Hok); [right; reflexivity|].
    apply Hok; reflexivity.
  - destruct (registry_resolution_outcomes (Demo.host false) Demo.env Demo.cfg "leftpad"
                Demo.fresh {| ok := true; json := Some Demo.leftpad_doc; body := [] |}
                Demo.leftpad_doc)
      as [_ Hcache]; [vm_compute; reflexivity|reflexivity|].
    destruct (Hcache (Some "9.9.9")) as (_ & _ & Hlisted).
    destruct (Hlisted (Some "9.9.9")
                {[ "1.0.0" :=
                   {| dist := Some {| tarball := Some Demo.tarball_url;
                                      integrity := Some ("sha512-" +:+
                                                         Demo.digest Demo.tarball_bytes) |} |} ]})
      as (Hmissing & _); [reflexivity|reflexivity|].
    apply Hmissing. vm_compute. reflexivity.
  - destruct (registry_resolution_outcomes (Demo.host false) Demo.env Demo.cfg "leftpad"
                Demo.fresh {| ok := true; json := Some Demo.leftpad_doc; body := [] |}
                Demo.leftpad_doc)
      as [_ Hcache]; [vm_compute; reflexivity|reflexivity|].
    destruct (Hcache None) as (_ & _ & Hlisted).
    destruct (Hlisted (Some "1.0.0")
                {[ "1.0.0" :=
                   {| dist := Some {| tarball := Some Demo.tarball_url;
                                      integrity := Some ("sha512-" +:+
                                                         Demo.digest Demo.tarball_bytes) |} |} ]})
      as (_ & _ & Hfound); [reflexivity|reflexivity|].
    apply Hfound. vm_compute. reflexivity.
Defined.

(** ** How files are written *)

(** C5, as stated, does not hold: while [cachePackage] is downloading, a
    reader of the canonical path gets the part of the archive written so
    far.  The stream was opened on the canonical path itself. *)
Lemma reader_sees_half_written_artifact :
  (run_pool (Demo.host true) Demo.env [0; 0; 0; 0; 0; 0; 1]
     [cachePackage (Demo.host true) Demo.cfg "leftpad" (Some "1.0.0");
      await (ReadFile Demo.artifact_path)] Demo.fresh).1 !! 1 = Some (Ret "archive ") ∧
  "archive " ≠ Demo.tarball_bytes ∧
  trace (run_pool (Demo.host true) Demo.env [0; 0; 0; 0; 0; 0; 1]
           [cachePackage (Demo.host true) Demo.cfg "leftpad" (Some "1.0.0");
            await (ReadFile Demo.artifact_path)] Demo.fresh).2 =
    [EvFetch "https://registry.npmjs.org/leftpad"; EvMkdir "/cache";
     EvAccess Demo.artifact_path; EvFetch Demo.tarball_url;
     EvOpen Demo.artifact_path; EvStreamWrite Demo.artifact_path 0 "archive ";
     EvRead Demo.artifact_path].
Proof. repeat split; try (vm_compute; reflexivity). vm_compute. discriminate. Qed.

Lemma overwrite_empty chunk : overwrite chunk EmptyString = chunk.
Proof. induction chunk as [|a chunk IH]; simpl; [done|]. by rewrite IH. Qed.

Lemma write_at_end c chunk : write_at c (String.length c) chunk = c +:+ chunk.
Proof.
  induction c as [|a c IH]; [apply overwrite_empty|].
  change (String a (write_at c (String.length c) chunk) = String a (c +:+ chunk)).
  by rewrite IH.
Qed.

Lemma string_app_length a b : String.length (a +:+ b) = String.length a + String.length b.
Proof.
  induction a as [|x a IH]; [done|].
  change (S (String.length (a +:+ b)) = S (String.length a + String.length b)).
  by rewrite IH.
Qed.

Lemma string_app_assoc a b c : (a +:+ b) +:+ c = a +:+ (b +:+ c).
Proof.
  induction a as [|x a IH]; [done|].
  change (String x ((a +:+ b) +:+ c) = String x (a +:+ b +:+ c)). by rewrite IH.
Qed.

Lemma string_app_empty a : a +:+ EmptyString = a.
Proof.
  induction a as [|x a IH]; [done|].
  change (String x (a +:+ EmptyString) = String x a). by rewrite IH.
Qed.

Lemma settle_pipe host env p (f : unit → Prog unit) chunks pos w :
  (∀ w, settle host env (f tt) w = (f tt, w)) →
  settle host env (pipe p pos chunks ≫= f) w = (pipe p pos chunks ≫= f, w).
Proof. intros Hf. destruct chunks as [|chunk rest]; [apply Hf|done]. Qed.

Lemma run_pool_pipe host env p (f : unit → Prog unit) :
  (∀ w, settle host env (f tt) w = (f tt, w)) →
  ∀ chunks k pos c0 w,
    files w !! p = Some c0 → String.length c0 = pos → k ≤ length chunks →
    ∃ pool' w',
      run_pool host env (replicate k 0) [pipe p pos chunks ≫= f] w = (pool', w') ∧
      files w' = <[p := c0 +:+ concat_chunks (take k chunks)]> (files w) ∧
      dirs w' = dirs w ∧
      extends w w' (stream_events p pos (take k chunks)).
Proof.
  intros Hf. induction chunks as [|chunk rest IH]; intros k pos c0 w Hc Hpos Hk.
  - assert (k = 0) as -> by (simpl in Hk; lia). simpl.
    eexists _, _. split; [done|]. rewrite string_app_empty.
    split; [by rewrite insert_id|]. split; [done|apply extends_refl].
  - destruct k as [|k]; simpl.
    + eexists _, _. split; [done|]. rewrite string_app_empty.
      split; [by rewrite insert_id|]. split; [done|apply extends_refl].
    + unfold pool_step. simpl. rewrite Hc. simpl.
      rewrite settle_pipe by done. simpl.
      destruct (IH k (pos + String.length chunk) (c0 +:+ chunk)
                  (set_files (<[p:=write_at c0 pos chunk]> (files w))
                     (log (EvStreamWrite p pos chunk) w)))
        as (pool' & w' & Hrun & Hfiles & Hdirs & Hext).
      * simpl. rewrite lookup_insert_eq. by rewrite <- Hpos, write_at_end.
      * rewrite string_app_length. lia.
      * simpl in Hk. lia.
      * exists pool', w'. split; [exact Hrun|]. split; [|split].
        -- rewrite Hfiles. simpl. rewrite insert_insert_eq. by rewrite string_app_assoc.
        -- by rewrite Hdirs.
        -- unfold extends in *. rewrite Hext. simpl. by rewrite <- app_assoc.
Qed.

Lemma settle_finish host env w :
  settle host env (if logger_info host then Ret tt else @Never unit) w =
    (if logger_info host then Ret tt else Never, w).
Proof. by destruct (logger_info host). Qed.

Lemma run_pool_download_opened host env u p res w :
  http env (trace w) u = Some res →
  writable host p w = true →
  run_pool host env [0; 0] [download host (Some u) p] w =
    ([pipe p 0 (body res) ≫= fun _ => if logger_info host then Ret tt else Never],
     set_files (<[p := EmptyString]> (files w)) (log (EvOpen p) (log (EvFetch u) w))).
Proof.
  intros Hres Hw. simpl. unfold pool_step. simpl. rewrite Hres. simpl.
  unfold fs_write.
  assert (writable host p (log (EvOpen p) (log (EvFetch u) w)) = true) as -> by done.
  apply andb_prop in Hw as [Hd _]. apply bool_decide_eq_true in Hd.
  rewrite bool_decide_eq_false_2 by done.
  change (Prog_bind unit unit
            (fun _ => pipe p 0 (body res)
                      ≫= fun _ => if logger_info host then Ret tt else Never)
            (Ret tt))
    with (pipe p 0 (body res) ≫= fun _ => if logger_info host then Ret tt else Never).
  rewrite settle_pipe by (intros; apply settle_finish). done.
Qed.

Lemma run_pool_app {A} host env (s1 s2 : list nat) (pool : list (Prog A)) w :
  existsb is_thrown (run_pool host env s1 pool w).1 = false →
  run_pool host env (s1 ++ s2) pool w =
    run_pool host env s2 (run_pool host env s1 pool w).1 (run_pool host env s1 pool w).2.
Proof.
  revert pool w. induction s1 as [|i s1 IH]; intros pool w; simpl; [done|].
  destruct (existsb is_thrown pool) eqn:Hthrown; simpl.
  - by rewrite Hthrown.
  - destruct (pool_step host env i pool w) as [pool' w']. apply IH.
Qed.

(** C5, amended. The download writes into the canonical path itself: once
    the response has arrived and the stream is open, the file there holds
    the chunks written so far, the first [k] of them after [k] writes, and
    no other path is touched; a save of the manifest is one [writeFile] on
    the manifest path itself.  No temporary path and no rename are
    involved. *)
Theorem download_writes_in_place host env cfg u p res w k :
  http env (trace w) u = Some res →
  writable host p w = true →
  k ≤ length (body res) →
  (∃ pool' w',
     run_pool host env (replicate (2 + k) 0) [download host (Some u) p] w = (pool', w') ∧
     files w' = <[p := concat_chunks (take k (body res))]> (files w) ∧
     new_events w w' = EvFetch u :: EvOpen p :: stream_events p 0 (take k (body res))) ∧
  (∀ m wm,
     new_events wm (run host env (saveManifest host cfg m) wm).2 =
       [EvWrite (MANIFEST_PATH host cfg) (JSON_stringify host m)] ∧
     (files (run host env (saveManifest host cfg m) wm).2 =
        <[MANIFEST_PATH host cfg := JSON_stringify host m]> (files wm) ∨
      files (run host env (saveManifest host cfg m) wm).2 = files wm)).
Proof.
  intros Hres Hw Hk. split.
  - change (replicate (2 + k) 0) with ([0; 0] ++ replicate k 0).
    rewrite run_pool_app; rewrite (run_pool_download_opened _ _ _ _ _ _ Hres Hw);
      [|simpl; destruct (body res); [by destruct (logger_info host)|done]].
    simpl fst. simpl snd.
    destruct (run_pool_pipe host env p
                (fun _ => if logger_info host then Ret tt else Never)
                (fun w0 => settle_finish host env w0)
                (body res) k 0 EmptyString
                (set_files (<[p := EmptyString]> (files w))
                   (log (EvOpen p) (log (EvFetch u) w))))
      as (pool' & w' & Hrun & Hfiles & _ & Hext); [|done|done|].
    + simpl. apply lookup_insert_eq.
    + exists pool', w'. split; [exact Hrun|]. split.
      * rewrite Hfiles. simpl. by rewrite insert_insert_eq.
      * apply new_events_app. unfold extends in Hext. rewrite Hext. simpl.
        by rewrite <- !app_assoc.
  - intros m wm.
    destruct (run_saveManifest_cases host env cfg m wm) as [[_ ->]|[e ->]]; simpl.
    + split; [by apply new_events_app|by left].
    + split; [by apply new_events_app|by right].
Qed.

Lemma download_writes_in_place_witness :
  ∃ pool' w',
    run_pool (Demo.host false) Demo.env (replicate (2 + 1) 0)
      [download (Demo.host false) (Some Demo.tarball_url) Demo.artifact_path]
      Demo.cached = (pool', w') ∧
    files w' = <[Demo.artifact_path := concat_chunks (take 1 Demo.tarball_chunks)]>
                 (files Demo.cached) ∧
    new_events Demo.cached w' =
      EvFetch Demo.tarball_url :: EvOpen Demo.artifact_path ::
      stream_events Demo.artifact_path 0 (take 1 Demo.tarball_chunks).
Proof.
  destruct (download_writes_in_place (Demo.host false) Demo.env Demo.cfg Demo.tarball_url
              Demo.artifact_path
              {| ok := true; json := None; body := Demo.tarball_chunks |} Demo.cached 1)
    as [Hdl _].
  - vm_compute. reflexivity.
  - vm_compute. reflexivity.
  - simpl. lia.
  - exact Hdl.
Defined.

(** ** Acquiring the same package again *)

Lemma perform_async_cache host env {X} (op : Op X) w :
  is_sync op = false → versionCache (perform host env op w).2 = versionCache w.
Proof.
  destruct op; simpl; try done; intros _; unfold fs_write; simpl;
    repeat (case_bool_decide; simpl; try done);
    repeat (case_match; simpl; try done).
Qed.

Lemma run_async_only host env {A} (p : Prog A) w :
  async_only p → versionCache (run host env p w).2 = versionCache w.
Proof.
  revert w. induction p as [a|e| |X op k IH]; intros w Hp; try done.
  destruct Hp as [Hop Hk]. rewrite run_do, IH by done.
  by apply perform_async_cache.
Qed.

Lemma async_only_bind {A B} (p : Prog A) (f : A → Prog B) :
  async_only p → (∀ a, async_only (f a)) → async_only (p ≫= f).
Proof.
  intros Hp Hf. induction p as [a|e| |X op k IH]; try done.
  - apply Hf.
  - destruct Hp as [Hop Hk]. split; [done|]. intros r. by apply IH.
Qed.

Lemma async_only_try_catch {A} (p : Prog A) (h : JsError → Prog A) :
  async_only p → (∀ e, async_only (h e)) → async_only (try_catch p h).
Proof.
  intros Hp Hh. induction p as [a|e| |X op k IH]; try done.
  - apply Hh.
  - destruct Hp as [Hop Hk]. split; [done|]. intros r. by apply IH.
Qed.

Lemma async_only_await {X} (op : Op X) : is_sync op = false → async_only (await op).
Proof. intros Hop. split; [done|]. by intros [e|x]. Qed.

Lemma async_only_pipe p chunks : ∀ pos, async_only (pipe p pos chunks).
Proof.
  induction chunks as [|chunk rest IH]; intros pos; [done|].
  apply async_only_bind; [by apply async_only_await|]. intros _. apply IH.
Qed.

(** Decomposes a program into its awaits. *)
Ltac async_only_tac :=
  repeat first
    [ apply async_only_pipe
    | apply async_only_await; reflexivity
    | apply async_only_bind; [|intros ?]
    | apply async_only_try_catch; [|intros ?]
    | exact I
    | match goal with
      | |- async_only (match ?x with _ => _ end) => destruct x
      | |- async_only (let '(_, _) := ?x in _) => destruct x
      end ].

Lemma async_only_loadManifest host cfg : async_only (loadManifest host cfg).
Proof. unfold loadManifest. async_only_tac. Qed.

Lemma async_only_getCachedPackage host cfg pkg v :
  async_only (getCachedPackage host cfg pkg v).
Proof.
  unfold getCachedPackage, evict, saveManifest.
  apply async_only_bind; [apply async_only_loadManifest|]. intros m.
  async_only_tac.
Qed.

Lemma async_only_cachePackage host cfg pkg version :
  async_only (cachePackage host cfg pkg version).
Proof.
  unfold cachePackage, resolve_dist, ensure_file, verify_and_register, download,
    exists_at, fetch_js, fetch, res_json, latest_tag, lookup_dist, evict, saveManifest.
  async_only_tac; try (apply async_only_loadManifest).
Qed.

Lemma run_getPackageVersion_returned host env cfg pkg force w v w0 :
  run host env (getPackageVersion cfg pkg force) w = (Returned v, w0) →
  versionCache w0 !! pkg = Some v.
Proof.
  destruct (decide (force = true ∨ versionCache w !! pkg = None)) as [Hreq|Hhit].
  - rewrite (run_getPackageVersion_request _ _ _ _ _ _ Hreq).
    destruct (http env (trace w) _) as [res|]; [|done].
    destruct (ok res); [|done]. destruct (json res) as [data|]; [|done].
    destruct (dist_tags data) as [version|]; [|done].
    intros [= <- <-]. simpl. apply lookup_insert_eq.
  - destruct force; [by destruct Hhit; left|].
    destruct (versionCache w !! pkg) as [v'|] eqn:Hc; [|by destruct Hhit; right].
    rewrite (run_getPackageVersion_cached _ _ _ _ _ _ Hc). by intros [= <- <-].
Qed.

Lemma run_getCachedPackage_some host env cfg pkg v w p w' :
  run host env (getCachedPackage host cfg pkg v) w = (Returned (Some p), w') →
  ∃ integ c,
    manifest_of host cfg w !! manifest_key pkg v =
      Some {| me_path := Some p; me_integrity := integ |} ∧
    (p ∉ dirs w) ∧ files w !! p = Some c ∧ Some (digest_of host c) = integ ∧
    w' = log (EvRead p) (log (EvRead (MANIFEST_PATH host cfg)) w).
Proof.
  unfold getCachedPackage. rewrite run_bind, run_loadManifest.
  destruct (manifest_of host cfg w !! manifest_key pkg v) as [[[path|] integ]|];
    simpl; [|done..].
  rewrite run_bind, run_await. simpl.
  case_bool_decide as Hd; simpl; [done|].
  destruct (files w !! path) as [c|] eqn:Hf; simpl; [|done].
  destruct (decide (Some (digest_of host c) ≠ integ)) as [Hne|Heq].
  - rewrite run_bind, (run_evict_present _ _ _ c) by done. rewrite run_bind.
    match goal with
    | |- context [run host env (saveManifest host cfg ?m) ?w0] =>
        destruct (run_saveManifest_cases host env cfg m w0) as [[_ ->]|[e ->]]
    end; [by rewrite run_ret|done].
  - apply dec_stable in Heq. rewrite run_ret. intros [= <- <-]. by exists integ, c.
Qed.

Lemma resolved_literal res s pkgVersion d :
  s ≠ "latest" → resolved res s = Returned (pkgVersion, d) → pkgVersion = Some s.
Proof.
  intros Hs. unfold resolved. destruct res as [r|]; [|done].
  destruct (json r) as [data|]; [|done]. rewrite decide_False by done.
  destruct (versions data) as [vs|]; [|done].
  destruct (vs !! to_str (Some s)) as [meta|]; [|done].
  destruct (dist meta); [|done]. by intros [= <- _].
Qed.

Lemma cache_ready_log host cfg pkg v p w ev :
  cache_ready host cfg pkg v p w → cache_ready host cfg pkg v p (log ev w).
Proof. done. Qed.

Lemma acquire_makes_ready host env cfg pkg w s w0 p w1 :
  json_roundtrip host →
  (∀ v, cache_path host cfg pkg v ≠ MANIFEST_PATH host cfg) →
  run host env (getPackageVersion cfg pkg false) w = (Returned (Some s), w0) →
  s ≠ "latest" →
  run host env (acquire host cfg pkg false) w = (Returned p, w1) →
  cache_ready host cfg pkg (Some s) p w1.
Proof.
  intros Hrt Hpaths Hver Hs. unfold acquire. rewrite run_bind, Hver.
  apply run_getPackageVersion_returned in Hver.
  unfold cached_or_fetched. rewrite run_bind.
  destruct (run host env (getCachedPackage host cfg pkg (Some s)) w0)
    as [[cached|e|] w2] eqn:Hget; [|done..].
  assert (versionCache w2 = versionCache w0) as Hc2.
  { pose proof (run_async_only host env (getCachedPackage host cfg pkg (Some s)) w0
                  (async_only_getCachedPackage _ _ _ _)) as Hc.
    by rewrite Hget in Hc. }
  assert (run host env (cachePackage host cfg pkg (Some s)) w2 = (Returned p, w1) →
          cache_ready host cfg pkg (Some s) p w1) as Hfetch.
  { intros Hrun.
    pose proof (run_async_only host env (cachePackage host cfg pkg (Some s)) w2
                  (async_only_cachePackage _ _ _ _)) as Hc.
    rewrite Hrun in Hc. simpl in Hc.
    pose proof (cachePackage_outcome _ _ _ _ _ _ _ _ Hpaths Hrun) as Hout. simpl in Hout.
    destruct Hout as (pkgVersion & d & c & m0 & Hres & -> & Hf & Hi & Hd & Hmd & Hm).
    apply resolved_literal in Hres as ->; [|done].
    split; [by rewrite Hc, Hc2|].
    destruct (integrity d) as [i|] eqn:Hint; [|done].
    exists i, c. split; [|split; [done|split; [done|by injection Hi]]].
    unfold manifest_of. rewrite bool_decide_eq_false_2 by done.
    rewrite Hm. simpl. rewrite Hrt. simpl. apply lookup_insert_eq. }
  destruct cached as [path|]; [|done].
  unfold truthy. destruct (decide (path = EmptyString)); [done|].
  rewrite run_ret. intros [= <- <-].
  apply run_getCachedPackage_some in Hget as (integ & c & Hm & Hd & Hf & Hi & ->).
  split; [done|]. destruct integ as [i|]; [|done].
  exists i, c. repeat split; [done..|by injection Hi].
Qed.

Lemma run_acquire_times_ready host env cfg pkg v p :
  p ≠ EmptyString →
  ∀ n w, cache_ready host cfg pkg v p w →
    ∃ w', run host env (acquire_times host cfg pkg false n) w =
            (Returned (replicate n p), w') ∧
          extends w w' (mjoin (replicate n [EvRead (MANIFEST_PATH host cfg); EvRead p])) ∧
          files w' = files w.
Proof.
  intros Hp. induction n as [|n IH]; intros w Hready.
  - exists w. split; [done|]. split; [apply extends_refl|done].
  - destruct (IH (log (EvRead p) (log (EvRead (MANIFEST_PATH host cfg)) w)))
      as (w' & Hrun & Hev & Hfiles); [by do 2 apply cache_ready_log|].
    exists w'. split; [|split; [|done]].
    + change (acquire_times host cfg pkg false (S n))
        with (q ← acquire host cfg pkg false;
              ps ← acquire_times host cfg pkg false n; Ret (q :: ps)).
      rewrite run_bind, (run_acquire_hit _ _ _ _ _ v p) by done.
      by rewrite run_bind, Hrun, run_ret.
    + unfold extends in *. rewrite Hev. simpl. by rewrite <- !app_assoc.
Qed.

(** C1, as stated, does not hold: two tasks of one [installPackages] for
    the same name, advancing in turn, both find the canonical path empty
    and both request the archive (and the registry, twice each), whether
    or not their downloads are ever reported finished. *)
Lemma concurrent_acquires_download_twice :
  filter (fun ev => ev = EvFetch Demo.tarball_url)
    (trace (installPackages (Demo.host true) Demo.env Demo.cfg ["leftpad"; "leftpad"]
              Demo.options [0; 1; 0; 1; 0; 1; 0; 1; 0; 1; 0; 1; 0; 1; 0; 1; 0; 1; 0; 1;
                            0; 1; 0; 1; 0; 1; 0; 1] Demo.fresh).2) =
    [EvFetch Demo.tarball_url; EvFetch Demo.tarball_url] ∧
  filter (fun ev => ev = EvRead Demo.artifact_path)
    (trace (installPackages (Demo.host true) Demo.env Demo.cfg ["leftpad"; "leftpad"]
              Demo.options [0; 1; 0; 1; 0; 1; 0; 1; 0; 1; 0; 1; 0; 1; 0; 1; 0; 1; 0; 1;
                            0; 1; 0; 1; 0; 1; 0; 1] Demo.fresh).2) =
    [EvRead Demo.artifact_path; EvRead Demo.artifact_path] ∧
  filter (fun ev => ev = EvFetch Demo.tarball_url)
    (trace (installPackages (Demo.host false) Demo.env Demo.cfg ["leftpad"; "leftpad"]
              Demo.options [0; 1; 0; 1; 0; 1; 0; 1; 0; 1; 0; 1; 0; 1; 0; 1; 0; 1; 0; 1;
                            0; 1; 0; 1; 0; 1; 0; 1] Demo.fresh).2) =
    [EvFetch Demo.tarball_url; EvFetch Demo.tarball_url].
Proof. repeat split; vm_compute; reflexivity. Qed.

(** C1, amended. Let a first [acquire] (not forced) resolve the name to a
    concrete version and return a path.  Then [n] further calls, each
    made when the one before has returned, all return that same path, and
    all they do is read the manifest and the file again: no request is
    sent and no file is changed. *)
Theorem sequential_acquires_share_the_cache host env cfg pkg w s w0 p w1 n :
  json_roundtrip host →
  (∀ v, cache_path host cfg pkg v ≠ MANIFEST_PATH host cfg) →
  run host env (getPackageVersion cfg pkg false) w = (Returned (Some s), w0) →
  s ≠ "latest" →
  run host env (acquire host cfg pkg false) w = (Returned p, w1) →
  p ≠ EmptyString →
  ∃ w', run host env (acquire_times host cfg pkg false n) w1 =
          (Returned (replicate n p), w') ∧
        new_events w1 w' =
          mjoin (replicate n [EvRead (MANIFEST_PATH host cfg); EvRead p]) ∧
        filter (fun ev => is_fetch ev = true) (new_events w1 w') = [] ∧
        files w' = files w1.
Proof.
  intros Hrt Hpaths Hver Hs Hacq Hp.
  pose proof (acquire_makes_ready _ _ _ _ _ _ _ _ _ Hrt Hpaths Hver Hs Hacq) as Hready.
  destruct (run_acquire_times_ready host env cfg pkg (Some s) p Hp n w1 Hready)
    as (w' & Hrun & Hev & Hfiles).
  exists w'. split; [done|]. apply extends_new_events in Hev. rewrite Hev.
  split; [done|]. split; [|done].
  clear. induction n as [|n IH]; [done|]. simpl. exact IH.
Qed.

Lemma sequential_acquires_share_the_cache_witness :
  ∃ w', run (Demo.host true) Demo.env
          (acquire_times (Demo.host true) Demo.cfg "leftpad" false 3)
          (run (Demo.host true) Demo.env
             (acquire (Demo.host true) Demo.cfg "leftpad" false) Demo.fresh).2 =
          (Returned (replicate 3 Demo.artifact_path), w') ∧
        new_events
          (run (Demo.host true) Demo.env
             (acquire (Demo.host true) Demo.cfg "leftpad" false) Demo.fresh).2 w' =
          mjoin (replicate 3 [EvRead (MANIFEST_PATH (Demo.host true) Demo.cfg);
                              EvRead Demo.artifact_path]) ∧
        filter (fun ev => is_fetch ev = true)
          (new_events
             (run (Demo.host true) Demo.env
                (acquire (Demo.host true) Demo.cfg "leftpad" false) Demo.fresh).2 w') = [] ∧
        files w' =
          files (run (Demo.host true) Demo.env
                   (acquire (Demo.host true) Demo.cfg "leftpad" false) Demo.fresh).2.
Proof.
  apply (sequential_acquires_share_the_cache (Demo.host true) Demo.env Demo.cfg "leftpad"
           Demo.fresh "1.0.0"
           (run (Demo.host true) Demo.env
              (getPackageVersion Demo.cfg "leftpad" false) Demo.fresh).2).
  - apply DemoFacts.roundtrip.
  - apply (demo_paths_distinct true).
  - vm_compute. reflexivity.
  - discriminate.
  - vm_compute. reflexivity.
  - discriminate.
Defined.

(** An entry whose file is gone is not a corrupted file: reading it fails,
    and [getCachedPackage] passes the failure on with the entry still in
    the manifest. *)
Example entry_without_file_fails :
  run (Demo.host true) Demo.env
    (acquire (Demo.host true) Demo.cfg "leftpad" false) Demo.file_missing =
    (Thrown (FsError ENOENT Demo.artifact_path),
     log (EvRead Demo.artifact_path) (log (EvRead Demo.manifest_path) Demo.file_missing)).
Proof. vm_compute. reflexivity. Qed.

(** ** The end of a download *)

(** Line 86 resolves the promise of the download by
    [logger.info(...) && resolve()].  With a logger whose [info] returns a
    falsy value the promise stays pending: the archive is on disk, nothing
    is verified or registered in that call; the next call finds the file
    and verifies it. *)
Example download_pending_with_falsy_logger :
  (run (Demo.host false) Demo.env
     (acquire (Demo.host false) Demo.cfg "leftpad" false) Demo.fresh).1 = Pending ∧
  files (run (Demo.host false) Demo.env
           (acquire (Demo.host false) Demo.cfg "leftpad" false) Demo.fresh).2
    !! Demo.artifact_path = Some Demo.tarball_bytes ∧
  files (run (Demo.host false) Demo.env
           (acquire (Demo.host false) Demo.cfg "leftpad" false) Demo.fresh).2
    !! Demo.manifest_path = None ∧
  (run (Demo.host false) Demo.env
     (acquire (Demo.host false) Demo.cfg "leftpad" false)
     (run (Demo.host false) Demo.env
        (acquire (Demo.host false) Demo.cfg "leftpad" false) Demo.fresh).2).1 =
    Returned Demo.artifact_path.
Proof. repeat split; vm_compute; reflexivity. Qed.

(** ** A hit in the cache *)

(** C3, as stated, does not hold: the memory cache is a [Map] of the
    process, empty when the process starts.  With the entry in the
    manifest and the file intact, but the name not yet resolved in this
    process, [acquire] asks the registry before it looks in the cache:
    one request is sent. *)
Lemma fresh_process_resolves_over_network :
  manifest_of (Demo.host false) Demo.cfg (set_versionCache ∅ Demo.cached)
    !! "leftpad@1.0.0" = Some Demo.leftpad_entry ∧
  files (set_versionCache ∅ Demo.cached) !! Demo.artifact_path = Some Demo.tarball_bytes ∧
  digest_of (Demo.host false) Demo.tarball_bytes =
    "sha512-" +:+ Demo.digest Demo.tarball_bytes ∧
  (run (Demo.host false) Demo.env (acquire (Demo.host false) Demo.cfg "leftpad" false)
     (set_versionCache ∅ Demo.cached)).1 = Returned Demo.artifact_path ∧
  filter (fun ev => is_fetch ev = true)
    (trace (run (Demo.host false) Demo.env
              (acquire (Demo.host false) Demo.cfg "leftpad" false)
              (set_versionCache ∅ Demo.cached)).2) =
    [EvFetch "https://registry.npmjs.org/leftpad"].
Proof. repeat split; vm_compute; reflexivity. Qed.

(** C3, amended. Let the manifest have an entry for the resolved version,
    with a file at the path it names.  The lookup reads the file and
    compares its digest with the recorded one: it answers with the
    recorded path exactly when the two are equal.  When they are,
    [acquire] returns the recorded path, changes no file and never
    requests the archive: with the name in the memory cache it sends no
    request at all, its operations being the two reads; otherwise (the
    name not in the memory cache, or [force]) it sends the one request of
    the resolution to the registry, and then does the two reads. *)
Theorem cache_hit_reverifies_without_download host env cfg w pkg v p i c :
  manifest_of host cfg w !! manifest_key pkg v =
    Some {| me_path := Some p; me_integrity := Some i |} →
  p ∉ dirs w → files w !! p = Some c → p ≠ EmptyString →
  ((run host env (getCachedPackage host cfg pkg v) w).1 = Returned (Some p) ↔
   digest_of host c = i) ∧
  (digest_of host c = i → versionCache w !! pkg = Some v →
   ∃ w', run host env (acquire host cfg pkg false) w = (Returned p, w') ∧
         new_events w w' = [EvRead (MANIFEST_PATH host cfg); EvRead p] ∧
         filter (fun ev => is_fetch ev = true) (new_events w w') = [] ∧
         files w' = files w ∧ dirs w' = dirs w ∧ versionCache w' = versionCache w) ∧
  (∀ force res data,
     digest_of host c = i →
     force = true ∨ versionCache w !! pkg = None →
     http env (trace w) (REGISTRY_URL cfg +:+ "/" +:+ pkg) = Some res →
     ok res = true → json res = Some data → dist_tags data = Some v →
     ∃ w', run host env (acquire host cfg pkg force) w = (Returned p, w') ∧
           new_events w w' =
             [EvFetch (REGISTRY_URL cfg +:+ "/" +:+ pkg);
              EvRead (MANIFEST_PATH host cfg); EvRead p] ∧
           files w' = files w ∧ dirs w' = dirs w).
Proof.
  intros Hm Hd Hf Hp. split_and!.
  - split.
    + destruct (run host env (getCachedPackage host cfg pkg v) w) as [out w'] eqn:Hrun.
      simpl. intros ->.
      destruct (run_getCachedPackage_some _ _ _ _ _ _ _ _ Hrun)
        as (integ & c' & Hm' & _ & Hf' & Hi' & _).
      rewrite Hm in Hm'. rewrite Hf in Hf'. congruence.
    + intros Hi.
      rewrite (run_getCachedPackage_hit _ _ _ pkg v p (Some i) c); try done.
      by rewrite Hi.
  - intros Hi Hc. eexists. split.
    + apply (run_acquire_hit _ _ _ _ _ v); [|done]. split; [done|]. by exists i, c.
    + assert (new_events w (log (EvRead p) (log (EvRead (MANIFEST_PATH host cfg)) w)) =
              [EvRead (MANIFEST_PATH host cfg); EvRead p]) as Hev.
      { apply new_events_app. simpl. by rewrite <- app_assoc. }
      rewrite Hev. done.
  - intros force res data Hi Hreq Hhttp Hok Hjson Htag.
    unfold acquire. rewrite run_bind.
    rewrite (run_getPackageVersion_request host env cfg pkg force w Hreq).
    rewrite Hhttp, Hok, Hjson, Htag.
    unfold cached_or_fetched. rewrite run_bind.
    rewrite (run_getCachedPackage_hit _ _ _ pkg v p (Some i) c); try done.
    + unfold truthy. rewrite decide_False by done. eexists. split; [reflexivity|].
      split_and!; try done. apply new_events_app. simpl. by rewrite <- !app_assoc.
    + by rewrite Hi.
Qed.

Lemma cache_hit_reverifies_without_download_witness :
  ((run (Demo.host false) Demo.env
      (getCachedPackage (Demo.host false) Demo.cfg "leftpad" (Some "1.0.0"))
      Demo.cached).1 = Returned (Some Demo.artifact_path) ↔
   digest_of (Demo.host false) Demo.tarball_bytes =
     "sha512-" +:+ Demo.digest Demo.tarball_bytes) ∧
  ∃ w', run (Demo.host false) Demo.env
          (acquire (Demo.host false) Demo.cfg "leftpad" false) Demo.cached =
          (Returned Demo.artifact_path, w') ∧
        new_events Demo.cached w' =
          [EvRead (MANIFEST_PATH (Demo.host false) Demo.cfg); EvRead Demo.artifact_path] ∧
        filter (fun ev => is_fetch ev = true) (new_events Demo.cached w') = [] ∧
        files w' = files Demo.cached ∧ dirs w' = dirs Demo.cached ∧
        versionCache w' = versionCache Demo.cached.
Proof.
  destruct (cache_hit_reverifies_without_download (Demo.host false) Demo.env Demo.cfg
              Demo.cached "leftpad" (Some "1.0.0") Demo.artifact_path
              ("sha512-" +:+ Demo.digest Demo.tarball_bytes) Demo.tarball_bytes)
    as (Hverified & Hcached & _).
  - vm_compute. reflexivity.
  - apply (bool_decide_unpack _). vm_compute. exact I.
  - vm_compute. reflexivity.
  - discriminate.
  - split; [exact Hverified|]. apply Hcached; vm_compute; reflexivity.
Defined.

(** * Further properties of the commands *)

(** ** Validation of names *)

Lemma all_allowed_alphabet pkg :
  all_allowed pkg = true ↔
  Forall (fun c => c ∈ name_alphabet) (String.list_ascii_of_string pkg).
Proof.
  induction pkg as [|a pkg IH]; simpl; [by split|].
  rewrite andb_true_iff, Forall_cons, IH, allowed_char_alphabet, bool_decide_eq_true.
  done.
Qed.

Lemma regex_test_valid pkg : regex_test pkg = true ↔ valid_name pkg.
Proof.
  unfold valid_name. destruct pkg as [|a pkg].
  - simpl. split; [done|]. by intros [? _].
  - unfold regex_test. rewrite all_allowed_alphabet. split; [by intros ?|by intros [_ ?]].
Qed.

(** X1. [packages.map(sanitizeInput)] succeeds exactly when every name is
    not empty and made of letters, digits, [-], [_], [@] and [/], and then
    gives the names back unchanged; otherwise it throws on the first name
    that is not, whatever comes after it. *)
Theorem sanitize_all_accepts_exactly packages :
  (∀ safe, sanitize_all packages = inr safe ↔
           safe = packages ∧ Forall valid_name packages) ∧
  (∀ good bad rest,
     packages = good ++ bad :: rest → Forall valid_name good → ¬ valid_name bad →
     sanitize_all packages = inl (Error ("Invalid package: " +:+ bad))).
Proof.
  split.
  - induction packages as [|pkg rest IH]; intros safe; simpl.
    + split; [by intros [= <-]|by intros [-> _]].
    + unfold sanitizeInput. destruct (regex_test pkg) eqn:Ht.
      * apply regex_test_valid in Ht.
        destruct (sanitize_all rest) as [e|ps] eqn:Hrest.
        -- split; [done|]. intros [-> Hall]. apply Forall_cons in Hall as [_ Hall].
           by destruct (IH rest) as [_ Hback]; specialize (Hback (conj eq_refl Hall)).
        -- destruct (IH ps) as [Hfwd _]. destruct (Hfwd eq_refl) as [-> Hall].
           split; [intros [= <-]; by split; [|constructor]|by intros [-> _]].
      * split; [done|]. intros [_ Hall]. apply Forall_cons in Hall as [Hv _].
        apply regex_test_valid in Hv. congruence.
  - intros good bad rest -> Hgood Hbad.
    induction Hgood as [|pkg good Hpkg Hgood IH]; simpl; unfold sanitizeInput.
    + destruct (regex_test bad) eqn:Ht; [|done]. by apply regex_test_valid in Ht.
    + apply regex_test_valid in Hpkg. rewrite Hpkg. unfold sanitizeInput in IH.
      simpl in IH. by rewrite IH.
Qed.

Lemma sanitize_all_accepts_exactly_witness :
  sanitize_all (["leftpad"; "@scope/name"] ++ "socket.io" :: ["../evil"]) =
    inl (Error ("Invalid package: " +:+ "socket.io")).
Proof.
  destruct (sanitize_all_accepts_exactly
              (["leftpad"; "@scope/name"] ++ "socket.io" :: ["../evil"])) as [_ Hbad].
  apply (Hbad ["leftpad"; "@scope/name"] "socket.io" ["../evil"]).
  - reflexivity.
  - repeat constructor; try discriminate;
      apply Forall_forall; intros c Hc; apply (bool_decide_unpack _);
      revert c Hc; apply Forall_forall; vm_compute; repeat constructor.
  - intros [_ Hall]. apply all_allowed_alphabet in Hall. vm_compute in Hall. discriminate.
Defined.

(** ** Running a subprocess *)

Lemma failed_attempts_S cmd j :
  failed_attempts cmd (S j) = [EvExec cmd; EvSleep 1000] ++ failed_attempts cmd j.
Proof. done. Qed.

Lemma execPromise_loop_attempts host env cfg command n : ∀ w,
  0 < n →
  ∃ j w', j < n ∧
    run host env (execPromise_loop cfg command n) w =
      (let r := shell env (trace w ++ failed_attempts (BUN_PATH cfg +:+ " " +:+ command) j)
                  (BUN_PATH cfg +:+ " " +:+ command) in
       if exec_error r then Thrown (ExecError (exec_stderr r))
       else Returned (Some (exec_stdout r, exec_stderr r)), w') ∧
    extends w w' (failed_attempts (BUN_PATH cfg +:+ " " +:+ command) j ++
                  [EvExec (BUN_PATH cfg +:+ " " +:+ command)]) ∧
    files w' = files w ∧ dirs w' = dirs w ∧ versionCache w' = versionCache w ∧
    (∀ i, i < j →
       exec_error (shell env (trace w ++ failed_attempts (BUN_PATH cfg +:+ " " +:+ command) i)
                     (BUN_PATH cfg +:+ " " +:+ command)) = true) ∧
    (exec_error (shell env (trace w ++ failed_attempts (BUN_PATH cfg +:+ " " +:+ command) j)
                   (BUN_PATH cfg +:+ " " +:+ command)) = true → S j = n).
Proof.
  set (cmd := BUN_PATH cfg +:+ " " +:+ command).
  induction n as [|n IH]; intros w Hn; [lia|].
  change (execPromise_loop cfg command (S n))
    with (try_catch (result ← await (Exec cmd); Ret (Some result))
            (fun error => match n with
                          | O => Throw error
                          | S _ => await (Sleep 1000);; execPromise_loop cfg command n
                          end)).
  rewrite run_try_catch, run_bind, run_await. simpl.
  destruct (exec_error (shell env (trace w) cmd)) eqn:Herr.
  - destruct n as [|n].
    + exists 0, (log (EvExec cmd) w). unfold failed_attempts. simpl.
      rewrite app_nil_r, Herr. split_and!; try done; lia.
    + rewrite run_bind, run_await. cbn [perform fst snd].
      destruct (IH (log (EvSleep 1000) (log (EvExec cmd) w))) as
        (j & w' & Hj & Hrun & Hext & Hf & Hd & Hc & Hfail & Hlast); [lia|].
      assert (∀ i, trace (log (EvSleep 1000) (log (EvExec cmd) w)) ++ failed_attempts cmd i
                   = trace w ++ failed_attempts cmd (S i)) as Htr.
      { intros i. rewrite failed_attempts_S. simpl. by rewrite <- !app_assoc. }
      exists (S j), w'. rewrite Hrun, <- Htr. split_and!; try done; try lia.
      * unfold extends in *. rewrite Hext, failed_attempts_S. simpl.
        by rewrite <- !app_assoc.
      * intros [|i] Hi.
        -- unfold failed_attempts. simpl. by rewrite app_nil_r.
        -- rewrite <- Htr. apply Hfail. lia.
      * intros He. apply Hlast in He. lia.
  - exists 0, (log (EvExec cmd) w). unfold failed_attempts. simpl.
    rewrite app_nil_r, Herr. split_and!; try done; lia.
Qed.

(** X2. [execPromise] runs the command at most three times, sleeping one
    second after each run that failed but the last, and does nothing
    else.  It returns the output of the first run that succeeds; when all
    three fail it throws what the third one failed with. *)
Theorem execPromise_retries host env cfg command w :
  ∃ j w', j < 3 ∧
    run host env (execPromise cfg command) w =
      (let r := shell env (trace w ++ failed_attempts (BUN_PATH cfg +:+ " " +:+ command) j)
                  (BUN_PATH cfg +:+ " " +:+ command) in
       if exec_error r then Thrown (ExecError (exec_stderr r))
       else Returned (Some (exec_stdout r, exec_stderr r)), w') ∧
    new_events w w' = failed_attempts (BUN_PATH cfg +:+ " " +:+ command) j ++
                      [EvExec (BUN_PATH cfg +:+ " " +:+ command)] ∧
    files w' = files w ∧ dirs w' = dirs w ∧ versionCache w' = versionCache w ∧
    (∀ i, i < j →
       exec_error (shell env (trace w ++ failed_attempts (BUN_PATH cfg +:+ " " +:+ command) i)
                     (BUN_PATH cfg +:+ " " +:+ command)) = true) ∧
    (exec_error (shell env (trace w ++ failed_attempts (BUN_PATH cfg +:+ " " +:+ command) j)
                   (BUN_PATH cfg +:+ " " +:+ command)) = true → j = 2).
Proof.
  destruct (execPromise_loop_attempts host env cfg command 3 w) as
    (j & w' & Hj & Hrun & Hext & Hf & Hd & Hc & Hfail & Hlast); [lia|].
  exists j, w'. split_and!; try done; [by apply extends_new_events|].
  intros He. apply Hlast in He. lia.
Qed.

(** ** The project's package.json *)

(** X3. [ensurePackageJson] never overwrites: when something is at
    [package.json] in the working directory it only checks that it is
    there; when nothing is, and the working directory exists, it writes
    the default document there, and a second call then changes nothing. *)
Theorem ensurePackageJson_creates_once host env cfg w :
  let pkgJsonPath := path_join host (cwd cfg) "package.json" in
  let text := default_package_json host (path_basename host (cwd cfg)) in
  (pkgJsonPath ∈ dirs w ∨ is_Some (files w !! pkgJsonPath) →
   run host env (ensurePackageJson host cfg) w =
     (Returned tt, log (EvAccess pkgJsonPath) w)) ∧
  (pkgJsonPath ∉ dirs w → files w !! pkgJsonPath = None →
   path_dirname host pkgJsonPath ∈ dirs w →
   ∃ w', run host env (ensurePackageJson host cfg) w = (Returned tt, w') ∧
         files w' = <[pkgJsonPath := text]> (files w) ∧
         new_events w w' = [EvAccess pkgJsonPath; EvWrite pkgJsonPath text] ∧
         run host env (ensurePackageJson host cfg) w' =
           (Returned tt, log (EvAccess pkgJsonPath) w')).
Proof.
  intros pkgJsonPath text.
  assert (∀ w0, pkgJsonPath ∈ dirs w0 ∨ is_Some (files w0 !! pkgJsonPath) →
                run host env (ensurePackageJson host cfg) w0 =
                  (Returned tt, log (EvAccess pkgJsonPath) w0)) as Hthere.
  { intros w0 H. unfold ensurePackageJson. fold pkgJsonPath.
    rewrite run_bind, run_exists_at.
    assert (bool_decide (pkgJsonPath ∈ dirs w0) ||
            bool_decide (is_Some (files w0 !! pkgJsonPath)) = true) as ->; [|done].
    apply orb_true_iff. destruct H; [left|right]; by apply bool_decide_eq_true. }
  split; [apply Hthere|].
  intros Hd Hf Hparent.
  exists (set_files (<[pkgJsonPath := text]> (files w))
            (log (EvWrite pkgJsonPath text) (log (EvAccess pkgJsonPath) w))).
  split_and!; try done.
  - unfold ensurePackageJson. fold pkgJsonPath text.
    rewrite run_bind, run_exists_at.
    rewrite (bool_decide_eq_false_2 (_ ∈ _)) by done.
    rewrite (bool_decide_eq_false_2 (is_Some _)) by (rewrite Hf; by intros [? ?]).
    simpl. rewrite run_await. simpl. unfold fs_write. simpl.
    rewrite bool_decide_eq_false_2 by done. unfold writable. simpl.
    rewrite (bool_decide_eq_true_2 (_ ∉ _)) by done.
    rewrite (bool_decide_eq_true_2 (_ ∈ _)) by done. by rewrite orb_true_r.
  - apply new_events_app. simpl. by rewrite <- app_assoc.
  - apply Hthere. right. simpl. by rewrite lookup_insert_eq.
Qed.

Lemma ensurePackageJson_creates_once_witness :
  ∃ w', run (Demo.host false) Demo.env (ensurePackageJson (Demo.host false) Demo.cfg)
          Demo.fresh = (Returned tt, w') ∧
        files w' = <["/proj/package.json" := "{ name: proj }"]> (files Demo.fresh) ∧
        new_events Demo.fresh w' =
          [EvAccess "/proj/package.json";
           EvWrite "/proj/package.json" "{ name: proj }"] ∧
        run (Demo.host false) Demo.env (ensurePackageJson (Demo.host false) Demo.cfg) w' =
          (Returned tt, log (EvAccess "/proj/package.json") w').
Proof.
  destruct (ensurePackageJson_creates_once (Demo.host false) Demo.env Demo.cfg Demo.fresh)
    as [_ Hnew].
  apply Hnew.
  - apply (bool_decide_unpack _). vm_compute. exact I.
  - vm_compute. reflexivity.
  - apply (bool_decide_unpack _). vm_compute. exact I.
Defined.

(** ** Resolution and the memory cache *)

(** X4. A version that [getPackageVersion] has returned, forced or not,
    is what it returns next time when not forced, without a request and
    without changing anything. *)
Theorem getPackageVersion_memoizes host env cfg pkg force w v w1 :
  run host env (getPackageVersion cfg pkg force) w = (Returned v, w1) →
  run host env (getPackageVersion cfg pkg false) w1 = (Returned v, w1).
Proof.
  intros Hrun. apply run_getPackageVersion_cached.
  by eapply run_getPackageVersion_returned.
Qed.

Lemma getPackageVersion_memoizes_witness :
  run (Demo.host false) Demo.env (getPackageVersion Demo.cfg "leftpad" false)
    (set_versionCache (<["leftpad" := Some "1.0.0"]> (versionCache Demo.fresh))
       (log (EvFetch "https://registry.npmjs.org/leftpad") Demo.fresh)) =
    (Returned (Some "1.0.0"),
     set_versionCache (<["leftpad" := Some "1.0.0"]> (versionCache Demo.fresh))
       (log (EvFetch "https://registry.npmjs.org/leftpad") Demo.fresh)).
Proof.
  apply (getPackageVersion_memoizes (Demo.host false) Demo.env Demo.cfg "leftpad" true
           Demo.fresh).
  vm_compute. reflexivity.
Defined.

(** X5. [getPackageVersion] sends at most one request and touches no
    file.  When it fails, the memory cache is as it was; and when forced,
    or when the name is not in the memory cache, it does send its one
    request, so that a forced call never answers from memory. *)
Theorem getPackageVersion_one_request host env cfg pkg force w :
  let url := REGISTRY_URL cfg +:+ "/" +:+ pkg in
  let w' := (run host env (getPackageVersion cfg pkg force) w).2 in
  (new_events w w' = [] ∨ new_events w w' = [EvFetch url]) ∧
  files w' = files w ∧ dirs w' = dirs w ∧
  (∀ e, (run host env (getPackageVersion cfg pkg force) w).1 = Thrown e →
        versionCache w' = versionCache w) ∧
  (force = true ∨ versionCache w !! pkg = None → new_events w w' = [EvFetch url]).
Proof.
  intros url w'. subst w'.
  destruct (decide (force = true ∨ versionCache w !! pkg = None)) as [Hreq|Hhit].
  - rewrite (run_getPackageVersion_request _ _ _ _ _ _ Hreq). fold url.
    assert (∀ (o : Outcome JsStr) (w1 : World), trace w1 = trace w ++ [EvFetch url] →
              files w1 = files w → dirs w1 = dirs w →
              (∀ e, o = Thrown e → versionCache w1 = versionCache w) →
              (new_events w (o, w1).2 = [] ∨ new_events w (o, w1).2 = [EvFetch url]) ∧
              files (o, w1).2 = files w ∧ dirs (o, w1).2 = dirs w ∧
              (∀ e, (o, w1).1 = Thrown e →
                 versionCache (o, w1).2 = versionCache w) ∧
              (force = true ∨ versionCache w !! pkg = None →
               new_events w (o, w1).2 = [EvFetch url])) as Hshape.
    { intros o w1 Htr Hf Hd Hc. simpl. rewrite (new_events_app _ _ _ Htr).
      split_and!; try done. by right. }
    destruct (http env (trace w) url) as [res|]; [|by apply Hshape].
    destruct (ok res); [|by apply Hshape].
    destruct (json res) as [data|]; [|by apply Hshape].
    destruct (dist_tags data) as [version|]; [|by apply Hshape].
    by apply Hshape.
  - destruct force; [by destruct Hhit; left|].
    destruct (versionCache w !! pkg) as [v'|] eqn:Hc; [|by destruct Hhit; right].
    rewrite (run_getPackageVersion_cached _ _ _ _ _ _ Hc). simpl.
    assert (new_events w w = []) as -> by (apply new_events_app; by rewrite app_nil_r).
    split_and!; try done. by left.
Qed.

(** ** What the operations of a program leave in the trace *)

Lemma perform_trace host env {X} (op : Op X) w :
  trace (perform host env op w).2 = trace w ++ op_events op.
Proof.
  destruct op; simpl; try done; try (by rewrite app_nil_r).
  - by repeat case_bool_decide.
  - by destruct (_ || _).
  - case_bool_decide; [done|]. by destruct (files w !! p).
  - unfold fs_write. case_bool_decide; [done|]. by destruct (writable _ _ _).
  - case_bool_decide; [done|]. by destruct (files w !! p).
  - unfold fs_write. case_bool_decide; [done|]. by destruct (writable _ _ _).
  - by destruct (files w !! p).
Qed.

Lemma run_only_events host env (P : Event → Prop) {A} (p : Prog A) :
  only_events P p →
  ∀ w, ∃ evs, extends w (run host env p w).2 evs ∧ Forall P evs.
Proof.
  induction p as [a|e| |X op k IH]; simpl; intros Hp w.
  1-3: exists []; split; [apply extends_refl|constructor].
  destruct Hp as [Hop Hk]. rewrite run_do.
  destruct (IH _ (Hk (perform host env op w).1) (perform host env op w).2)
    as (evs & Hext & Hall).
  exists (op_events op ++ evs). split.
  - unfold extends in *. by rewrite Hext, perform_trace, app_assoc.
  - by apply Forall_app.
Qed.

Lemma only_events_bind (P : Event → Prop) {A B} (p : Prog A) (f : A → Prog B) :
  only_events P p → (∀ a, only_events P (f a)) → only_events P (p ≫= f).
Proof.
  intros Hp Hf. unfold mbind, Prog_bind.
  induction p as [a|e| |X op k IH]; simpl; try done.
  destruct Hp as [Hop Hk]. split; [done|]. intros r. by apply IH.
Qed.

Lemma only_events_try_catch (P : Event → Prop) {A} (p : Prog A) (h : JsError → Prog A) :
  only_events P p → (∀ e, only_events P (h e)) → only_events P (try_catch p h).
Proof.
  intros Hp Hh.
  induction p as [a|e| |X op k IH]; simpl; try done.
  destruct Hp as [Hop Hk]. split; [done|]. intros r. by apply IH.
Qed.

Lemma only_events_await (P : Event → Prop) {X} (op : Op X) :
  Forall P (op_events op) → only_events P (await op).
Proof. intros Hop. split; [done|]. by intros [e|x]. Qed.

Lemma sanitize_all_valid packages :
  Forall valid_name packages → sanitize_all packages = inr packages.
Proof.
  induction 1 as [|pkg rest Hpkg _ IH]; [done|].
  simpl. unfold sanitizeInput. apply regex_test_valid in Hpkg. by rewrite Hpkg, IH.
Qed.

Lemma sanitize_all_invalid packages e :
  sanitize_all packages = inl e →
  ∃ bad, bad ∈ packages ∧ ¬ valid_name bad ∧ e = Error ("Invalid package: " +:+ bad).
Proof.
  induction packages as [|pkg rest IH]; simpl; [done|].
  unfold sanitizeInput. destruct (regex_test pkg) eqn:Ht.
  - destruct (sanitize_all rest) as [e'|ps]; [|done]. intros [= <-].
    destruct (IH eq_refl) as (bad & Hin & Hbad & ->).
    exists bad. split_and!; try done. by apply elem_of_cons; right.
  - intros [= <-]. exists pkg. split_and!; try done; [by apply elem_of_cons; left|].
    intros Hv. apply regex_test_valid in Hv. congruence.
Qed.

Lemma valid_names_checked packages :
  forallb regex_test packages = true → Forall valid_name packages.
Proof.
  induction packages as [|pkg rest IH]; simpl; [by constructor|].
  intros [Hpkg Hrest]%andb_true_iff. constructor; [by apply regex_test_valid|by apply IH].
Qed.

Lemma logged_nil w : logged [] w = w.
Proof. destruct w. unfold logged. simpl. by rewrite app_nil_r. Qed.

Lemma logged_log ev evs w : logged evs (log ev w) = logged (ev :: evs) w.
Proof. unfold logged, log. simpl. by rewrite <- app_assoc. Qed.

Lemma logged_eq w w' evs :
  extends w w' evs → files w' = files w → dirs w' = dirs w →
  versionCache w' = versionCache w → w' = logged evs w.
Proof.
  unfold extends, logged. destruct w'. simpl. by intros -> -> -> ->.
Qed.

(** ** Updating *)

(** X6. [updatePackages] does nothing but run one command, with the
    retries of [execPromise]: [install] with the flags when no name is
    given, [add] with the names otherwise.  It exits with code 1 when the
    command has failed three times, and, before running anything, when a
    name is not valid. *)
Theorem updatePackages_one_command host env cfg packages options w :
  let command :=
    match packages with
    | [] => "install " +:+ flags options
    | _ :: _ => "add " +:+ join " " packages +:+ " " +:+ flags options
    end in
  let cmd := BUN_PATH cfg +:+ " " +:+ command in
  (Forall valid_name packages →
   ∃ j, j < 3 ∧
     run host env (updatePackages cfg packages options) w =
       (Returned (let r := shell env (trace w ++ failed_attempts cmd j) cmd in
                  if exec_error r then Exited 1 (ExecError (exec_stderr r))
                  else Completed),
        logged (failed_attempts cmd j ++ [EvExec cmd]) w)) ∧
  (¬ Forall valid_name packages →
   ∃ bad, bad ∈ packages ∧ ¬ valid_name bad ∧
     run host env (updatePackages cfg packages options) w =
       (Returned (Exited 1 (Error ("Invalid package: " +:+ bad))), w)).
Proof.
  intros command cmd. split.
  - intros Hvalid.
    destruct (execPromise_loop_attempts host env cfg command 3 w) as
      (j & w' & Hj & Hrun & Hext & Hf & Hd & Hc & _ & _); [lia|].
    exists j. split; [done|].
    apply logged_eq in Hext; [subst w'|done..].
    unfold updatePackages.
    assert (match packages with [] => inr [] | _ :: _ => sanitize_all packages end
            = inr packages) as ->.
    { destruct packages; [done|]. by apply sanitize_all_valid. }
    rewrite run_try_catch, run_bind.
    assert (match packages with
            | [] => execPromise cfg ("install " +:+ flags options)
            | _ :: _ => execPromise cfg ("add " +:+ join " " packages +:+ " " +:+ flags options)
            end = execPromise_loop cfg command 3) as -> by (by destruct packages).
    rewrite Hrun. fold cmd. simpl.
    by destruct (exec_error (shell env (trace w ++ failed_attempts cmd j) cmd)).
  - intros Hinvalid. unfold updatePackages.
    destruct packages as [|pkg rest]; [by destruct Hinvalid|].
    destruct (sanitize_all (pkg :: rest)) as [e|safe] eqn:Hs.
    + destruct (sanitize_all_invalid _ _ Hs) as (bad & Hin & Hbad & ->).
      by exists bad.
    + destruct Hinvalid.
      destruct (sanitize_all (pkg :: rest)) as [e|safe'] eqn:Hs'; [done|].
      clear Hs. revert safe' Hs'. generalize (pkg :: rest). clear.
      induction l as [|p l IH]; simpl; [by constructor|].
      unfold sanitizeInput. destruct (regex_test p) eqn:Ht; [|done].
      destruct (sanitize_all l) as [e|ps]; [done|]. intros _ _.
      constructor; [by apply regex_test_valid|by eapply IH].
Qed.

Lemma updatePackages_one_command_witness :
  ∃ j, j < 3 ∧
    run (Demo.host false) Demo.env
      (updatePackages Demo.cfg ["leftpad"; "@scope/name"] Demo.options) Demo.fresh =
      (Returned Completed,
       logged (failed_attempts "bun add leftpad @scope/name   " j ++
               [EvExec "bun add leftpad @scope/name   "]) Demo.fresh).
Proof.
  destruct (updatePackages_one_command (Demo.host false) Demo.env Demo.cfg
              ["leftpad"; "@scope/name"] Demo.options Demo.fresh) as [Hvalid _].
  apply Hvalid. apply valid_names_checked. vm_compute. reflexivity.
Defined.

(** ** Uninstalling *)

Lemma run_partition_installed host env targetDir pkgs : ∀ w,
  run host env (partition_installed host targetDir pkgs) w =
    (Returned (filter (installed_at host targetDir w) pkgs,
               filter (fun pkg => ¬ installed_at host targetDir w pkg) pkgs),
     logged ((fun pkg => EvAccess (path_join host targetDir pkg)) <$> pkgs) w).
Proof.
  induction pkgs as [|pkg rest IH]; intros w.
  - simpl. by rewrite run_ret, logged_nil.
  - simpl. rewrite run_bind, run_exists_at. rewrite run_bind, IH, logged_log.
    change (installed_at host targetDir (log (EvAccess (path_join host targetDir pkg)) w))
      with (installed_at host targetDir w).
    rewrite !filter_cons.
    destruct (decide (installed_at host targetDir w pkg)) as [Hin|Hout].
    + rewrite decide_False by (by intros Hn).
      assert (bool_decide (path_join host targetDir pkg ∈ dirs w) ||
              bool_decide (is_Some (files w !! path_join host targetDir pkg)) = true)
        as ->; [|done].
      apply orb_true_iff. destruct Hin; [left|right]; by apply bool_decide_eq_true.
    + rewrite decide_True by done.
      assert (bool_decide (path_join host targetDir pkg ∈ dirs w) ||
              bool_decide (is_Some (files w !! path_join host targetDir pkg)) = false)
        as ->; [|done].
      apply orb_false_iff. split; apply bool_decide_eq_false; intros ?; apply Hout;
        [by left|by right].
Qed.

(** X7. [uninstallPackages], given valid names, looks for each of them
    under the target directory, in the order asked.  When none is there it
    stops at that: no command is run.  Otherwise it runs one [remove]
    command, with the retries of [execPromise], that names exactly the
    packages found, in the order asked; when the command has failed three
    times it ends by the [catch], and when it has succeeded it looks for
    each of the packages it named once more. *)
Theorem uninstallPackages_removes_what_is_there host env cfg GLOBAL_DIR packages options w :
  let targetDir := target_dir host cfg GLOBAL_DIR options in
  let check := fun pkg => EvAccess (path_join host targetDir pkg) in
  let existing := filter (installed_at host targetDir w) packages in
  let cmd := BUN_PATH cfg +:+ " " +:+
             ("remove " +:+ join " " existing +:+ " " +:+
              (if opt_global options then "-g" else EmptyString)) in
  Forall valid_name packages →
  (existing = [] →
   run host env (uninstallPackages host cfg GLOBAL_DIR packages options) w =
     (Returned NothingToUninstall, logged (check <$> packages) w)) ∧
  (existing ≠ [] →
   ∃ j out w', j < 3 ∧
     run host env (uninstallPackages host cfg GLOBAL_DIR packages options) w =
       (Returned out, w') ∧
     let r := shell env (trace w ++ (check <$> packages) ++ failed_attempts cmd j) cmd in
     new_events w w' =
       (check <$> packages) ++ failed_attempts cmd j ++ [EvExec cmd] ++
       (if exec_error r then [] else check <$> existing) ∧
     (exec_error r = true → out = UninstallFailed (ExecError (exec_stderr r))) ∧
     (exec_error r = false → out ≠ NothingToUninstall ∧ ∀ e, out ≠ UninstallFailed e)).
Proof.
  intros targetDir check existing cmd Hvalid.
  unfold uninstallPackages. rewrite (sanitize_all_valid _ Hvalid). fold targetDir.
  rewrite run_try_catch, run_bind, run_partition_installed. fold check existing.
  split.
  - by intros ->.
  - intros Hne.
    assert (∀ (a b : Prog UninstallOutcome),
              match existing with [] => a | _ :: _ => b end = b) as ->
      by (intros a b; by destruct existing).
    set (command := "remove " +:+ join " " existing +:+ " " +:+
                    (if opt_global options then "-g" else EmptyString)) in *.
    destruct (execPromise_loop_attempts host env cfg command 3
                (logged (check <$> packages) w)) as
      (j & w1 & Hj & Hrun & Hext & Hf & Hd & Hc & _ & _); [lia|].
    fold cmd in Hrun, Hext.
    change (trace (logged (check <$> packages) w))
      with (trace w ++ (check <$> packages)) in Hrun.
    rewrite <- app_assoc in Hrun. cbv zeta in Hrun.
    exists j.
    change (run host env (execPromise cfg command;;
              '(stillExisting, _) ← partition_installed host targetDir existing;
              match stillExisting with
              | [] => Ret (Uninstalled existing)
              | _ :: _ => Ret (StillInstalled stillExisting)
              end) (logged (check <$> packages) w))
      with (run host env (execPromise_loop cfg command 3 ≫= fun _ =>
              '(stillExisting, _) ← partition_installed host targetDir existing;
              match stillExisting with
              | [] => Ret (Uninstalled existing)
              | _ :: _ => Ret (StillInstalled stillExisting)
              end) (logged (check <$> packages) w)).
    rewrite run_bind, Hrun.
    destruct (exec_error (shell env (trace w ++ (check <$> packages) ++
                                     failed_attempts cmd j) cmd)) eqn:Herr.
    + eexists _, w1. split; [done|]. split; [reflexivity|]. split_and!; try done.
      apply new_events_app. unfold extends in Hext. rewrite Hext. simpl.
      by rewrite <- !app_assoc.
    + rewrite run_bind, run_partition_installed.
      assert (new_events w (logged (check <$> existing) w1) =
              (check <$> packages) ++ failed_attempts cmd j ++ [EvExec cmd] ++
              (check <$> existing)) as Hevents.
      { apply new_events_app. simpl. unfold extends in Hext. rewrite Hext. simpl.
        by rewrite <- !app_assoc. }
      destruct (filter (installed_at host targetDir w1) existing) as [|s l];
        [exists (Uninstalled existing)|exists (StillInstalled (s :: l))];
        (eexists; split; [done|]; split; [reflexivity|]; by split_and!).
Qed.

Lemma uninstallPackages_removes_what_is_there_witness :
  ∃ j out w', j < 3 ∧
    run (Demo.host false) Demo.env
      (uninstallPackages (Demo.host false) Demo.cfg "/global" ["lodash"; "leftpad"]
         Demo.options)
      {| files := ∅; dirs := {[ "/proj"; "/proj/node_modules/leftpad" ]};
         versionCache := ∅; trace := [] |} = (Returned out, w') ∧
    ∃ rest,
      trace w' =
        [EvAccess "/proj/node_modules/lodash"; EvAccess "/proj/node_modules/leftpad"] ++
        failed_attempts "bun remove leftpad " j ++ [EvExec "bun remove leftpad "] ++ rest.
Proof.
  destruct (uninstallPackages_removes_what_is_there (Demo.host false) Demo.env Demo.cfg
              "/global" ["lodash"; "leftpad"] Demo.options
              {| files := ∅; dirs := {[ "/proj"; "/proj/node_modules/leftpad" ]};
                 versionCache := ∅; trace := [] |}) as [_ Hsome].
  - apply valid_names_checked. vm_compute. reflexivity.
  - destruct Hsome as (j & out & w' & Hj & Hrun & Hev & _).
    + vm_compute. discriminate.
    + exists j, out, w'. split; [exact Hj|]. split; [exact Hrun|].
      eexists. unfold new_events in Hev. simpl in Hev. rewrite drop_0 in Hev. exact Hev.
Defined.

(** ** Looking an artifact up in the cache *)

Lemma log_log_logged a b w : log b (log a w) = logged [a; b] w.
Proof. by rewrite <- (logged_nil (log b (log a w))), !logged_log. Qed.

Lemma run_getCachedPackage_gone host env cfg pkg v w entry p :
  manifest_of host cfg w !! manifest_key pkg v = Some entry →
  me_path entry = Some p → p ∉ dirs w → files w !! p = None →
  run host env (getCachedPackage host cfg pkg v) w =
    (Thrown (FsError ENOENT p), logged [EvRead (MANIFEST_PATH host cfg); EvRead p] w).
Proof.
  intros Hm Hp Hd Hf. unfold getCachedPackage.
  rewrite run_bind, run_loadManifest, Hm. simpl. rewrite Hp.
  rewrite run_bind, run_await. simpl.
  rewrite bool_decide_eq_false_2 by done. rewrite Hf. simpl.
  by rewrite log_log_logged.
Qed.

(** X8. An entry whose file is gone is not repaired.  [getCachedPackage]
    throws the ENOENT of its read; line 150 then does not get to
    [cachePackage], so nothing is fetched; and as no file and no entry
    has changed, the next call fails in the same way. *)
Theorem missing_file_is_not_refetched host env cfg pkg v w entry p :
  manifest_of host cfg w !! manifest_key pkg v = Some entry →
  me_path entry = Some p → p ∉ dirs w → files w !! p = None →
  let w' := logged [EvRead (MANIFEST_PATH host cfg); EvRead p] w in
  run host env (cached_or_fetched host cfg pkg v) w = (Thrown (FsError ENOENT p), w') ∧
  run host env (cached_or_fetched host cfg pkg v) w' =
    (Thrown (FsError ENOENT p), logged [EvRead (MANIFEST_PATH host cfg); EvRead p] w').
Proof.
  intros Hm Hp Hd Hf w'.
  assert (∀ w0, files w0 = files w → dirs w0 = dirs w →
            run host env (cached_or_fetched host cfg pkg v) w0 =
              (Thrown (FsError ENOENT p),
               logged [EvRead (MANIFEST_PATH host cfg); EvRead p] w0)) as Hrun.
  { intros w0 Hf0 Hd0. unfold cached_or_fetched.
    rewrite run_bind, (run_getCachedPackage_gone _ _ _ _ _ _ entry p); try done.
    - unfold manifest_of. by rewrite Hf0, Hd0.
    - by rewrite Hd0.
    - by rewrite Hf0. }
  split; by apply Hrun.
Qed.

Lemma missing_file_is_not_refetched_witness :
  run (Demo.host true) Demo.env
    (cached_or_fetched (Demo.host true) Demo.cfg "leftpad" (Some "1.0.0"))
    Demo.file_missing =
    (Thrown (FsError ENOENT Demo.artifact_path),
     logged [EvRead Demo.manifest_path; EvRead Demo.artifact_path] Demo.file_missing).
Proof.
  apply (missing_file_is_not_refetched (Demo.host true) Demo.env Demo.cfg "leftpad"
           (Some "1.0.0") Demo.file_missing Demo.leftpad_entry Demo.artifact_path).
  - vm_compute. reflexivity.
  - reflexivity.
  - apply (bool_decide_unpack _). vm_compute. exact I.
  - vm_compute. reflexivity.
Defined.

(** X9. [getCachedPackage] touches the manifest document and the file its
    entry names, and nothing else: it reads the manifest, then the file,
    and, when it goes on, unlinks that file and writes the manifest
    without the entry; with no entry it only reads the manifest.  Every
    other file, the directories and the memory cache are as they were. *)
Theorem getCachedPackage_touches_only_its_entry host env cfg pkg v w :
  let m := manifest_of host cfg w in
  let key := manifest_key pkg v in
  let M := MANIFEST_PATH host cfg in
  let w' := (run host env (getCachedPackage host cfg pkg v) w).2 in
  new_events w w' `prefix_of`
    match m !! key ≫= me_path with
    | None => [EvRead M]
    | Some p => [EvRead M; EvRead p; EvUnlink p;
                 EvWrite M (JSON_stringify host (delete key m))]
    end ∧
  (∀ q, q ≠ M → m !! key ≫= me_path ≠ Some q → files w' !! q = files w !! q) ∧
  dirs w' = dirs w ∧ versionCache w' = versionCache w.
Proof.
  intros m key M w'. subst w'. unfold getCachedPackage.
  rewrite run_bind, run_loadManifest. fold m key M.
  destruct (m !! key) as [[[p|] integ]|] eqn:Hm; simpl.
  - rewrite run_bind, run_await. simpl.
    case_bool_decide as Hd; simpl.
    { split_and!; try done. rewrite (new_events_app _ _ [EvRead M; EvRead p]).
      - by eexists. 
      - simpl. by rewrite <- app_assoc. }
    destruct (files w !! p) as [c|] eqn:Hf; simpl.
    2:{ split_and!; try done. rewrite (new_events_app _ _ [EvRead M; EvRead p]).
        - by eexists. 
        - simpl. by rewrite <- app_assoc. }
    destruct (decide (Some (digest_of host c) ≠ integ)) as [Hne|Heq].
    2:{ split_and!; try done. rewrite (new_events_app _ _ [EvRead M; EvRead p]).
        - by eexists. 
        - simpl. by rewrite <- app_assoc. }
    rewrite run_bind, (run_evict_present _ _ _ c) by done. rewrite run_bind.
    match goal with
    | |- context [run host env (saveManifest host cfg ?m0) ?w0] =>
        destruct (run_saveManifest_cases host env cfg m0 w0) as [[_ ->]|[e ->]]
    end; simpl.
    + split_and!; try done.
      * rewrite (new_events_app _ _ [EvRead M; EvRead p; EvUnlink p;
                   EvWrite M (JSON_stringify host (delete key m))]); [done|].
        simpl. by rewrite <- !app_assoc.
      * intros q HqM Hqp. rewrite lookup_insert_ne by done.
        rewrite lookup_delete_ne; [done|]. intros ->. by apply Hqp.
    + split_and!; try done.
      * rewrite (new_events_app _ _ [EvRead M; EvRead p; EvUnlink p;
                   EvWrite M (JSON_stringify host (delete key m))]); [done|].
        simpl. by rewrite <- !app_assoc.
      * intros q HqM Hqp. rewrite lookup_delete_ne; [done|]. intros ->. by apply Hqp.
  - split_and!; try done. rewrite (new_events_app _ _ [EvRead M]); done.
  - split_and!; try done. rewrite (new_events_app _ _ [EvRead M]); done.
Qed.

(** ** Cleaning the cache directory *)

Lemma run_clean_files host env cfg m names : ∀ w out w',
  run host env (clean_files host cfg m names) w = (out, w') →
  dirs w' = dirs w ∧ versionCache w' = versionCache w ∧
  (∀ q, registered_path m q = true → files w' !! q = files w !! q) ∧
  (∀ q, files w' !! q = None ∨ files w' !! q = files w !! q) ∧
  (∀ q, q ∉ (path_join host (CACHE_DIR cfg) <$> names) → files w' !! q = files w !! q) ∧
  (out = Returned tt →
   ∀ n, n ∈ names → registered_path m (path_join host (CACHE_DIR cfg) n) = false →
        files w' !! path_join host (CACHE_DIR cfg) n = None ∧
        path_join host (CACHE_DIR cfg) n ∉ dirs w).
Proof.
  induction names as [|file rest IH]; intros w out w'.
  - simpl. rewrite run_ret. intros [= <- <-]. split_and!; try done; [by right|].
    intros _ n Hn. by apply elem_of_nil in Hn.
  - simpl. set (filePath := path_join host (CACHE_DIR cfg) file).
    rewrite run_bind.
    destruct (registered_path m filePath) eqn:Hreg; simpl.
    + intros Hrun.
      destruct (IH _ _ _ Hrun) as (Hd & Hc & Hkeep & Hmono & Hout & Hdone).
      split_and!; try done.
      * intros q Hq. apply Hout. intros Hin. apply Hq. by apply elem_of_cons; right.
      * intros Hret n [->|Hn]%elem_of_cons Hn'; [fold filePath in Hn'; congruence|].
        by apply Hdone.
    + rewrite run_await. simpl. case_bool_decide as Hdir; simpl.
      { intros [= <- <-]. split_and!; try done. by right. }
      destruct (files w !! filePath) as [c|] eqn:Hf; simpl.
      2:{ intros [= <- <-]. split_and!; try done. by right. }
      intros Hrun.
      destruct (IH _ _ _ Hrun) as (Hd & Hc & Hkeep & Hmono & Hout & Hdone).
      simpl in *. split_and!; try done.
      * intros q Hq. rewrite (Hkeep q Hq). apply lookup_delete_ne. intros <-. congruence.
      * intros q. destruct (Hmono q) as [Hq|Hq]; [by left|]. rewrite Hq.
        destruct (decide (filePath = q)) as [<-|Hne].
        -- left. apply lookup_delete_eq.
        -- right. by apply lookup_delete_ne.
      * intros q Hq. rewrite Hout.
        -- apply lookup_delete_ne. intros <-. apply Hq. by apply elem_of_cons; left.
        -- intros Hin. apply Hq. by apply elem_of_cons; right.
      * intros Hret n [->|Hn]%elem_of_cons Hn'.
        -- fold filePath. split; [|done].
           destruct (Hmono filePath) as [Hq|Hq]; [done|].
           rewrite Hq. apply lookup_delete_eq.
        -- destruct (Hdone Hret n Hn Hn') as [? ?]. done.
Qed.

Lemma cleanCache_completed host env cfg w w' :
  cleanCache host env cfg w = (Completed, w') →
  ∃ names,
    readdir host (CACHE_DIR cfg) w = inr names ∧
    run host env (clean_files host cfg (manifest_of host cfg w) names)
      (log (EvRead (MANIFEST_PATH host cfg)) w) = (Returned tt, w').
Proof.
  unfold cleanCache. rewrite run_loadManifest.
  change (readdir host (CACHE_DIR cfg) (log (EvRead (MANIFEST_PATH host cfg)) w))
    with (readdir host (CACHE_DIR cfg) w).
  destruct (readdir host (CACHE_DIR cfg) w) as [e|names]; [done|].
  destruct (run host env (clean_files host cfg _ names) _) as [[[]|e|] w2] eqn:Hrun;
    [|done..].
  intros [= <-]. by exists names.
Qed.

Lemma readdir_lists host p w names q :
  readdir host p w = inr names →
  q ∈ dom (files w) ∪ dirs w → path_dirname host q = p → q ≠ p →
  path_basename host q ∈ names.
Proof.
  unfold readdir. destruct (bool_decide (p ∈ dirs w)); [|done].
  intros [= <-] Hin Hdir Hne.
  apply list_elem_of_fmap. exists q. split; [done|].
  apply list_elem_of_filter. split; [done|]. by apply elem_of_elements.
Qed.

(** X10. When [cleanCache] completes, every file directly in the cache
    directory that no entry of the manifest names as its path is gone
    (and none of them was a directory), every file that an entry names is
    as it was, no file has been created or changed, and the directories
    are as they were. *)
Theorem cleanCache_removes_unregistered host env cfg w w' :
  cleanCache host env cfg w = (Completed, w') →
  dirs w' = dirs w ∧ versionCache w' = versionCache w ∧
  (∀ q, registered_path (manifest_of host cfg w) q = true → files w' !! q = files w !! q) ∧
  (∀ q, files w' !! q = None ∨ files w' !! q = files w !! q) ∧
  (∀ q, path_dirname host q = CACHE_DIR cfg → q ≠ CACHE_DIR cfg →
        path_join host (CACHE_DIR cfg) (path_basename host q) = q →
        registered_path (manifest_of host cfg w) q = false →
        files w' !! q = None ∧ q ∉ dirs w).
Proof.
  intros Hclean. destruct (cleanCache_completed _ _ _ _ _ Hclean) as (names & Hnames & Hrun).
  destruct (run_clean_files _ _ _ _ _ _ _ _ Hrun) as (Hd & Hc & Hkeep & Hmono & _ & Hdone).
  simpl in *. split_and!; try done.
  intros q Hq Hne Hjoin Hreg.
  destruct (decide (q ∈ dom (files w) ∪ dirs w)) as [Hin|Hout].
  - rewrite <- Hjoin. rewrite <- Hjoin in Hreg. apply (Hdone eq_refl); [|done].
    by apply (readdir_lists host (CACHE_DIR cfg) w).
  - split.
    + destruct (Hmono q) as [?|Hsame]; [done|]. rewrite Hsame.
      apply not_elem_of_dom. intros ?. apply Hout. by apply elem_of_union_l.
    + intros ?. apply Hout. by apply elem_of_union_r.
Qed.

Lemma cleanCache_removes_unregistered_witness :
  files (cleanCache (Demo.host false) Demo.env Demo.cfg
           (set_files (<["/cache/old.tgz" := "old"]> (files Demo.cached)) Demo.cached)).2
    !! "/cache/old.tgz" = None ∧
  files (cleanCache (Demo.host false) Demo.env Demo.cfg
           (set_files (<["/cache/old.tgz" := "old"]> (files Demo.cached)) Demo.cached)).2
    !! Demo.artifact_path = Some Demo.tarball_bytes.
Proof.
  destruct (cleanCache_removes_unregistered (Demo.host false) Demo.env Demo.cfg
              (set_files (<["/cache/old.tgz" := "old"]> (files Demo.cached)) Demo.cached)
              (cleanCache (Demo.host false) Demo.env Demo.cfg
                 (set_files (<["/cache/old.tgz" := "old"]> (files Demo.cached))
                    Demo.cached)).2)
    as (_ & _ & Hkeep & _ & Hgone).
  - vm_compute. reflexivity.
  - split.
    + apply (Hgone "/cache/old.tgz"); vm_compute; try reflexivity. discriminate.
    + rewrite (Hkeep Demo.artifact_path); vm_compute; reflexivity.
Defined.

(** X11. The manifest document is itself a file of the cache directory,
    and no entry names it: when [cleanCache] completes it has deleted the
    manifest.  The artifacts the manifest named are kept, but every
    lookup in the cache from then on finds no entry. *)
Theorem cleanCache_forgets_every_entry host env cfg w w' :
  cleanCache host env cfg w = (Completed, w') →
  path_dirname host (MANIFEST_PATH host cfg) = CACHE_DIR cfg →
  path_basename host (MANIFEST_PATH host cfg) = "cache-manifest.json" →
  MANIFEST_PATH host cfg ≠ CACHE_DIR cfg →
  registered_path (manifest_of host cfg w) (MANIFEST_PATH host cfg) = false →
  files w' !! MANIFEST_PATH host cfg = None ∧
  manifest_of host cfg w' = ∅ ∧
  (∀ key entry p, manifest_of host cfg w !! key = Some entry → me_path entry = Some p →
                  files w' !! p = files w !! p) ∧
  (∀ pkg v, run host env (getCachedPackage host cfg pkg v) w' =
              (Returned None, log (EvRead (MANIFEST_PATH host cfg)) w')).
Proof.
  intros Hclean Hdir Hbase Hne Hreg.
  destruct (cleanCache_completed _ _ _ _ _ Hclean) as (names & Hnames & Hrun).
  destruct (run_clean_files _ _ _ _ _ _ _ _ Hrun) as (Hd & _ & Hkeep & Hmono & _ & Hdone).
  simpl in *.
  assert (files w' !! MANIFEST_PATH host cfg = None) as Hf.
  { destruct (files w !! MANIFEST_PATH host cfg) as [text|] eqn:Hthere.
    - apply (Hdone eq_refl "cache-manifest.json"); [|done].
      rewrite <- Hbase. apply (readdir_lists host (CACHE_DIR cfg) w); try done.
      apply elem_of_union_l, elem_of_dom. by rewrite Hthere.
    - destruct (Hmono (MANIFEST_PATH host cfg)) as [?|Hsame]; [done|].
      by rewrite Hsame. }
  assert (manifest_of host cfg w' = ∅) as Hm.
  { unfold manifest_of. rewrite Hf. by case_bool_decide. }
  split_and!; try done.
  - intros key entry p Hentry Hp. apply Hkeep. unfold registered_path.
    apply existsb_exists. exists entry. split; [|by apply bool_decide_eq_true].
    apply list_elem_of_In, list_elem_of_fmap. exists (key, entry).
    split; [done|]. by apply elem_of_map_to_list.
  - intros pkg v. unfold getCachedPackage. rewrite run_bind, run_loadManifest, Hm.
    by rewrite lookup_empty.
Qed.

Lemma cleanCache_forgets_every_entry_witness :
  files (cleanCache (Demo.host false) Demo.env Demo.cfg Demo.cached).2
    !! Demo.manifest_path = None ∧
  files (cleanCache (Demo.host false) Demo.env Demo.cfg Demo.cached).2
    !! Demo.artifact_path = Some Demo.tarball_bytes ∧
  run (Demo.host false) Demo.env
    (getCachedPackage (Demo.host false) Demo.cfg "leftpad" (Some "1.0.0"))
    (cleanCache (Demo.host false) Demo.env Demo.cfg Demo.cached).2 =
    (Returned None,
     log (EvRead Demo.manifest_path)
       (cleanCache (Demo.host false) Demo.env Demo.cfg Demo.cached).2).
Proof.
  destruct (cleanCache_forgets_every_entry (Demo.host false) Demo.env Demo.cfg Demo.cached
              (cleanCache (Demo.host false) Demo.env Demo.cfg Demo.cached).2)
    as (Hgone & _ & Hkept & Hmiss).
  - vm_compute. reflexivity.
  - vm_compute. reflexivity.
  - vm_compute. reflexivity.
  - discriminate.
  - vm_compute. reflexivity.
  - split; [exact Hgone|]. split; [|apply Hmiss].
    rewrite (Hkept "leftpad@1.0.0" Demo.leftpad_entry Demo.artifact_path);
      vm_compute; reflexivity.
Defined.

(** X12. Where nothing is at the cache directory, [cleanCache] fails: the
    manifest is taken as empty, the listing of the directory throws, and
    the process exits with code 1 without having deleted anything. *)
Theorem cleanCache_without_cache_dir host env cfg w :
  CACHE_DIR cfg ∉ dirs w → files w !! CACHE_DIR cfg = None →
  cleanCache host env cfg w =
    (Exited 1 (FsError ENOENT (CACHE_DIR cfg)), log (EvRead (MANIFEST_PATH host cfg)) w).
Proof.
  intros Hd _. unfold cleanCache. rewrite run_loadManifest. unfold readdir. simpl.
  by rewrite bool_decide_eq_false_2.
Qed.

Lemma cleanCache_without_cache_dir_witness :
  cleanCache (Demo.host false) Demo.env Demo.cfg Demo.fresh =
    (Exited 1 (FsError ENOENT "/cache"), log (EvRead Demo.manifest_path) Demo.fresh).
Proof.
  apply (cleanCache_without_cache_dir (Demo.host false) Demo.env Demo.cfg Demo.fresh).
  - apply (bool_decide_unpack _). vm_compute. exact I.
  - vm_compute. reflexivity.
Defined.

(** ** The tasks of an installation *)

Lemma returns_in_bind {A B} (Q : B → Prop) (p : Prog A) (f : A → Prog B) :
  (∀ a, returns_in Q (f a)) → returns_in Q (p ≫= f).
Proof.
  intros Hf. unfold mbind, Prog_bind.
  induction p as [a|e| |X op k IH]; simpl; try done.
Qed.

Lemma install_task_returns_its_name host cfg options pkg :
  returns_in (eq pkg) (install_task host cfg options pkg).
Proof.
  unfold install_task. apply returns_in_bind. intros cachePath.
  apply returns_in_bind. intros _. reflexivity.
Qed.

Lemma settle_returns_in host env {A} (Q : A → Prop) (p : Prog A) : ∀ w,
  returns_in Q p → returns_in Q (settle host env p w).1.
Proof.
  induction p as [a|e| |X op k IH]; intros w Hp; simpl; try done.
  destruct (is_sync op); [|done].
  destruct (perform host env op w) as [r w1]. apply IH, Hp.
Qed.

Lemma start_all_returns_in host env {A} (tasks : list (Prog A)) (names : list A) : ∀ w,
  Forall2 (fun name p => returns_in (eq name) p) names tasks →
  Forall2 (fun name p => returns_in (eq name) p) names (start_all host env tasks w).1.
Proof.
  intros w Hall. revert w.
  induction Hall as [|name p names tasks Hp _ IH]; intros w; simpl; [constructor|].
  pose proof (settle_returns_in host env (eq name) p w Hp) as Hs.
  destruct (settle host env p w) as [p' w1].
  specialize (IH w1). destruct (start_all host env tasks w1) as [rest' w2].
  by constructor.
Qed.

Lemma pool_step_returns_in host env {A} i (pool : list (Prog A)) (names : list A) w :
  Forall2 (fun name p => returns_in (eq name) p) names pool →
  Forall2 (fun name p => returns_in (eq name) p) names (pool_step host env i pool w).1.
Proof.
  intros Hall. unfold pool_step.
  destruct (pool !! i) as [[a|e| |X op k]|] eqn:Hi; try done.
  destruct (Forall2_lookup_r _ _ _ _ _ Hall Hi) as (name & Hname & Hp).
  simpl in Hp.
  pose proof (settle_returns_in host env (eq name) _ (perform host env op w).2
                (Hp (perform host env op w).1)) as Hs.
  destruct (perform host env op w) as [r w1]. simpl in Hs.
  destruct (settle host env (k r) w1) as [p' w2]. simpl in *.
  rewrite <- (list_insert_id names i name Hname). by apply Forall2_insert.
Qed.

Lemma run_pool_returns_in host env {A} sched : ∀ (pool : list (Prog A)) (names : list A) w,
  Forall2 (fun name p => returns_in (eq name) p) names pool →
  Forall2 (fun name p => returns_in (eq name) p) names (run_pool host env sched pool w).1.
Proof.
  induction sched as [|i sched IH]; intros pool names w Hall; simpl; [done|].
  destruct (existsb is_thrown pool); [done|].
  pose proof (pool_step_returns_in host env i pool names w Hall) as Hs.
  destruct (pool_step host env i pool w) as [pool' w']. by apply IH.
Qed.

Lemma promise_all_returned {A} (pool : list (Prog A)) (names results : list A) :
  Forall2 (fun name p => returns_in (eq name) p) names pool →
  promise_all pool = Returned results → results = names.
Proof.
  intros Hall. unfold promise_all.
  destruct (List.find is_thrown pool) as [[a|e| |X op k]|];
    try done; (destruct (mapM returned_value pool) as [rs|] eqn:Hm; [|done]);
    intros [= <-]; apply mapM_Some in Hm; clear -Hall Hm;
    revert rs Hm; induction Hall as [|name p names pool Hp _ IH]; intros rs Hm;
    inversion Hm as [|? r ? rs' Hr Hrs]; subst; try done;
    destruct p; try done; simpl in *; injection Hr as <-; rewrite <- Hp;
    f_equal; by apply IH.
Qed.

(** X13. What [installPackages] does after [ensurePackageJson] is what
    its tasks do, and nothing more.  A task that returns returns its own
    name, and a valid name is not empty: so when all tasks have returned,
    [cached] is the whole list, [uncached] is empty, and the [add] of
    lines 157-162 for the uncached packages is never run. *)
Theorem installPackages_is_its_tasks host env cfg packages options sched w w1 pool0 w2 pool w3 :
  Forall valid_name packages →
  run host env (if opt_global options then Ret tt else ensurePackageJson host cfg) w =
    (Returned tt, w1) →
  start_all host env (map (install_task host cfg options) packages) w1 = (pool0, w2) →
  run_pool host env sched pool0 w2 = (pool, w3) →
  (∀ results, promise_all pool = Returned results →
     results = packages ∧
     filter (fun pkg => pkg ∉ filter (fun pkg => truthy pkg = true) results) packages = []) ∧
  installPackages host env cfg packages options sched w =
    (match promise_all pool with
     | Returned _ => Completed
     | Thrown e => Exited 1 e
     | Pending => Unsettled
     end, w3).
Proof.
  intros Hvalid Hensure Hstart Hpool.
  assert (Forall2 (fun name p => returns_in (eq name) p) packages pool) as Hinv.
  { replace pool with (run_pool host env sched pool0 w2).1 by (by rewrite Hpool).
    apply run_pool_returns_in.
    replace pool0 with
      (start_all host env (map (install_task host cfg options) packages) w1).1
      by (by rewrite Hstart).
    apply start_all_returns_in. clear.
    induction packages as [|pkg rest IH]; simpl; constructor; [|done].
    apply install_task_returns_its_name. }
  assert (∀ results, promise_all pool = Returned results →
            results = packages ∧
            filter (fun pkg => pkg ∉ filter (fun pkg => truthy pkg = true) results)
              packages = []) as Hresults.
  { intros results Hres. pose proof (promise_all_returned _ _ _ Hinv Hres) as ->.
    split; [done|].
    assert (filter (fun pkg => truthy pkg = true) packages = packages) as ->.
    { clear -Hvalid. induction Hvalid as [|pkg rest [Hne _] _ IH]; [done|].
      assert (truthy pkg = true) as Ht by (unfold truthy; by destruct (decide _)).
      by rewrite filter_cons, IH, decide_True. }
    assert (∀ l, (∀ pkg, pkg ∈ l → pkg ∈ packages) →
                 filter (fun pkg => pkg ∉ packages) l = []) as Hnone.
    { clear. induction l as [|pkg rest IH]; intros Hin; [done|].
      rewrite filter_cons, decide_False.
      - apply IH. intros pkg' Hpkg'. apply Hin. by apply elem_of_cons; right.
      - intros Hout. apply Hout, Hin. by apply elem_of_cons; left. }
    by apply Hnone. }
  split; [done|].
  unfold installPackages. rewrite (sanitize_all_valid _ Hvalid), Hensure, Hstart, Hpool.
  destruct (promise_all pool) as [results|e|] eqn:Hres; try done.
  destruct (Hresults results eq_refl) as [_ ->]. done.
Qed.

Lemma installPackages_is_its_tasks_witness :
  installPackages (Demo.host true) Demo.env Demo.cfg ["leftpad"] Demo.options
    (replicate 20 0) Demo.fresh =
    (Completed,
     (run_pool (Demo.host true) Demo.env (replicate 20 0)
        (start_all (Demo.host true) Demo.env
           (map (install_task (Demo.host true) Demo.cfg Demo.options) ["leftpad"])
           (run (Demo.host true) Demo.env
              (ensurePackageJson (Demo.host true) Demo.cfg) Demo.fresh).2).1
        (start_all (Demo.host true) Demo.env
           (map (install_task (Demo.host true) Demo.cfg Demo.options) ["leftpad"])
           (run (Demo.host true) Demo.env
              (ensurePackageJson (Demo.host true) Demo.cfg) Demo.fresh).2).2).2).
Proof.
  destruct (installPackages_is_its_tasks (Demo.host true) Demo.env Demo.cfg ["leftpad"]
              Demo.options (replicate 20 0) Demo.fresh
              (run (Demo.host true) Demo.env
                 (ensurePackageJson (Demo.host true) Demo.cfg) Demo.fresh).2
              _ _ _ _
              (valid_names_checked ["leftpad"] eq_refl)
              eq_refl
              (surjective_pairing _) (surjective_pairing _)) as [_ Hrun].
  rewrite Hrun. f_equal.
Defined.

(** ** The ledger of cached artifacts *)

Lemma fs_write_dirs host p data w r w' :
  fs_write host p data w = (r, w') → dirs w' = dirs w.
Proof.
  unfold fs_write. case_bool_decide; [by intros [= _ <-]|].
  by destruct (writable host p w); intros [= _ <-].
Qed.

Lemma run_download_dirs host env url p w out w' :
  run host env (download host url p) w = (out, w') → dirs w' = dirs w.
Proof.
  unfold download. rewrite run_bind. unfold fetch_js, fetch.
  destruct url as [u|]; [|by intros [= _ <-]].
  rewrite run_await. simpl.
  destruct (http env (trace w) u) as [res|]; [|by intros [= _ <-]].
  rewrite run_bind, run_await. simpl.
  destruct (fs_write host p EmptyString (log (EvOpen p) (log (EvFetch u) w)))
    as [[e|[]] w1] eqn:Hw; simpl; apply fs_write_dirs in Hw.
  - by intros [= _ <-].
  - rewrite run_bind.
    destruct (run_pipe host env p (body res) 0 w1) as (w2 & -> & _ & Hd).
    destruct (logger_info host); intros [= _ <-]; by rewrite Hd.
Qed.

Lemma run_ensure_file_dirs host env cfg url p w out w' :
  run host env (ensure_file host cfg url p) w = (out, w') →
  ∀ q, q ≠ CACHE_DIR cfg → q ∈ dirs w' ↔ q ∈ dirs w.
Proof.
  unfold ensure_file. rewrite run_bind, run_await.
  assert (∀ q, q ≠ CACHE_DIR cfg →
            q ∈ dirs (perform host env (Mkdir (CACHE_DIR cfg)) w).2 ↔ q ∈ dirs w) as Hm.
  { intros q Hq. simpl. case_bool_decide; [done|]. case_bool_decide; [done|].
    simpl. rewrite elem_of_union, elem_of_singleton. split; [by intros [?|?]|by right]. }
  destruct (perform host env (Mkdir (CACHE_DIR cfg)) w) as [[e|[]] w1]; simpl in *.
  - by intros [= _ <-].
  - rewrite run_bind, run_exists_at.
    destruct (bool_decide (p ∈ dirs w1) || bool_decide (is_Some (files w1 !! p))); simpl.
    + rewrite run_ret. by intros [= _ <-].
    + intros Hd. apply run_download_dirs in Hd. simpl in Hd. by rewrite Hd.
Qed.

(** X14. A [cachePackage] that runs without another task in between, and
    returns, leaves the manifest document reading as the mapping it read
    as before with the one entry for the resolved version put in (or
    replaced), and no file other than the artifact and the manifest
    changed.  Lines 98-100 read the manifest, change it and write it
    without any guard against the other tasks of the [Promise.all], so
    this does not carry over to tasks that advance in turn: in an
    installation of [aa] and [bb] with both archives on disk, the two
    tasks in lock step both read the manifest before either writes it,
    and the command completes with the entry of [aa] lost; with one task
    after the other both entries are there. *)
Theorem manifest_kept_alone_lost_in_turn :
  (∀ host env cfg pkg version w p w',
     json_roundtrip host →
     (∀ v, cache_path host cfg pkg v ≠ MANIFEST_PATH host cfg) →
     MANIFEST_PATH host cfg ≠ CACHE_DIR cfg →
     run host env (cachePackage host cfg pkg version) w = (Returned p, w') →
     ∃ pkgVersion integ,
       p = cache_path host cfg pkg pkgVersion ∧
       manifest_of host cfg w' =
         <[manifest_key pkg pkgVersion := {| me_path := Some p; me_integrity := integ |}]>
           (manifest_of host cfg w) ∧
       (∀ q, q ≠ p → q ≠ MANIFEST_PATH host cfg → files w' !! q = files w !! q)) ∧
  (installPackages (Demo.host false) Pair.env Demo.cfg ["aa"; "bb"] Demo.options
     Pair.lock_step Pair.on_disk).1 = Completed ∧
  manifest_of (Demo.host false) Demo.cfg
    (installPackages (Demo.host false) Pair.env Demo.cfg ["aa"; "bb"] Demo.options
       Pair.lock_step Pair.on_disk).2 = {[ "bb@1.0.0" := Pair.entry "bb" ]} ∧
  (installPackages (Demo.host false) Pair.env Demo.cfg ["aa"; "bb"] Demo.options
     Pair.one_by_one Pair.on_disk).1 = Completed ∧
  manifest_of (Demo.host false) Demo.cfg
    (installPackages (Demo.host false) Pair.env Demo.cfg ["aa"; "bb"] Demo.options
       Pair.one_by_one Pair.on_disk).2 =
    {[ "aa@1.0.0" := Pair.entry "aa"; "bb@1.0.0" := Pair.entry "bb" ]}.
Proof.
  split_and!; [|vm_compute; reflexivity..].
  intros host env cfg pkg version w p w' Hjson Hpaths Hne. rewrite run_cachePackage.
  destruct (resolved _ _) as [[pkgVersion d]|e|] eqn:Hres; [|done..].
  destruct (run host env (ensure_file _ _ _ _) _) as [[[]|e|] w1] eqn:Hens; [|done..].
  pose proof (run_ensure_file_same_files _ _ _ _ _ _ _ _ Hens) as Hsame.
  pose proof (run_ensure_file_dirs _ _ _ _ _ _ _ _ Hens) as Hdirs.
  intros Hv. apply run_verify_cases in Hv.
  destruct Hv as (-> & Hd & Hmd & (c & Hf & Hi) & ->).
  exists pkgVersion, (integrity d). split; [done|].
  assert (manifest_of host cfg (log (EvRead (cache_path host cfg pkg pkgVersion)) w1) =
          manifest_of host cfg w) as Hm.
  { unfold manifest_of. simpl.
    rewrite (Hsame (MANIFEST_PATH host cfg)) by (intros Heq; by apply (Hpaths pkgVersion)).
    simpl. destruct (decide (MANIFEST_PATH host cfg ∈ dirs w)) as [Hin|Hout].
    - rewrite !bool_decide_eq_true_2; [done..|]. by apply Hdirs.
    - rewrite !bool_decide_eq_false_2; [done..|]. intros Hin. by apply Hout, Hdirs. }
  split.
  - unfold registered. rewrite Hm. unfold manifest_of at 1. simpl.
    rewrite bool_decide_eq_false_2 by done.
    by rewrite lookup_insert_eq, Hjson.
  - intros q Hq HqM. unfold registered. simpl.
    rewrite lookup_insert_ne by done. by apply Hsame.
Qed.

Lemma manifest_kept_alone_lost_in_turn_witness :
  ∃ pkgVersion integ,
    "/cache/bb-1.0.0.tgz" = cache_path (Demo.host false) Demo.cfg "bb" pkgVersion ∧
    manifest_of (Demo.host false) Demo.cfg
      (run (Demo.host false) Pair.env
         (cachePackage (Demo.host false) Demo.cfg "bb" (Some "1.0.0"))
         (run (Demo.host false) Pair.env
            (cachePackage (Demo.host false) Demo.cfg "aa" (Some "1.0.0"))
            Pair.on_disk).2).2 =
      <[manifest_key "bb" pkgVersion :=
          {| me_path := Some "/cache/bb-1.0.0.tgz"; me_integrity := integ |}]>
        (manifest_of (Demo.host false) Demo.cfg
           (run (Demo.host false) Pair.env
              (cachePackage (Demo.host false) Demo.cfg "aa" (Some "1.0.0"))
              Pair.on_disk).2) ∧
    (∀ q, q ≠ "/cache/bb-1.0.0.tgz" → q ≠ MANIFEST_PATH (Demo.host false) Demo.cfg →
          files (run (Demo.host false) Pair.env
                   (cachePackage (Demo.host false) Demo.cfg "bb" (Some "1.0.0"))
                   (run (Demo.host false) Pair.env
                      (cachePackage (Demo.host false) Demo.cfg "aa" (Some "1.0.0"))
                      Pair.on_disk).2).2 !! q =
          files (run (Demo.host false) Pair.env
                   (cachePackage (Demo.host false) Demo.cfg "aa" (Some "1.0.0"))
                   Pair.on_disk).2 !! q).
Proof.
  destruct manifest_kept_alone_lost_in_turn as [Halone _].
  apply (Halone (Demo.host false) Pair.env Demo.cfg "bb" (Some "1.0.0")
           (run (Demo.host false) Pair.env
              (cachePackage (Demo.host false) Demo.cfg "aa" (Some "1.0.0"))
              Pair.on_disk).2 "/cache/bb-1.0.0.tgz").
  - apply DemoFacts.roundtrip.
  - intros v. vm_compute. discriminate.
  - discriminate.
  - vm_compute. reflexivity.
Defined.

(** ** Forcing *)

(** X15. What [force] changes in [acquire] is the resolution only: the
    registry is asked for the latest version even when the memory cache
    has one, but an artifact of that version that is in the manifest with
    a file of the recorded digest is used as it is.  One request is sent,
    to the registry; the archive is not requested and no file is
    changed. *)
Theorem force_reuses_verified_artifact host env cfg pkg w res data v p i c :
  http env (trace w) (REGISTRY_URL cfg +:+ "/" +:+ pkg) = Some res →
  ok res = true → json res = Some data → dist_tags data = Some v →
  manifest_of host cfg w !! manifest_key pkg v =
    Some {| me_path := Some p; me_integrity := Some i |} →
  p ∉ dirs w → files w !! p = Some c → digest_of host c = i → p ≠ EmptyString →
  ∃ w', run host env (acquire host cfg pkg true) w = (Returned p, w') ∧
        new_events w w' =
          [EvFetch (REGISTRY_URL cfg +:+ "/" +:+ pkg);
           EvRead (MANIFEST_PATH host cfg); EvRead p] ∧
        files w' = files w ∧ dirs w' = dirs w ∧
        versionCache w' = <[pkg := v]> (versionCache w).
Proof.
  intros Hhttp Hok Hjson Htag Hm Hd Hf Hi Hp.
  unfold acquire. rewrite run_bind.
  rewrite (run_getPackageVersion_request host env cfg pkg true w) by (by left).
  rewrite Hhttp, Hok, Hjson, Htag.
  unfold cached_or_fetched. rewrite run_bind.
  rewrite (run_getCachedPackage_hit _ _ _ pkg v p (Some i) c); try done.
  - unfold truthy. rewrite decide_False by done. eexists. split; [reflexivity|].
    split_and!; try done. apply new_events_app. simpl. by rewrite <- !app_assoc.
  - by rewrite Hi.
Qed.

Lemma force_reuses_verified_artifact_witness :
  ∃ w', run (Demo.host false) Demo.env
          (acquire (Demo.host false) Demo.cfg "leftpad" true) Demo.cached =
          (Returned Demo.artifact_path, w') ∧
        new_events Demo.cached w' =
          [EvFetch "https://registry.npmjs.org/leftpad";
           EvRead (MANIFEST_PATH (Demo.host false) Demo.cfg); EvRead Demo.artifact_path] ∧
        files w' = files Demo.cached ∧ dirs w' = dirs Demo.cached ∧
        versionCache w' = <["leftpad" := Some "1.0.0"]> (versionCache Demo.cached).
Proof.
  apply (force_reuses_verified_artifact (Demo.host false) Demo.env Demo.cfg "leftpad"
           Demo.cached {| ok := true; json := Some Demo.leftpad_doc; body := [] |}
           Demo.leftpad_doc (Some "1.0.0") Demo.artifact_path
           ("sha512-" +:+ Demo.digest Demo.tarball_bytes) Demo.tarball_bytes).
  - reflexivity.
  - reflexivity.
  - reflexivity.
  - reflexivity.
  - vm_compute. reflexivity.
  - apply (bool_decide_unpack _). vm_compute. exact I.
  - vm_compute. reflexivity.
  - reflexivity.
  - discriminate.
Defined.

(** ** One package *)

Lemma settle_run host env {A} (p : Prog A) : ∀ w,
  run host env (settle host env p w).1 (settle host env p w).2 = run host env p w ∧
  awaits host env (settle host env p w).1 (settle host env p w).2 ≤ awaits host env p w.
Proof.
  induction p as [a|e| |X op k IH]; intros w; simpl; try done.
  destruct (is_sync op) eqn:Hs.
  - rewrite run_do. destruct (perform host env op w) as [r w1]. simpl.
    destruct (IH r w1) as [Hrun Hle]. split; [done|lia].
  - done.
Qed.

Lemma run_pool_alone host env {A} sched : ∀ (p : Prog A) w,
  awaits host env p w ≤ length (filter (eq 0) sched) →
  run_pool host env sched [p] w =
    ([settled_as (run host env p w).1], (run host env p w).2).
Proof.
  induction sched as [|i sched IH]; intros p w Hle.
  - simpl in *. destruct p as [a|e| |X op k]; try done.
    simpl in Hle. destruct (perform host env op w). lia.
  - simpl. destruct p as [a|e| |X op k]; simpl.
    + unfold pool_step. destruct i; simpl; rewrite IH; simpl; try done; lia.
    + done.
    + unfold pool_step. destruct i; simpl; rewrite IH; simpl; try done; lia.
    + unfold pool_step. destruct i as [|i]; simpl.
      * rewrite run_do. rewrite filter_cons, decide_True in Hle by done.
        simpl in Hle.
        destruct (perform host env op w) as [r w1]. simpl.
        destruct (settle_run host env (k r) w1) as [Hrun Hs].
        destruct (settle host env (k r) w1) as [p' w2]. simpl in *.
        rewrite IH by lia. by rewrite Hrun.
      * rewrite filter_cons, decide_False in Hle by done. by rewrite IH.
Qed.

Lemma install_pool_alone host env cfg pkg options sched w1 :
  awaits host env (install_task host cfg options pkg) w1 ≤ length (filter (eq 0) sched) →
  (let '(pool0, w2) :=
     start_all host env (map (install_task host cfg options) [pkg]) w1 in
   run_pool host env sched pool0 w2) =
  ([settled_as (run host env (install_task host cfg options pkg) w1).1],
   (run host env (install_task host cfg options pkg) w1).2).
Proof.
  intros Hturns.
  assert (start_all host env (map (install_task host cfg options) [pkg]) w1 =
          ([(settle host env (install_task host cfg options pkg) w1).1],
           (settle host env (install_task host cfg options pkg) w1).2)) as ->.
  { cbn [map start_all].
    by destruct (settle host env (install_task host cfg options pkg) w1). }
  destruct (settle_run host env (install_task host cfg options pkg) w1) as [Hrun Hle].
  rewrite run_pool_alone by lia. by rewrite Hrun.
Qed.

Lemma run_returns_in host env {A} (Q : A → Prop) (p : Prog A) : ∀ w a w',
  returns_in Q p → run host env p w = (Returned a, w') → Q a.
Proof.
  induction p as [a0|e| |X op k IH]; intros w a w' Hp; simpl in *; try done.
  - rewrite run_ret. by intros [= <- _].
  - rewrite run_do. apply IH, Hp.
Qed.

(** X16. With one package, and its task given the turns it needs,
    [installPackages] is [ensurePackageJson] followed by the task run to
    its end: the command completes when the task returns, exits with
    code 1 and the error the task threw, and is left unsettled when the
    task never settles. *)
Theorem installPackages_one_package host env cfg pkg options sched w w1 :
  valid_name pkg →
  run host env (if opt_global options then Ret tt else ensurePackageJson host cfg) w =
    (Returned tt, w1) →
  awaits host env (install_task host cfg options pkg) w1 ≤ length (filter (eq 0) sched) →
  installPackages host env cfg [pkg] options sched w =
    (match (run host env (install_task host cfg options pkg) w1).1 with
     | Returned _ => Completed
     | Thrown e => Exited 1 e
     | Pending => Unsettled
     end, (run host env (install_task host cfg options pkg) w1).2).
Proof.
  intros Hvalid Hensure Hturns.
  pose proof (install_pool_alone host env cfg pkg options sched w1 Hturns) as Hpool.
  unfold installPackages.
  rewrite (sanitize_all_valid [pkg]) by (by constructor). rewrite Hensure.
  destruct (start_all host env (map (install_task host cfg options) [pkg]) w1)
    as [pool0 w2].
  rewrite Hpool.
  destruct (run host env (install_task host cfg options pkg) w1) as [[name|e|] w3] eqn:Htask;
    simpl; try done.
  assert (pkg = name) as <-.
  { eapply run_returns_in; [apply install_task_returns_its_name|done]. }
  unfold promise_all. simpl.
  assert (truthy pkg = true) as Ht.
  { destruct Hvalid as [Hne _]. unfold truthy. by destruct (decide _). }
  rewrite !filter_cons, !filter_nil, (decide_True (P := truthy pkg = true)) by done.
  rewrite decide_False; [done|]. intros Hout. apply Hout. by apply elem_of_cons; left.
Qed.

Lemma installPackages_one_package_witness :
  installPackages (Demo.host true) Demo.env Demo.cfg ["leftpad"] Demo.options
    (replicate 20 0) Demo.fresh =
    (Completed,
     (run (Demo.host true) Demo.env
        (install_task (Demo.host true) Demo.cfg Demo.options "leftpad")
        (run (Demo.host true) Demo.env
           (ensurePackageJson (Demo.host true) Demo.cfg) Demo.fresh).2).2).
Proof.
  rewrite (installPackages_one_package (Demo.host true) Demo.env Demo.cfg "leftpad"
             Demo.options (replicate 20 0) Demo.fresh
             (run (Demo.host true) Demo.env
                (ensurePackageJson (Demo.host true) Demo.cfg) Demo.fresh).2).
  - f_equal.
  - apply regex_test_valid. reflexivity.
  - reflexivity.
  - apply Nat.leb_le. vm_compute. reflexivity.
Defined.

Lemma awaits_bind host env {A B} (p : Prog A) (f : A → Prog B) : ∀ w,
  awaits host env (p ≫= f) w =
    awaits host env p w +
    match run host env p w with
    | (Returned a, w') => awaits host env (f a) w'
    | _ => 0
    end.
Proof.
  unfold mbind, Prog_bind.
  induction p as [a|e| |X op k IH]; intros w; simpl; try done.
  rewrite run_do. destruct (perform host env op w) as [r w1]. simpl. by rewrite IH.
Qed.

Lemma awaits_getPackageVersion host env cfg pkg force w :
  awaits host env (getPackageVersion cfg pkg force) w ≤ 3.
Proof.
  unfold getPackageVersion, fetch, res_json, latest_tag, await, mbind, Prog_bind. simpl.
  destruct force, (versionCache w !! pkg); simpl; try lia;
    (destruct (http env (trace w) _) as [res|]; simpl; [|lia]);
    (destruct (ok res); simpl; [|lia]);
    (destruct (json res) as [data|]; simpl; [|lia]);
    (destruct (dist_tags data); simpl; lia).
Qed.

(** X17. When the version of the one package asked for cannot be
    resolved, [installPackages] exits with code 1 and the error of
    [getPackageVersion].  What [ensurePackageJson] did before stays done,
    a [package.json] it created included; apart from that, one request
    was sent and no file was touched. *)
Theorem unresolved_package_fails_install host env cfg pkg options sched w w1 e w2 :
  valid_name pkg →
  run host env (if opt_global options then Ret tt else ensurePackageJson host cfg) w =
    (Returned tt, w1) →
  run host env (getPackageVersion cfg pkg (opt_force options)) w1 = (Thrown e, w2) →
  3 ≤ length (filter (eq 0) sched) →
  installPackages host env cfg [pkg] options sched w = (Exited 1 e, w2) ∧
  new_events w1 w2 = [EvFetch (REGISTRY_URL cfg +:+ "/" +:+ pkg)] ∧
  files w2 = files w1 ∧ dirs w2 = dirs w1.
Proof.
  intros Hvalid Hensure Hres Hturns.
  assert (run host env (install_task host cfg options pkg) w1 = (Thrown e, w2)) as Htask.
  { unfold install_task. rewrite run_bind. unfold acquire. by rewrite run_bind, Hres. }
  split.
  - assert (awaits host env (install_task host cfg options pkg) w1 ≤
            length (filter (eq 0) sched)) as Hle.
    { pose proof (awaits_getPackageVersion host env cfg pkg (opt_force options) w1).
      unfold install_task. rewrite awaits_bind. unfold acquire.
      rewrite awaits_bind, Hres. rewrite run_bind, Hres.
      set (n := awaits host env (getPackageVersion cfg pkg (opt_force options)) w1) in *.
      clearbody n. simpl. lia. }
    pose proof (install_pool_alone host env cfg pkg options sched w1 Hle) as Hpool.
    unfold installPackages.
    rewrite (sanitize_all_valid [pkg]) by (by constructor). rewrite Hensure.
    destruct (start_all host env (map (install_task host cfg options) [pkg]) w1)
      as [pool0 w0].
    by rewrite Hpool, Htask.
  - destruct (decide (opt_force options = true ∨ versionCache w1 !! pkg = None))
      as [Hreq|Hhit].
    + rewrite (run_getPackageVersion_request _ _ _ _ _ _ Hreq) in Hres.
      assert (w2 = log (EvFetch (REGISTRY_URL cfg +:+ "/" +:+ pkg)) w1) as ->;
        [|split_and!; try done; by apply new_events_app].
      destruct (http env (trace w1) _) as [res|]; [|by injection Hres].
      destruct (ok res); [|by injection Hres].
      destruct (json res) as [data|]; [|by injection Hres].
      destruct (dist_tags data); [done|by injection Hres].
    + destruct (opt_force options); [by destruct Hhit; left|].
      destruct (versionCache w1 !! pkg) as [v|] eqn:Hc; [|by destruct Hhit; right].
      by rewrite (run_getPackageVersion_cached _ _ _ _ _ _ Hc) in Hres.
Qed.

Lemma unresolved_package_fails_install_witness :
  installPackages (Demo.host false) Demo.env Demo.cfg ["nope"] Demo.options [0; 0; 0]
    Demo.fresh =
    (Exited 1 (Error "Package nope not found"),
     log (EvFetch "https://registry.npmjs.org/nope")
       (run (Demo.host false) Demo.env
          (ensurePackageJson (Demo.host false) Demo.cfg) Demo.fresh).2) ∧
  files (run (Demo.host false) Demo.env
           (ensurePackageJson (Demo.host false) Demo.cfg) Demo.fresh).2
    !! "/proj/package.json" = Some "{ name: proj }".
Proof.
  split; [|vm_compute; reflexivity].
  apply (unresolved_package_fails_install (Demo.host false) Demo.env Demo.cfg "nope"
           Demo.options [0; 0; 0] Demo.fresh
           (run (Demo.host false) Demo.env
              (ensurePackageJson (Demo.host false) Demo.cfg) Demo.fresh).2).
  - apply regex_test_valid. reflexivity.
  - reflexivity.
  - vm_compute. reflexivity.
  - vm_compute. lia.
Defined.

(** ** Names that are not valid *)

Lemma sanitize_all_inr_valid packages : ∀ safe,
  sanitize_all packages = inr safe → Forall valid_name packages.
Proof.
  induction packages as [|pkg rest IH]; simpl; [by constructor|].
  unfold sanitizeInput. destruct (regex_test pkg) eqn:Ht; [|done].
  destruct (sanitize_all rest) as [e|ps]; [done|]. intros safe _.
  constructor; [by apply regex_test_valid|by eapply IH].
Qed.

(** X18. [uninstallPackages] checks the names before anything else: when
    one of them is not valid it ends by its [catch] with the error of the
    first such name, and nothing has been looked up or run. *)
Theorem uninstallPackages_rejects_invalid_names host env cfg GLOBAL_DIR packages options w :
  ¬ Forall valid_name packages →
  ∃ bad, bad ∈ packages ∧ ¬ valid_name bad ∧
    run host env (uninstallPackages host cfg GLOBAL_DIR packages options) w =
      (Returned (UninstallFailed (Error ("Invalid package: " +:+ bad))), w).
Proof.
  intros Hinvalid. unfold uninstallPackages.
  destruct (sanitize_all packages) as [e|safe] eqn:Hs.
  - destruct (sanitize_all_invalid _ _ Hs) as (bad & Hin & Hbad & ->). by exists bad.
  - destruct Hinvalid. by eapply sanitize_all_inr_valid.
Qed.

Lemma uninstallPackages_rejects_invalid_names_witness :
  ∃ bad, bad ∈ ["leftpad"; "left pad"] ∧ ¬ valid_name bad ∧
    run (Demo.host false) Demo.env
      (uninstallPackages (Demo.host false) Demo.cfg "/global" ["leftpad"; "left pad"]
         Demo.options) Demo.fresh =
      (Returned (UninstallFailed (Error ("Invalid package: " +:+ bad))), Demo.fresh).
Proof.
  apply (uninstallPackages_rejects_invalid_names (Demo.host false) Demo.env Demo.cfg
           "/global" ["leftpad"; "left pad"] Demo.options Demo.fresh).
  intros Hall. apply Forall_cons in Hall as [_ Hall]. apply Forall_cons in Hall as [Hbad _].
  apply regex_test_valid in Hbad. vm_compute in Hbad. discriminate.
Defined.

(** ** The bounds of an installation *)

Lemma reaches_refl P w : reaches P w w.
Proof. exists []. split; [apply extends_refl|constructor]. Qed.

Lemma reaches_trans P w1 w2 w3 : reaches P w1 w2 → reaches P w2 w3 → reaches P w1 w3.
Proof.
  intros (evs1 & H1 & Hall1) (evs2 & H2 & Hall2). exists (evs1 ++ evs2).
  split; [by eapply extends_trans|by apply Forall_app].
Qed.

Lemma reaches_new_events P w w' : reaches P w w' → Forall P (new_events w w').
Proof. intros (evs & Hext & Hall). by rewrite (extends_new_events _ _ _ Hext). Qed.

Lemma perform_reaches host env P {X} (op : Op X) w :
  Forall P (op_events op) → reaches P w (perform host env op w).2.
Proof. intros Hop. exists (op_events op). split; [apply perform_trace|done]. Qed.

Lemma run_reaches host env P {A} (p : Prog A) w :
  only_events P p → reaches P w (run host env p w).2.
Proof. intros Hp. by apply run_only_events. Qed.

Lemma settle_only_events host env P {A} (p : Prog A) : ∀ w,
  only_events P p →
  only_events P (settle host env p w).1 ∧ reaches P w (settle host env p w).2.
Proof.
  induction p as [a|e| |X op k IH]; intros w Hp; simpl;
    try (split; [done|apply reaches_refl]).
  destruct Hp as [Hop Hk]. destruct (is_sync op).
  - pose proof (perform_reaches host env P op w Hop) as Hstep.
    destruct (perform host env op w) as [r w1]. simpl in Hstep.
    destruct (IH r w1 (Hk r)) as [Hp' Hw]. split; [done|].
    by eapply reaches_trans.
  - split; [by split|apply reaches_refl].
Qed.

Lemma start_all_only_events host env P {A} (tasks : list (Prog A)) : ∀ w,
  Forall (only_events P) tasks →
  Forall (only_events P) (start_all host env tasks w).1 ∧
  reaches P w (start_all host env tasks w).2.
Proof.
  induction tasks as [|p rest IH]; intros w Hall; simpl.
  - split; [constructor|apply reaches_refl].
  - apply Forall_cons in Hall as [Hp Hrest].
    destruct (settle_only_events host env P p w Hp) as [Hp' Hw].
    destruct (settle host env p w) as [p' w1]. simpl in *.
    destruct (IH w1 Hrest) as [Hrest' Hw'].
    destruct (start_all host env rest w1) as [rest' w2]. simpl in *.
    split; [by constructor|by eapply reaches_trans].
Qed.

Lemma pool_step_only_events host env P {A} i (pool : list (Prog A)) w :
  Forall (only_events P) pool →
  Forall (only_events P) (pool_step host env i pool w).1 ∧
  reaches P w (pool_step host env i pool w).2.
Proof.
  intros Hall. unfold pool_step.
  destruct (pool !! i) as [[a|e| |X op k]|] eqn:Hi;
    try (split; [done|apply reaches_refl]).
  pose proof (Forall_lookup_1 _ _ _ _ Hall Hi) as [Hop Hk].
  pose proof (perform_reaches host env P op w Hop) as Hstep.
  destruct (perform host env op w) as [r w1]. simpl in Hstep.
  destruct (settle_only_events host env P (k r) w1 (Hk r)) as [Hp' Hw].
  destruct (settle host env (k r) w1) as [p' w2]. simpl in *.
  split; [by apply Forall_insert|by eapply reaches_trans].
Qed.

Lemma run_pool_only_events host env P {A} sched : ∀ (pool : list (Prog A)) w,
  Forall (only_events P) pool → reaches P w (run_pool host env sched pool w).2.
Proof.
  induction sched as [|i sched IH]; intros pool w Hall; simpl; [apply reaches_refl|].
  destruct (existsb is_thrown pool); [apply reaches_refl|].
  destruct (pool_step_only_events host env P i pool w Hall) as [Hall' Hw].
  destruct (pool_step host env i pool w) as [pool' w']. simpl in *.
  eapply reaches_trans; [done|]. by apply IH.
Qed.

Lemma only_events_pipe P p chunks :
  (∀ pos chunk, P (EvStreamWrite p pos chunk)) →
  ∀ pos, only_events P (pipe p pos chunks).
Proof.
  intros Hp. induction chunks as [|chunk rest IH]; intros pos; [done|].
  apply only_events_bind; [apply only_events_await; by repeat constructor|].
  intros _. apply IH.
Qed.

Lemma only_events_execPromise_loop P cfg command n :
  P (EvExec (BUN_PATH cfg +:+ " " +:+ command)) → P (EvSleep 1000) →
  only_events P (execPromise_loop cfg command n).
Proof.
  intros Hexec Hsleep. induction n as [|n IH]; [done|].
  change (execPromise_loop cfg command (S n))
    with (try_catch (result ← await (Exec (BUN_PATH cfg +:+ " " +:+ command));
                     Ret (Some result))
            (fun error => match n with
                          | O => Throw error
                          | S _ => await (Sleep 1000);; execPromise_loop cfg command n
                          end)).
  apply only_events_try_catch.
  - apply only_events_bind; [apply only_events_await; by repeat constructor|done].
  - intros e. destruct n; [done|].
    apply only_events_bind; [apply only_events_await; by repeat constructor|done].
Qed.

(** Decomposes a program into its awaits. *)
Ltac only_events_tac :=
  repeat first
    [ apply only_events_await; simpl; first [apply Forall_nil|apply Forall_singleton]
    | apply only_events_bind; [|intros ?]
    | apply only_events_try_catch; [|intros ?]
    | exact I
    | match goal with
      | |- only_events _ (match ?x with _ => _ end) => destruct x
      | |- only_events _ ((match ?x with _ => _ end) _) => destruct x; cbv beta
      | |- only_events _ (let '(_, _) := ?x in _) => destruct x
      end ].

Lemma only_events_install_task host cfg packages options pkg :
  pkg ∈ packages →
  only_events (install_event host cfg packages options) (install_task host cfg options pkg).
Proof.
  intros Hin. unfold install_task.
  apply only_events_bind.
  - unfold acquire, getPackageVersion, cached_or_fetched, getCachedPackage, cachePackage,
      resolve_dist, ensure_file, verify_and_register, download, loadManifest,
      exists_at, fetch_js, fetch, res_json, latest_tag, lookup_dist, evict, saveManifest.
    only_events_tac; simpl; eauto;
      try (apply only_events_pipe; intros; simpl; eauto).
  - intros cachePath. apply only_events_bind; [|done].
    apply only_events_execPromise_loop; simpl; [|done]. by exists cachePath.
Qed.

Lemma only_events_ensurePackageJson host cfg packages options :
  only_events (install_event host cfg packages options) (ensurePackageJson host cfg).
Proof.
  unfold ensurePackageJson, exists_at. only_events_tac; simpl; eauto.
Qed.

Lemma uncached_nil packages :
  Forall valid_name packages →
  filter (fun pkg => pkg ∉ filter (fun pkg => truthy pkg = true) packages) packages = [].
Proof.
  intros Hvalid.
  assert (filter (fun pkg => truthy pkg = true) packages = packages) as ->.
  { induction Hvalid as [|pkg rest [Hne _] _ IH]; [done|].
    assert (truthy pkg = true) as Ht by (unfold truthy; by destruct (decide _)).
    by rewrite filter_cons, IH, decide_True. }
  assert (∀ l, (∀ pkg, pkg ∈ l → pkg ∈ packages) →
               filter (fun pkg => pkg ∉ packages) l = []) as Hnone.
  { clear. induction l as [|pkg rest IH]; intros Hin; [done|].
    rewrite filter_cons, decide_False.
    - apply IH. intros pkg' Hpkg'. apply Hin. by apply elem_of_cons; right.
    - intros Hout. apply Hout, Hin. by apply elem_of_cons; left. }
  by apply Hnone.
Qed.

(** X19. Whatever the names, the options, the order in which the tasks
    advance and the answers of the registry and of the shell, the
    operations of an installation have these forms: the only directory
    made is the cache directory; the only files written whole are the
    manifest and the [package.json] of the working directory; a stream is
    opened and written only at the path of line 77 for a package that was
    asked for and some version string; every command is the [add] of
    line 153, [<bun> add "<path>" <flags>], for some path; every sleep
    lasts a second.  These are bounds on the form only.  The version
    string is the registry's and goes into the path and into the command
    as it is: a registry that names a version with a quote in it has the
    process hand the shell a line in which [add] is followed by another
    command. *)
Theorem installPackages_operations_have_these_forms :
  (∀ host env cfg packages options sched w,
     Forall (install_event host cfg packages options)
       (new_events w (installPackages host env cfg packages options sched w).2)) ∧
  (installPackages (Demo.host false) Pair.quoting Demo.cfg ["aa"] Demo.options
     (replicate 12 0) Pair.quoting_on_disk).1 = Completed ∧
  filter (fun ev => is_exec ev = true)
    (trace (installPackages (Demo.host false) Pair.quoting Demo.cfg ["aa"] Demo.options
              (replicate 12 0) Pair.quoting_on_disk).2) =
    [EvExec ("bun add " +:+ dquote +:+ "/cache/aa-1" +:+ dquote +:+ "; echo pwned; " +:+
             dquote +:+ ".tgz" +:+ dquote +:+ "   ")].
Proof.
  split_and!; [|vm_compute; reflexivity..].
  intros host env cfg packages options sched w.
  apply reaches_new_events. unfold installPackages.
  destruct (sanitize_all packages) as [e|safe] eqn:Hs; [apply reaches_refl|].
  pose proof (sanitize_all_inr_valid _ _ Hs) as Hvalid.
  assert (safe = packages) as ->.
  { pose proof (sanitize_all_valid _ Hvalid). congruence. }
  assert (reaches (install_event host cfg packages options) w
            (run host env (if opt_global options then Ret tt
                           else ensurePackageJson host cfg) w).2) as Hensure.
  { apply run_reaches. destruct (opt_global options); [done|].
    apply only_events_ensurePackageJson. }
  destruct (run host env _ w) as [[[]|e|] w1]; simpl in Hensure; try done.
  assert (Forall (only_events (install_event host cfg packages options))
            (map (install_task host cfg options) packages)) as Htasks.
  { apply Forall_forall. intros p (pkg & -> & Hin)%list_elem_of_fmap.
    by apply only_events_install_task. }
  assert (Forall2 (fun name p => returns_in (eq name) p) packages
            (map (install_task host cfg options) packages)) as Hnames.
  { clear. induction packages as [|pkg rest IH]; simpl; constructor; [|done].
    apply install_task_returns_its_name. }
  destruct (start_all_only_events host env _ _ w1 Htasks) as [Hpool0 Hstart].
  pose proof (start_all_returns_in host env _ packages w1 Hnames) as Hnames0.
  destruct (start_all host env _ w1) as [pool0 w2]. simpl in *.
  pose proof (run_pool_only_events host env _ sched pool0 w2 Hpool0) as Hpool.
  pose proof (run_pool_returns_in host env sched pool0 packages w2 Hnames0) as Hnames1.
  destruct (run_pool host env sched pool0 w2) as [pool w3]. simpl in *.
  assert (reaches (install_event host cfg packages options) w w3) as Hw3.
  { eapply reaches_trans; [done|]. by eapply reaches_trans. }
  destruct (promise_all pool) as [results|e|] eqn:Hres; try done.
  pose proof (promise_all_returned _ _ _ Hnames1 Hres) as ->.
  by rewrite uncached_nil.
Qed.
